(** * cartgame: the simulation core of the mining-station idle game

    A shallow embedding of [cartgame.py] (the classes [Cart], [Station] and
    the non-drawing methods of [MiningGame]) and the properties of its
    specification.

    Conventions of the embedding.
    - A Python number (an [int] or a finite [float]) is modelled by its exact
      value, a rational [Q]; rounding of float operations is not modelled,
      except in [Binary64], which repeats the sale on binary64 floats for the
      one property that speaks of an exact amount of money.
      One type is needed for both because the program mixes them freely:
      [cart_stats["capacity"]] starts as the int [50], becomes [75.0] and
      then [112.5] with upgrades, and is stored as it is into the capacity
      of a cart created afterwards.
    - A [dict] is an association list in insertion order: assignment to a
      present key keeps its position, assignment to an absent key appends.
    - A method that can raise returns a [result]; the wall clock and the
      random generator are read from the [World] through counters kept in the
      state. *)

From Stdlib Require Import PrimFloat.
From Stdlib Require FloatOps SpecFloat.
From Stdlib Require Import QArith Qround Qminmax ZArith List String Bool Lia Lqa.
Import ListNotations.
Open Scope Q_scope.

(** ** Python numbers *)

Module Num.

Definition ltb (a b : Q) : bool := negb (Qle_bool b a).
Definition leb (a b : Q) : bool := Qle_bool a b.
Definition gtb (a b : Q) : bool := ltb b a.
Definition geb (a b : Q) : bool := leb b a.
Definition eqb (a b : Q) : bool := Qeq_bool a b.

(** [min(a, b)] and [max(a, b)] of Python keep the first argument on a tie. *)
Definition min (a b : Q) : Q := if ltb b a then b else a.
Definition max (a b : Q) : Q := if gtb b a then b else a.

(** [int(x)]: truncation toward zero. *)
Definition int (x : Q) : Q := inject_Z (Z.quot (Qnum x) (Zpos (Qden x))).

(** [sum(values)]: left to right from [0]. *)
Definition sum (l : list Q) : Q := fold_left Qplus l 0.

End Num.

(** ** Exceptions *)

Inductive exn : Type :=
| KeyError (k : string)
| IndexError
| ZeroDivisionError.

Inductive result (A : Type) : Type :=
| Ok (a : A)
| Raise (e : exn).

Arguments Ok {A} a.
Arguments Raise {A} e.

Definition bind {A B : Type} (m : result A) (f : A -> result B) : result B :=
  match m with
  | Ok a => f a
  | Raise e => Raise e
  end.

Notation "'let*' x ':=' m 'in' k" := (bind m (fun x => k))
  (at level 10, x pattern, m at level 100, k at level 200).

(** ** Python dictionaries with string keys *)

Module Dict.

Definition t (V : Type) : Type := list (string * V).

(** [d.get(k)]: [None] when the key is absent. *)
Fixpoint get {V : Type} (d : t V) (k : string) : option V :=
  match d with
  | [] => None
  | (k', v) :: rest => if String.eqb k' k then Some v else get rest k
  end.

(** [d.get(k, default)]. *)
Definition get_default {V : Type} (d : t V) (k : string) (default : V) : V :=
  match get d k with
  | Some v => v
  | None => default
  end.

(** [d[k]], which raises [KeyError] on an absent key. *)
Definition lookup {V : Type} (d : t V) (k : string) : result V :=
  match get d k with
  | Some v => Ok v
  | None => Raise (KeyError k)
  end.

(** [d[k] = v]. *)
Fixpoint set {V : Type} (d : t V) (k : string) (v : V) : t V :=
  match d with
  | [] => [(k, v)]
  | (k', v') :: rest =>
      if String.eqb k' k then (k', v) :: rest else (k', v') :: set rest k v
  end.

Definition keys {V : Type} (d : t V) : list string := map fst d.
Definition values {V : Type} (d : t V) : list V := map snd d.
Definition items {V : Type} (d : t V) : list (string * V) := d.

(** [k in d]. *)
Definition mem {V : Type} (d : t V) (k : string) : bool :=
  match get d k with
  | Some _ => true
  | None => false
  end.

End Dict.

(** ** The world outside the program

    [time.time()] and [random.random()] are read from two streams, and
    [x ** 0.5] (irrational in general) is left uninterpreted. *)

Record World : Type := {
  clock : nat -> Q;
  random : nat -> Q;
  pow_half : Q -> Q
}.

(** ** Constants *)

Definition SCREEN_WIDTH : Q := 1440.
Definition SCREEN_HEIGHT : Q := 900.
Definition PRICE_HISTORY_LENGTH : nat := 50.
Definition PRICE_MOMENTUM_FACTOR : Q := 0.7.
Definition PRICE_VOLATILITY : Q := 0.03.
Definition POSITION_TOLERANCE : Q := 10.

(** ** class Resource (the display colour is left out) *)

Module Resource.

Record t : Type := {
  name : string;
  base_value : Q;
  rarity : Q
}.

End Resource.

(** ** class Cart *)

Module Cart.

Record t : Type := {
  x : Q;
  y : Q;
  capacity : Q;
  speed : Q;
  mining_speed : Q;
  contents : Dict.t Q;
  cart_type : string;
  state : string
}.

Definition get_contents_amount (self : t) : Q :=
  Num.sum (Dict.values (contents self)).

Definition is_full (self : t) : bool :=
  Num.geb (Num.sum (Dict.values (contents self))) (capacity self).

(** Assignments to one attribute. *)
Definition set_contents (self : t) (v : Dict.t Q) : t :=
  {| x := x self; y := y self; capacity := capacity self; speed := speed self;
     mining_speed := mining_speed self; contents := v;
     cart_type := cart_type self; state := state self |}.

Definition set_state (self : t) (v : string) : t :=
  {| x := x self; y := y self; capacity := capacity self; speed := speed self;
     mining_speed := mining_speed self; contents := contents self;
     cart_type := cart_type self; state := v |}.

Definition set_cart_type (self : t) (v : string) : t :=
  {| x := x self; y := y self; capacity := capacity self; speed := speed self;
     mining_speed := mining_speed self; contents := contents self;
     cart_type := v; state := state self |}.

Definition set_xy (self : t) (vx vy : Q) : t :=
  {| x := vx; y := vy; capacity := capacity self; speed := speed self;
     mining_speed := mining_speed self; contents := contents self;
     cart_type := cart_type self; state := state self |}.

Definition set_capacity (self : t) (v : Q) : t :=
  {| x := x self; y := y self; capacity := v; speed := speed self;
     mining_speed := mining_speed self; contents := contents self;
     cart_type := cart_type self; state := state self |}.

Definition set_speed (self : t) (v : Q) : t :=
  {| x := x self; y := y self; capacity := capacity self; speed := v;
     mining_speed := mining_speed self; contents := contents self;
     cart_type := cart_type self; state := state self |}.

Definition set_mining_speed (self : t) (v : Q) : t :=
  {| x := x self; y := y self; capacity := capacity self; speed := speed self;
     mining_speed := v; contents := contents self;
     cart_type := cart_type self; state := state self |}.

End Cart.

(** ** class Station *)

Module Station.

Record t : Type := {
  x : Q;
  y : Q;
  storage : Dict.t Q;
  processing_speed : Q;
  storage_capacity : Q;
  money : Q;
  upgrade_costs : Dict.t Q;
  upgrade_multipliers : Dict.t Q
}.

Definition init (x0 y0 : Q) : t :=
  {| x := x0; y := y0;
     storage := [("iron"%string, 0); ("copper"%string, 0); ("gold"%string, 0)];
     processing_speed := 1;
     storage_capacity := 1000;
     money := 1000;
     upgrade_costs :=
       [("capacity"%string, 1000); ("speed"%string, 1500);
        ("mining"%string, 2000); ("processing"%string, 2500);
        ("storage"%string, 3000)];
     upgrade_multipliers :=
       [("capacity"%string, 1.5); ("speed"%string, 1.3);
        ("mining"%string, 1.4); ("processing"%string, 1.2);
        ("storage"%string, 2.0)] |}.

Definition set_storage (self : t) (v : Dict.t Q) : t :=
  {| x := x self; y := y self; storage := v;
     processing_speed := processing_speed self;
     storage_capacity := storage_capacity self; money := money self;
     upgrade_costs := upgrade_costs self;
     upgrade_multipliers := upgrade_multipliers self |}.

Definition set_money (self : t) (v : Q) : t :=
  {| x := x self; y := y self; storage := storage self;
     processing_speed := processing_speed self;
     storage_capacity := storage_capacity self; money := v;
     upgrade_costs := upgrade_costs self;
     upgrade_multipliers := upgrade_multipliers self |}.

Definition set_upgrade_costs (self : t) (v : Dict.t Q) : t :=
  {| x := x self; y := y self; storage := storage self;
     processing_speed := processing_speed self;
     storage_capacity := storage_capacity self; money := money self;
     upgrade_costs := v;
     upgrade_multipliers := upgrade_multipliers self |}.

End Station.

(** ** class MiningGame

    Only the simulation state is kept: the screen, fonts, colours, buttons
    and icons are left out, and so is [price_volatility], which no method
    reads. [clock_reads] and [random_reads] count the values already taken
    from the two streams of the [World].

    A method that receives a cart returns the cart it leaves behind; the
    caller stores it back into [carts] at its index, which is what the
    shared Python object amounts to. *)

Module MiningGame.

Record t : Type := {
  mine_pos : Q * Q;
  station_pos : Q * Q;
  market_pos : Q * Q;
  resources : Dict.t Resource.t;
  station : Station.t;
  cart_stats : Dict.t Q;
  carts : list Cart.t;
  market_prices : Dict.t Q;
  last_update : Q;
  last_price_update : Q;
  price_update_interval : Q;
  price_history : Dict.t (list Q);
  price_momentum : Dict.t Q;
  resource_selling_enabled : Dict.t bool;
  clock_reads : nat;
  random_reads : nat
}.

Definition set_station (self : t) (v : Station.t) : t :=
  {| mine_pos := mine_pos self; station_pos := station_pos self;
     market_pos := market_pos self; resources := resources self;
     station := v; cart_stats := cart_stats self; carts := carts self;
     market_prices := market_prices self; last_update := last_update self;
     last_price_update := last_price_update self;
     price_update_interval := price_update_interval self;
     price_history := price_history self;
     price_momentum := price_momentum self;
     resource_selling_enabled := resource_selling_enabled self;
     clock_reads := clock_reads self; random_reads := random_reads self |}.

Definition set_cart_stats (self : t) (v : Dict.t Q) : t :=
  {| mine_pos := mine_pos self; station_pos := station_pos self;
     market_pos := market_pos self; resources := resources self;
     station := station self; cart_stats := v; carts := carts self;
     market_prices := market_prices self; last_update := last_update self;
     last_price_update := last_price_update self;
     price_update_interval := price_update_interval self;
     price_history := price_history self;
     price_momentum := price_momentum self;
     resource_selling_enabled := resource_selling_enabled self;
     clock_reads := clock_reads self; random_reads := random_reads self |}.

Definition set_carts (self : t) (v : list Cart.t) : t :=
  {| mine_pos := mine_pos self; station_pos := station_pos self;
     market_pos := market_pos self; resources := resources self;
     station := station self; cart_stats := cart_stats self; carts := v;
     market_prices := market_prices self; last_update := last_update self;
     last_price_update := last_price_update self;
     price_update_interval := price_update_interval self;
     price_history := price_history self;
     price_momentum := price_momentum self;
     resource_selling_enabled := resource_selling_enabled self;
     clock_reads := clock_reads self; random_reads := random_reads self |}.

Definition set_market_prices (self : t) (v : Dict.t Q) : t :=
  {| mine_pos := mine_pos self; station_pos := station_pos self;
     market_pos := market_pos self; resources := resources self;
     station := station self; cart_stats := cart_stats self;
     carts := carts self; market_prices := v;
     last_update := last_update self;
     last_price_update := last_price_update self;
     price_update_interval := price_update_interval self;
     price_history := price_history self;
     price_momentum := price_momentum self;
     resource_selling_enabled := resource_selling_enabled self;
     clock_reads := clock_reads self; random_reads := random_reads self |}.

Definition set_last_update (self : t) (v : Q) : t :=
  {| mine_pos := mine_pos self; station_pos := station_pos self;
     market_pos := market_pos self; resources := resources self;
     station := station self; cart_stats := cart_stats self;
     carts := carts self; market_prices := market_prices self;
     last_update := v; last_price_update := last_price_update self;
     price_update_interval := price_update_interval self;
     price_history := price_history self;
     price_momentum := price_momentum self;
     resource_selling_enabled := resource_selling_enabled self;
     clock_reads := clock_reads self; random_reads := random_reads self |}.

Definition set_last_price_update (self : t) (v : Q) : t :=
  {| mine_pos := mine_pos self; station_pos := station_pos self;
     market_pos := market_pos self; resources := resources self;
     station := station self; cart_stats := cart_stats self;
     carts := carts self; market_prices := market_prices self;
     last_update := last_update self; last_price_update := v;
     price_update_interval := price_update_interval self;
     price_history := price_history self;
     price_momentum := price_momentum self;
     resource_selling_enabled := resource_selling_enabled self;
     clock_reads := clock_reads self; random_reads := random_reads self |}.

Definition set_price_history (self : t) (v : Dict.t (list Q)) : t :=
  {| mine_pos := mine_pos self; station_pos := station_pos self;
     market_pos := market_pos self; resources := resources self;
     station := station self; cart_stats := cart_stats self;
     carts := carts self; market_prices := market_prices self;
     last_update := last_update self;
     last_price_update := last_price_update self;
     price_update_interval := price_update_interval self; price_history := v;
     price_momentum := price_momentum self;
     resource_selling_enabled := resource_selling_enabled self;
     clock_reads := clock_reads self; random_reads := random_reads self |}.

Definition set_price_momentum (self : t) (v : Dict.t Q) : t :=
  {| mine_pos := mine_pos self; station_pos := station_pos self;
     market_pos := market_pos self; resources := resources self;
     station := station self; cart_stats := cart_stats self;
     carts := carts self; market_prices := market_prices self;
     last_update := last_update self;
     last_price_update := last_price_update self;
     price_update_interval := price_update_interval self;
     price_history := price_history self; price_momentum := v;
     resource_selling_enabled := resource_selling_enabled self;
     clock_reads := clock_reads self; random_reads := random_reads self |}.

Definition set_resource_selling_enabled (self : t) (v : Dict.t bool) : t :=
  {| mine_pos := mine_pos self; station_pos := station_pos self;
     market_pos := market_pos self; resources := resources self;
     station := station self; cart_stats := cart_stats self;
     carts := carts self; market_prices := market_prices self;
     last_update := last_update self;
     last_price_update := last_price_update self;
     price_update_interval := price_update_interval self;
     price_history := price_history self;
     price_momentum := price_momentum self; resource_selling_enabled := v;
     clock_reads := clock_reads self; random_reads := random_reads self |}.

Definition set_clock_reads (self : t) (v : nat) : t :=
  {| mine_pos := mine_pos self; station_pos := station_pos self;
     market_pos := market_pos self; resources := resources self;
     station := station self; cart_stats := cart_stats self;
     carts := carts self; market_prices := market_prices self;
     last_update := last_update self;
     last_price_update := last_price_update self;
     price_update_interval := price_update_interval self;
     price_history := price_history self;
     price_momentum := price_momentum self;
     resource_selling_enabled := resource_selling_enabled self;
     clock_reads := v; random_reads := random_reads self |}.

Definition set_random_reads (self : t) (v : nat) : t :=
  {| mine_pos := mine_pos self; station_pos := station_pos self;
     market_pos := market_pos self; resources := resources self;
     station := station self; cart_stats := cart_stats self;
     carts := carts self; market_prices := market_prices self;
     last_update := last_update self;
     last_price_update := last_price_update self;
     price_update_interval := price_update_interval self;
     price_history := price_history self;
     price_momentum := price_momentum self;
     resource_selling_enabled := resource_selling_enabled self;
     clock_reads := clock_reads self; random_reads := v |}.

(** [time.time()], [random.random()] and [random.uniform(a, b)], which is
    [a + (b - a) * random()]. *)
Definition time_time (w : World) (self : t) : Q * t :=
  (clock w (clock_reads self), set_clock_reads self (S (clock_reads self))).

Definition random_random (w : World) (self : t) : Q * t :=
  (random w (random_reads self), set_random_reads self (S (random_reads self))).

Definition random_uniform (w : World) (self : t) (a b : Q) : Q * t :=
  let (u, self) := random_random w self in
  (a + (b - a) * u, self).

(** [a // b] on numbers. *)
Definition floordiv (a b : Q) : Q := inject_Z (Qfloor (a / b)).

(** [a / b], which raises on a zero divisor. *)
Definition truediv (a b : Q) : result Q :=
  if Num.eqb b 0 then Raise ZeroDivisionError else Ok (a / b).

(** [__init__] *)
Definition init (w : World) : t :=
  let station_pos0 := (floordiv SCREEN_WIDTH 2, floordiv SCREEN_HEIGHT 2) in
  let resources0 :=
    [("iron"%string, {| Resource.name := "Iron"; Resource.base_value := 10;
                        Resource.rarity := 0.8 |});
     ("copper"%string, {| Resource.name := "Copper"; Resource.base_value := 15;
                          Resource.rarity := 0.6 |});
     ("gold"%string, {| Resource.name := "Gold"; Resource.base_value := 50;
                        Resource.rarity := 0.2 |})] in
  let cart_stats0 :=
    [("capacity"%string, 50); ("speed"%string, 100); ("mining"%string, 3)] in
  let market_prices0 :=
    map (fun kv => (fst kv, Resource.base_value (snd kv))) resources0 in
  {| mine_pos := (100, floordiv SCREEN_HEIGHT 2);
     station_pos := station_pos0;
     market_pos := (SCREEN_WIDTH - 100, floordiv SCREEN_HEIGHT 2);
     resources := resources0;
     station := Station.init (fst station_pos0) (snd station_pos0);
     cart_stats := cart_stats0;
     carts :=
       [ {| Cart.x := fst station_pos0; Cart.y := snd station_pos0;
            Cart.capacity := Dict.get_default cart_stats0 "capacity" 0;
            Cart.speed := Dict.get_default cart_stats0 "speed" 0;
            Cart.mining_speed := Dict.get_default cart_stats0 "mining" 0;
            Cart.contents := [];
            Cart.cart_type := "mining"; Cart.state := "mining" |} ];
     market_prices := market_prices0;
     last_update := clock w 0;
     last_price_update := clock w 1;
     price_update_interval := 5;
     price_history :=
       map (fun kv => (fst kv, repeat (snd kv) PRICE_HISTORY_LENGTH))
           market_prices0;
     price_momentum := map (fun kv => (fst kv, 0)) resources0;
     resource_selling_enabled := map (fun kv => (fst kv, true)) resources0;
     clock_reads := 2;
     random_reads := 0 |}.

(** [l.pop(0)] leaves the tail and raises on an empty list. *)
Definition pop0 (l : list Q) : result (list Q) :=
  match l with
  | [] => Raise IndexError
  | _ :: rest => Ok rest
  end.

(** The body of [for resource in self.market_prices], for one resource. *)
Definition update_price (w : World) (resource : string) (self : t)
  : result t :=
  let (random_force, self) :=
    random_uniform w self (- PRICE_VOLATILITY) PRICE_VOLATILITY in
  let* momentum := Dict.lookup (price_momentum self) resource in
  let self :=
    set_price_momentum self
      (Dict.set (price_momentum self) resource
         (momentum * PRICE_MOMENTUM_FACTOR
          + random_force * (1 - PRICE_MOMENTUM_FACTOR))) in
  let* res := Dict.lookup (resources self) resource in
  let base_price := Resource.base_value res in
  let* current_price := Dict.lookup (market_prices self) resource in
  let* momentum' := Dict.lookup (price_momentum self) resource in
  let new_price := current_price * (1 + momentum') in
  let self :=
    set_market_prices self
      (Dict.set (market_prices self) resource
         (Num.max (base_price * 0.5) (Num.min (base_price * 2.0) new_price)))
  in
  let* history := Dict.lookup (price_history self) resource in
  let* popped := pop0 history in
  let self :=
    set_price_history self (Dict.set (price_history self) resource popped) in
  let* history' := Dict.lookup (price_history self) resource in
  let* price := Dict.lookup (market_prices self) resource in
  Ok (set_price_history self
        (Dict.set (price_history self) resource (history' ++ [price]))).

(** The loop assigns only to keys that are present, so it walks the keys it
    started with. *)
Fixpoint update_market_prices_loop (w : World) (ks : list string) (self : t)
  : result t :=
  match ks with
  | [] => Ok self
  | resource :: rest =>
      let* self := update_price w resource self in
      update_market_prices_loop w rest self
  end.

Definition update_market_prices (w : World) (self : t) : result t :=
  let (current_time, self) := time_time w self in
  if Num.geb (current_time - last_price_update self)
       (price_update_interval self)
  then
    let* self :=
      update_market_prices_loop w (Dict.keys (market_prices self)) self in
    Ok (set_last_price_update self current_time)
  else Ok self.

(** The body of [for resource_name, amount in cart.contents.items()]. Each
    key is assigned during its own turn only, after its amount was read, so
    the items seen are those of the dictionary at the start. *)
Fixpoint transfer_to_station_loop (its : list (string * Q)) (self : t)
  (cart : Cart.t) : t * Cart.t :=
  match its with
  | [] => (self, cart)
  | (resource_name, amount) :: rest =>
      let st := station self in
      let transfer_amount :=
        Num.min amount
          (Station.storage_capacity st
           - Num.sum (Dict.values (Station.storage st))) in
      if Num.gtb transfer_amount 0 then
        let self :=
          set_station self
            (Station.set_storage st
               (Dict.set (Station.storage st) resource_name
                  (Dict.get_default (Station.storage st) resource_name 0
                   + transfer_amount))) in
        let cart :=
          Cart.set_contents cart
            (Dict.set (Cart.contents cart) resource_name 0) in
        transfer_to_station_loop rest self cart
      else transfer_to_station_loop rest self cart
  end.

Definition transfer_to_station (self : t) (cart : Cart.t) : t * Cart.t :=
  transfer_to_station_loop (Dict.items (Cart.contents cart)) self cart.

(** The body of [for resource, amount in self.station.storage.items()];
    [break] ends the recursion. *)
Fixpoint load_from_station_loop (its : list (string * Q)) (self : t)
  (cart : Cart.t) (space_left : Q) (loaded_something : bool)
  : result (bool * t * Cart.t) :=
  match its with
  | [] => Ok (loaded_something, self, cart)
  | (resource, amount) :: rest =>
      let* enabled :=
        if Num.gtb amount 0
        then Dict.lookup (resource_selling_enabled self) resource
        else Ok false in
      let* (self, cart, space_left, loaded_something) :=
        if enabled : bool then
          let transfer_amount := Num.min amount space_left in
          let cart :=
            Cart.set_contents cart
              (Dict.set (Cart.contents cart) resource
                 (Dict.get_default (Cart.contents cart) resource 0
                  + transfer_amount)) in
          let st := station self in
          let* stored := Dict.lookup (Station.storage st) resource in
          let self :=
            set_station self
              (Station.set_storage st
                 (Dict.set (Station.storage st) resource
                    (stored - transfer_amount))) in
          Ok (self, cart, space_left - transfer_amount, true)
        else Ok (self, cart, space_left, loaded_something) in
      if Num.leb space_left 0 then Ok (loaded_something, self, cart)
      else load_from_station_loop rest self cart space_left loaded_something
  end.

Definition load_from_station (self : t) (cart : Cart.t)
  : result (bool * t * Cart.t) :=
  if Cart.is_full cart then Ok (false, self, cart)
  else
    let space_left := Cart.capacity cart - Cart.get_contents_amount cart in
    let loaded_something := false in
    load_from_station_loop (Dict.items (Station.storage (station self)))
      self cart space_left loaded_something.

(** The body of [for resource_name, amount in cart.contents.items()]. The
    product and the sum are exact here; [Binary64.sell_cart_resources_loop]
    rounds them as the program does. *)
Fixpoint sell_cart_resources_loop (its : list (string * Q)) (self : t)
  (cart : Cart.t) : result (t * Cart.t) :=
  match its with
  | [] => Ok (self, cart)
  | (resource_name, amount) :: rest =>
      if Num.gtb amount 0 then
        let* price := Dict.lookup (market_prices self) resource_name in
        let sale_price := price * amount in
        let st := station self in
        let self :=
          set_station self
            (Station.set_money st (Station.money st + sale_price)) in
        let cart :=
          Cart.set_contents cart
            (Dict.set (Cart.contents cart) resource_name 0) in
        sell_cart_resources_loop rest self cart
      else sell_cart_resources_loop rest self cart
  end.

Definition sell_cart_resources (self : t) (cart : Cart.t)
  : result (t * Cart.t) :=
  sell_cart_resources_loop (Dict.items (Cart.contents cart)) self cart.

(** The two lines [cart.x += (dx / dist) * cart.speed * delta_time] and
    [cart.y += (dy / dist) * cart.speed * delta_time], which every branch
    of the two cart updates repeats. *)
Definition move_towards (cart : Cart.t) (dx dy dist delta_time : Q)
  : result Cart.t :=
  let* ux := truediv dx dist in
  let x' := Cart.x cart + ux * Cart.speed cart * delta_time in
  let* uy := truediv dy dist in
  let y' := Cart.y cart + uy * Cart.speed cart * delta_time in
  Ok (Cart.set_xy cart x' y').

(** [(dx**2 + dy**2) ** 0.5] *)
Definition distance (w : World) (dx dy : Q) : Q :=
  pow_half w (dx ^ 2 + dy ^ 2).

(** The body of [for resource_name, resource in self.resources.items()]. *)
Fixpoint mining_loop (w : World) (its : list (string * Resource.t))
  (self : t) (cart : Cart.t) (delta_time : Q) : t * Cart.t :=
  match its with
  | [] => (self, cart)
  | (resource_name, resource) :: rest =>
      let (u, self) := random_random w self in
      if Num.ltb u
           (Resource.rarity resource * Cart.mining_speed cart * delta_time * 2)
      then
        let cart :=
          Cart.set_contents cart
            (Dict.set (Cart.contents cart) resource_name
               (Dict.get_default (Cart.contents cart) resource_name 0 + 1)) in
        mining_loop w rest self cart delta_time
      else mining_loop w rest self cart delta_time
  end.

Definition update_mining_cart (w : World) (self : t) (cart : Cart.t)
  (vertical_offset delta_time : Q) : result (t * Cart.t) :=
  if String.eqb (Cart.state cart) "mining" then
    let dx := fst (mine_pos self) - Cart.x cart in
    let dy := snd (mine_pos self) - Cart.y cart + vertical_offset in
    let dist := distance w dx dy in
    if Num.ltb dist POSITION_TOLERANCE then
      let (self, cart) :=
        if negb (Cart.is_full cart)
        then mining_loop w (Dict.items (resources self)) self cart delta_time
        else (self, cart) in
      if Cart.is_full cart then
        let cart := Cart.set_state cart "returning" in
        Ok (self,
            Cart.set_xy cart (fst (mine_pos self))
              (snd (mine_pos self) + vertical_offset))
      else Ok (self, cart)
    else
      let* cart := move_towards cart dx dy dist delta_time in
      Ok (self, cart)
  else if String.eqb (Cart.state cart) "returning" then
    let dx := fst (station_pos self) - Cart.x cart in
    let dy := snd (station_pos self) - Cart.y cart + vertical_offset in
    let dist := distance w dx dy in
    if Num.ltb dist POSITION_TOLERANCE then
      let (self, cart) := transfer_to_station self cart in
      let cart := Cart.set_state cart "mining" in
      Ok (self,
          Cart.set_xy cart (fst (station_pos self))
            (snd (station_pos self) + vertical_offset))
    else
      let* cart := move_towards cart dx dy dist delta_time in
      Ok (self, cart)
  else Ok (self, cart).

Definition update_market_cart (w : World) (self : t) (cart : Cart.t)
  (vertical_offset delta_time : Q) : result (t * Cart.t) :=
  if String.eqb (Cart.state cart) "loading" then
    let dx := fst (station_pos self) - Cart.x cart in
    let dy := snd (station_pos self) - Cart.y cart + vertical_offset in
    let dist := distance w dx dy in
    if Num.ltb dist POSITION_TOLERANCE then
      let* (loaded, self, cart) := load_from_station self cart in
      if loaded : bool then
        let cart := Cart.set_state cart "selling" in
        Ok (self,
            Cart.set_xy cart (fst (station_pos self))
              (snd (station_pos self) + vertical_offset))
      else Ok (self, cart)
    else
      let* cart := move_towards cart dx dy dist delta_time in
      Ok (self, cart)
  else if String.eqb (Cart.state cart) "selling" then
    let dx := fst (market_pos self) - Cart.x cart in
    let dy := snd (market_pos self) - Cart.y cart + vertical_offset in
    let dist := distance w dx dy in
    if Num.ltb dist POSITION_TOLERANCE then
      let* (self, cart) := sell_cart_resources self cart in
      let cart := Cart.set_state cart "loading" in
      Ok (self,
          Cart.set_xy cart (fst (market_pos self))
            (snd (market_pos self) + vertical_offset))
    else
      let* cart := move_towards cart dx dy dist delta_time in
      Ok (self, cart)
  else Ok (self, cart).

(** [l[i] = v] for an index in range. *)
Fixpoint list_set {A : Type} (l : list A) (i : nat) (v : A) : list A :=
  match l, i with
  | [], _ => []
  | _ :: rest, O => v :: rest
  | a :: rest, S j => a :: list_set rest j v
  end.

(** The body of [for i, cart in enumerate(self.carts)]: [todo] are the carts
    still to visit, the first of them at index [i]. *)
Fixpoint update_carts_loop (w : World) (todo : list Cart.t) (i : nat)
  (self : t) (delta_time : Q) : result t :=
  match todo with
  | [] => Ok self
  | cart :: rest =>
      let vertical_offset := inject_Z (Z.of_nat i) * 5 in
      let* (self, cart) :=
        if String.eqb (Cart.cart_type cart) "mining"
        then update_mining_cart w self cart vertical_offset delta_time
        else update_market_cart w self cart vertical_offset delta_time in
      let self := set_carts self (list_set (carts self) i cart) in
      update_carts_loop w rest (S i) self delta_time
  end.

Definition update (w : World) (self : t) : result t :=
  let (current_time, self) := time_time w self in
  let delta_time := current_time - last_update self in
  let self := set_last_update self current_time in
  let* self := update_market_prices w self in
  update_carts_loop w (carts self) 0 self delta_time.

Definition add_cart (self : t) (cart_type : string) : result (bool * t) :=
  let cart_cost := 500 in
  if Num.geb (Station.money (station self)) cart_cost then
    let self :=
      set_station self
        (Station.set_money (station self)
           (Station.money (station self) - cart_cost)) in
    let* capacity := Dict.lookup (cart_stats self) "capacity" in
    let* speed := Dict.lookup (cart_stats self) "speed" in
    let* mining_speed := Dict.lookup (cart_stats self) "mining" in
    let cart :=
      {| Cart.x := fst (station_pos self); Cart.y := snd (station_pos self);
         Cart.capacity := capacity; Cart.speed := speed;
         Cart.mining_speed := mining_speed; Cart.contents := [];
         Cart.cart_type := cart_type;
         Cart.state :=
           if String.eqb cart_type "mining" then "mining"%string
           else "loading"%string |} in
    Ok (true, set_carts self (carts self ++ [cart]))
  else Ok (false, self).

(** [f] applied to the first element that satisfies [p]: the element
    [[c for c in l if p(c)][0]] of the list, changed in place. *)
Fixpoint update_first {A : Type} (p : A -> bool) (f : A -> A) (l : list A)
  : list A :=
  match l with
  | [] => []
  | a :: rest => if p a then f a :: rest else a :: update_first p f rest
  end.

Definition convert_to_mining (self : t) : t :=
  set_carts self
    (update_first (fun cart => String.eqb (Cart.cart_type cart) "market")
       (fun cart =>
          Cart.set_contents
            (Cart.set_state (Cart.set_cart_type cart "mining") "mining") [])
       (carts self)).

Definition convert_to_market (self : t) : t :=
  set_carts self
    (update_first (fun cart => String.eqb (Cart.cart_type cart) "mining")
       (fun cart =>
          Cart.set_contents
            (Cart.set_state (Cart.set_cart_type cart "market") "loading") [])
       (carts self)).

(** The body of [for cart in self.carts] in [upgrade]. *)
Definition upgrade_cart (upgrade_type : string) (new_value : Q)
  (cart : Cart.t) : Cart.t :=
  if String.eqb upgrade_type "capacity"
  then Cart.set_capacity cart (Num.int new_value)
  else if String.eqb upgrade_type "speed"
  then Cart.set_speed cart new_value
  else if String.eqb upgrade_type "mining"
  then Cart.set_mining_speed cart new_value
  else cart.

Definition upgrade (self : t) (upgrade_type : string) : result (bool * t) :=
  match Dict.get (Station.upgrade_costs (station self)) upgrade_type with
  | None => Ok (false, self)
  | Some cost =>
      if Num.geb (Station.money (station self)) cost then
        let self :=
          set_station self
            (Station.set_money (station self)
               (Station.money (station self) - cost)) in
        let* multiplier :=
          Dict.lookup (Station.upgrade_multipliers (station self))
            upgrade_type in
        let* self :=
          if Dict.mem (cart_stats self) upgrade_type then
            let* old_value := Dict.lookup (cart_stats self) upgrade_type in
            let new_value := old_value * multiplier in
            let self :=
              set_cart_stats self
                (Dict.set (cart_stats self) upgrade_type new_value) in
            Ok (set_carts self
                  (map (upgrade_cart upgrade_type new_value) (carts self)))
          else Ok self in
        let self :=
          set_station self
            (Station.set_upgrade_costs (station self)
               (Dict.set (Station.upgrade_costs (station self)) upgrade_type
                  (Num.int (cost * 1.5)))) in
        Ok (true, self)
      else Ok (false, self)
  end.

(** The resource toggle of the event loop:
    [self.resource_selling_enabled[resource] =
     not self.resource_selling_enabled[resource]]. *)
Definition toggle_resource (self : t) (resource : string) : result t :=
  let* enabled := Dict.lookup (resource_selling_enabled self) resource in
  Ok (set_resource_selling_enabled self
        (Dict.set (resource_selling_enabled self) resource (negb enabled))).

(** The event loop of [run]: a mouse click lands on one button at most (the
    buttons do not overlap), and every frame ends with [update]. The drawing
    pass does not touch the simulation state. An [action] is one click or one
    [update]; [play] is the state after a finite run of them. *)
Inductive button : Type :=
| new_mining_cart
| new_market_cart
| convert_to_mining_button
| convert_to_market_button
| upgrade_capacity
| upgrade_speed
| upgrade_mining
| toggle (resource : string).

Inductive action : Type :=
| Click (b : button)
| Tick.

Definition drop_flag (r : result (bool * t)) : result t :=
  let* (_, self) := r in Ok self.

Definition on_click (self : t) (b : button) : result t :=
  match b with
  | new_mining_cart => drop_flag (add_cart self "mining")
  | new_market_cart => drop_flag (add_cart self "market")
  | convert_to_mining_button => Ok (convert_to_mining self)
  | convert_to_market_button => Ok (convert_to_market self)
  | upgrade_capacity => drop_flag (upgrade self "capacity")
  | upgrade_speed => drop_flag (upgrade self "speed")
  | upgrade_mining => drop_flag (upgrade self "mining")
  | toggle resource =>
      if Dict.mem (resources self) resource
      then toggle_resource self resource
      else Ok self
  end.

Definition act (w : World) (self : t) (a : action) : result t :=
  match a with
  | Click b => on_click self b
  | Tick => update w self
  end.

Fixpoint play_from (w : World) (self : t) (l : list action) : result t :=
  match l with
  | [] => Ok self
  | a :: rest => let* self := act w self a in play_from w self rest
  end.

Definition play (w : World) (l : list action) : result t :=
  play_from w (init w) l.

End MiningGame.


(** ** The drawing pass

    Of [draw_gradient_rect] and [draw_price_graph], the values handed to
    pygame are kept: the lines of the gradient with their colours, and the
    points of the price line. *)

Module Draw.

Import MiningGame.

Definition PRICE_GRAPH_WIDTH : Q := 180.
Definition PRICE_GRAPH_HEIGHT : Q := 100.





(** The outcome of a call that can also fail with the [ValueError] of
    [min()] and [max()] on an empty list. *)
Inductive outcome (A : Type) : Type :=
| Returns (a : A)
| Raises (e : exn)
| RaisesValueError.

Arguments Returns {A} a.
Arguments Raises {A} e.
Arguments RaisesValueError {A}.

(** [min(l)] and [max(l)]: the first of the smallest (largest) elements;
    [None] stands for the [ValueError]. *)
Definition min_of (l : list Q) : option Q :=
  match l with
  | [] => None
  | a :: rest => Some (fold_left Num.min rest a)
  end.

Definition max_of (l : list Q) : option Q :=
  match l with
  | [] => None
  | a :: rest => Some (fold_left Num.max rest a)
  end.

(** The body of [for i, price in enumerate(prices)]. *)
Fixpoint graph_points (x y min_price price_range : Q) (i : nat)
  (prices : list Q) : result (list (Q * Q)) :=
  match prices with
  | [] => Ok []
  | price :: rest =>
      let point_x :=
        x + floordiv (inject_Z (Z.of_nat i) * PRICE_GRAPH_WIDTH)
              (inject_Z (Z.of_nat PRICE_HISTORY_LENGTH)) in
      let* ratio := truediv (price - min_price) price_range in
      let point_y :=
        y + PRICE_GRAPH_HEIGHT - Num.int (ratio * PRICE_GRAPH_HEIGHT) in
      let* points := graph_points x y min_price price_range (S i) rest in
      Ok ((point_x, point_y) :: points)
  end.

(** The points of the price line; the line is drawn, in the colour of the
    resource, when there are two points at least. *)
Definition draw_price_graph (self : MiningGame.t) (x y : Q)
  (resource : string) : outcome (list (Q * Q)) :=
  match Dict.get (price_history self) resource with
  | None => Raises (KeyError resource)
  | Some prices =>
      match min_of prices, max_of prices with
      | Some min_price, Some max_price =>
          let price_range :=
            if Num.eqb (max_price - min_price) 0 then 1
            else max_price - min_price in
          match graph_points x y min_price price_range 0 prices with
          | Raise e => Raises e
          | Ok points =>
              if (1 <? List.length points)%nat then
                match Dict.get (resources self) resource with
                | None => Raises (KeyError resource)
                | Some _ => Returns points
                end
              else Returns points
          end
      | _, _ => RaisesValueError
      end
  end.

End Draw.

(** ** The sale at the precision of the machine

    [sell_cart_resources] once more, on the numbers of the program instead
    of their exact values: the prices and the money are binary64 floats, and
    [*] and [+=] round to the nearest float as they do in Python. An [int]
    that meets a float (an amount of the cart, the 1000 of a new station) is
    first converted to the float of the same value, and is that float here.
    Of the game, the sale reads [self.market_prices] and updates
    [self.station.money]; of the cart, its contents. *)

Module Binary64.

Record t : Type := {
  market_prices : Dict.t float;
  money : float
}.

Definition set_money (self : t) (v : float) : t :=
  {| market_prices := market_prices self; money := v |}.

(** The body of [for resource_name, amount in cart.contents.items()]. *)
Fixpoint sell_cart_resources_loop (its : list (string * float)) (self : t)
  (contents : Dict.t float) : result (t * Dict.t float) :=
  match its with
  | [] => Ok (self, contents)
  | (resource_name, amount) :: rest =>
      if PrimFloat.ltb 0 amount then
        let* price := Dict.lookup (market_prices self) resource_name in
        let sale_price := PrimFloat.mul price amount in
        let self :=
          set_money self (PrimFloat.add (money self) sale_price) in
        let contents := Dict.set contents resource_name 0%float in
        sell_cart_resources_loop rest self contents
      else sell_cart_resources_loop rest self contents
  end.

Definition sell_cart_resources (self : t) (contents : Dict.t float)
  : result (t * Dict.t float) :=
  sell_cart_resources_loop (Dict.items contents) self contents.


End Binary64.
(** * States and measures used in the statements *)

Import MiningGame.

(** The units of resource [r] held by a cart and by the station together. *)
Definition units_of (r : string) (self : MiningGame.t) (cart : Cart.t) : Q :=
  Dict.get_default (Cart.contents cart) r 0
  + Dict.get_default (Station.storage (station self)) r 0.

(** A returning cart that carries ten units of iron. *)
Definition cart_with_iron : Cart.t :=
  {| Cart.x := 720; Cart.y := 450; Cart.capacity := 50; Cart.speed := 100;
     Cart.mining_speed := 3; Cart.contents := [("iron"%string, 10)];
     Cart.cart_type := "mining"; Cart.state := "returning" |}.

(** The new game with the station three units short of its capacity. *)
Definition nearly_full_station (w : World) : MiningGame.t :=
  set_station (init w)
    (Station.set_storage (station (init w))
       [("iron"%string, 997); ("copper"%string, 0); ("gold"%string, 0)]).

(** A world whose clock stands still and whose random draws are all [0]. *)
Definition still_world : World :=
  {| clock := fun _ => 0; random := fun _ => 0; pow_half := fun v => v |}.

(** The new game with an empty purse. *)
Definition broke_game : MiningGame.t :=
  set_station (init still_world)
    (Station.set_money (station (init still_world)) 0).

(** The sale as the specification words it: for each resource with a
    positive amount in the cart, [price[resource] * amount] is earned ... *)
Fixpoint sale_value (prices : Dict.t Q) (its : list (string * Q)) : Q :=
  match its with
  | [] => 0
  | (r, amount) :: rest =>
      (if Num.gtb amount 0 then Dict.get_default prices r 0 * amount else 0)
      + sale_value prices rest
  end.

(** ... and that resource is zeroed in the cart. *)
Definition sold_out (its : list (string * Q)) : list (string * Q) :=
  map (fun kv => (fst kv, if Num.gtb (snd kv) 0 then 0 else snd kv)) its.

(** The withdrawal as the specification words it: for each resource with
    positive station stock and whose sale is enabled, move
    [min(station_amount, remaining_cart_space)] units, and stop once the cart
    space is exhausted. The result lists the amounts moved, in order. *)
Fixpoint withdrawal (enabled : Dict.t bool) (stock : list (string * Q))
  (space : Q) : list (string * Q) :=
  match stock with
  | [] => []
  | (r, amount) :: rest =>
      if Num.leb space 0 then []
      else if Num.gtb amount 0 && Dict.get_default enabled r false then
        (r, Num.min amount space)
        :: withdrawal enabled rest (space - Num.min amount space)
      else withdrawal enabled rest space
  end.

Definition nonempty {A : Type} (l : list A) : bool :=
  match l with
  | [] => false
  | _ :: _ => true
  end.

(** [moved_as plan storage contents storage' contents']: going from
    [storage] and [contents] to [storage'] and [contents'], every amount of
    the plan left the station for the cart and no other entry changed. *)
Definition moved_as (plan : list (string * Q))
  (storage contents storage' contents' : Dict.t Q) : Prop :=
  forall r,
    match Dict.get plan r with
    | Some q =>
        (exists amount,
            Dict.get storage r = Some amount
            /\ Dict.get storage' r = Some (amount - q))
        /\ Dict.get contents' r = Some (Dict.get_default contents r 0 + q)
    | None =>
        Dict.get storage' r = Dict.get storage r
        /\ Dict.get contents' r = Dict.get contents r
    end.

(** A market cart with room for five units, and a station that holds iron,
    copper and gold while the sale of copper is switched off. *)
Definition roomy_cart : Cart.t :=
  {| Cart.x := 720; Cart.y := 450; Cart.capacity := 50; Cart.speed := 100;
     Cart.mining_speed := 3; Cart.contents := [("gold"%string, 45)];
     Cart.cart_type := "market"; Cart.state := "loading" |}.

Definition stocked_game : MiningGame.t :=
  set_resource_selling_enabled
    (set_station (init still_world)
       (Station.set_storage (station (init still_world))
          [("iron"%string, 3); ("copper"%string, 7); ("gold"%string, 9)]))
    [("iron"%string, true); ("copper"%string, false); ("gold"%string, true)].

(** [approaches w outcome self cart target vertical_offset delta_time]: the
    outcome of a cart update whose branch heads for [target]. Within the
    tolerance the cart is treated as arrived: it stays where it is or is
    snapped onto the target, and no quotient is formed. Otherwise the
    distance is at least the tolerance and the one thing that happens is the
    step along the normalised direction. *)
Definition approaches (w : World) (outcome : result (MiningGame.t * Cart.t))
  (self : MiningGame.t) (cart : Cart.t) (target : Q * Q)
  (vertical_offset delta_time : Q) : Prop :=
  let dx := fst target - Cart.x cart in
  let dy := snd target - Cart.y cart + vertical_offset in
  let dist := distance w dx dy in
  (dist < POSITION_TOLERANCE ->
   forall self' cart',
     outcome = Ok (self', cart') ->
     (Cart.x cart', Cart.y cart') = (Cart.x cart, Cart.y cart)
     \/ (Cart.x cart', Cart.y cart')
        = (fst target, snd target + vertical_offset))
  /\ (~ dist < POSITION_TOLERANCE ->
      POSITION_TOLERANCE <= dist
      /\ outcome
         = Ok (self,
               Cart.set_xy cart
                 (Cart.x cart + dx / dist * Cart.speed cart * delta_time)
                 (Cart.y cart + dy / dist * Cart.speed cart * delta_time))).

(** A mining cart that stands exactly on the mine. *)
Definition cart_on_mine : Cart.t :=
  {| Cart.x := 100; Cart.y := 450; Cart.capacity := 50; Cart.speed := 100;
     Cart.mining_speed := 3; Cart.contents := [];
     Cart.cart_type := "mining"; Cart.state := "mining" |}.

(** An outcome other than the exception of a division by zero. *)
Definition division_free {A : Type} (r : result A) : Prop :=
  r <> Raise ZeroDivisionError.

(** ** The invariant of the game *)

(** The names of the three resources. *)
Definition resource_names : list string :=
  Dict.keys (resources (init still_world)).

Definition nonneg (d : Dict.t Q) : Prop :=
  Forall (fun kv => 0 <= snd kv) d.

(** [sum(d.values())] *)
Definition total (d : Dict.t Q) : Q := Num.sum (Dict.values d).

(** A number whose value is an integer, whether an [int] or a [float]. *)
Definition whole (v : Q) : Prop := exists z : Z, v == inject_Z z.

Definition whole_amounts (d : Dict.t Q) : Prop :=
  Forall (fun kv => whole (snd kv)) d.

(** A cart of a game whose global capacity stat is [cap_stat]. *)
Record cart_ok (cap_stat : Q) (cart : Cart.t) : Prop := {
  ok_type :
    Cart.cart_type cart = "mining"%string
    \/ Cart.cart_type cart = "market"%string;
  ok_capacity : 50 <= Cart.capacity cart /\ Cart.capacity cart <= cap_stat;
  ok_keys : incl (Dict.keys (Cart.contents cart)) resource_names;
  ok_nodup : NoDup (Dict.keys (Cart.contents cart));
  ok_nonneg : nonneg (Cart.contents cart);
  ok_total : total (Cart.contents cart) < Cart.capacity cart + 3;
  ok_market :
    Cart.cart_type cart = "market"%string ->
    total (Cart.contents cart) <= Cart.capacity cart;
  ok_whole :
    Cart.cart_type cart = "mining"%string ->
    whole_amounts (Cart.contents cart)
}.

Record station_ok (st : Station.t) : Prop := {
  ok_storage_keys : Dict.keys (Station.storage st) = resource_names;
  ok_storage_nonneg : nonneg (Station.storage st);
  ok_multipliers :
    Station.upgrade_multipliers st
    = Station.upgrade_multipliers (Station.init 0 0);
  ok_costs_keys :
    Dict.keys (Station.upgrade_costs st)
    = Dict.keys (Station.upgrade_costs (Station.init 0 0))
}.

(** The station, the global stats and the carts. *)
Record fleet_ok (self : MiningGame.t) : Prop := {
  ok_resources : resources self = resources (init still_world);
  ok_prices_keys : Dict.keys (market_prices self) = resource_names;
  ok_enabled_keys :
    Dict.keys (resource_selling_enabled self) = resource_names;
  ok_station : station_ok (station self);
  ok_stats_keys :
    Dict.keys (cart_stats self) = Dict.keys (cart_stats (init still_world));
  ok_carts :
    exists cap_stat,
      Dict.get (cart_stats self) "capacity" = Some cap_stat
      /\ 50 <= cap_stat
      /\ Forall (cart_ok cap_stat) (carts self)
}.

(** The price of a resource lies between half and twice its base value. *)
Definition price_within_bounds (res : Resource.t) (price : Q) : Prop :=
  Resource.base_value res * 0.5 <= price
  /\ price <= Resource.base_value res * 2.

(** The market: prices, momentum and history. *)
Record market_ok (self : MiningGame.t) : Prop := {
  ok_momentum_keys : Dict.keys (price_momentum self) = resource_names;
  ok_history_keys : Dict.keys (price_history self) = resource_names;
  ok_history_length :
    forall r h,
      Dict.get (price_history self) r = Some h ->
      List.length h = PRICE_HISTORY_LENGTH;
  ok_price_bounds :
    forall r res price,
      Dict.get (resources self) r = Some res ->
      Dict.get (market_prices self) r = Some price ->
      price_within_bounds res price
}.

Definition game_ok (self : MiningGame.t) : Prop :=
  fleet_ok self /\ market_ok self.

(** The part of the game that a cart update can change: the station and the
    number of random draws. *)
Definition cart_update_frame (self self' : MiningGame.t) : Prop :=
  self' = set_random_reads (set_station self (station self'))
            (random_reads self').

(** [fifo_update ks self self']: from [self] to [self'], the history of
    every resource of [ks] lost its oldest entry and received the
    resource's new current price at the end, and the other histories were
    left as they were. *)
Definition fifo_update (ks : list string) (self self' : MiningGame.t)
  : Prop :=
  forall r h,
    Dict.get (price_history self) r = Some h ->
    (In r ks ->
     exists price,
       Dict.get (market_prices self') r = Some price
       /\ Dict.get (price_history self') r = Some (tl h ++ [price]))
    /\ (~ In r ks ->
        Dict.get (market_prices self') r = Dict.get (market_prices self) r
        /\ Dict.get (price_history self') r = Some h).

(** One frame at 60 frames per second. *)
Definition one_frame : Q := 1 # 60.

(** A mining cart on the mine, one unit short of its capacity. *)
Definition almost_full_cart : Cart.t :=
  {| Cart.x := 100; Cart.y := 450; Cart.capacity := 50; Cart.speed := 100;
     Cart.mining_speed := 3; Cart.contents := [("iron"%string, 49)];
     Cart.cart_type := "mining"; Cart.state := "mining" |}.

(** The new game with 3000 in the purse. *)
Definition rich_game : MiningGame.t :=
  set_station (init still_world)
    (Station.set_money (station (init still_world)) 3000).

(** [cart], moved onto the mine spot of the second cart of the list (whose
    vertical offset is 5) with 112 units of iron on board. *)
Definition loaded_on_mine (cart : Cart.t) : Cart.t :=
  Cart.set_xy (Cart.set_contents cart [("iron"%string, 112)]) 100 455.

(** A world whose clock advances by ten seconds at every reading. *)
Definition ticking_world : World :=
  {| clock := fun n => inject_Z (Z.of_nat n) * 10;
     random := fun _ => 0;
     pow_half := fun v => v |}.

(** [c] is [int(v)]: the whole number next to [v] on the side of zero. *)
Definition integer_part (v c : Q) : Prop :=
  whole c
  /\ (0 <= v -> c <= v /\ v < c + 1)
  /\ (v <= 0 -> v <= c /\ c < v + 1).

(** What a cart is apart from its capacity. *)
Definition but_capacity (cart : Cart.t)
  : Q * Q * Q * Q * Dict.t Q * string * string :=
  (Cart.x cart, Cart.y cart, Cart.speed cart, Cart.mining_speed cart,
   Cart.contents cart, Cart.cart_type cart, Cart.state cart).

(** The new game in which the history of iron counts from 1 to 50. *)
Definition counting : list Q :=
  map (fun n => inject_Z (Z.of_nat n)) (seq 1 PRICE_HISTORY_LENGTH).

Definition counted_game : MiningGame.t :=
  set_price_history (init ticking_world)
    (Dict.set (price_history (init ticking_world)) "iron" counting).

(** The price update is due at the next reading of the clock. *)
Definition price_update_due (w : World) (self : MiningGame.t) : bool :=
  Num.geb (clock w (clock_reads self) - last_price_update self)
    (price_update_interval self).

(** ** The sale in binary64 *)








(** ** Measures used by the further properties *)

(** Nothing in [storage] can be withdrawn: each amount is zero (or less) or
    belongs to a resource whose sale is switched off. *)
Definition nothing_sellable (enabled : Dict.t bool) (storage : Dict.t Q)
  : Prop :=
  Forall
    (fun kv => snd kv <= 0 \/ Dict.get enabled (fst kv) = Some false)
    storage.

(** The cart stands within the position tolerance of [target]. *)
Definition within_tolerance (w : World) (cart : Cart.t) (target : Q * Q)
  (vertical_offset : Q) : Prop :=
  distance w (fst target - Cart.x cart)
    (snd target - Cart.y cart + vertical_offset)
  < POSITION_TOLERANCE.

(** A loading market cart in front of the empty station of a new game. *)
Definition waiting_cart : Cart.t :=
  {| Cart.x := 720; Cart.y := 450; Cart.capacity := 50; Cart.speed := 100;
     Cart.mining_speed := 3; Cart.contents := [];
     Cart.cart_type := "market"; Cart.state := "loading" |}.

(** A mining cart on the mine with its 50 places taken. *)
Definition full_cart : Cart.t :=
  {| Cart.x := 100; Cart.y := 450; Cart.capacity := 50; Cart.speed := 100;
     Cart.mining_speed := 3;
     Cart.contents := [("iron"%string, 30); ("copper"%string, 20)];
     Cart.cart_type := "mining"; Cart.state := "mining" |}.

(** What no cart update changes in a cart: its role and its three stats. *)
Definition static_of (cart : Cart.t) : string * Q * Q * Q :=
  (Cart.cart_type cart, Cart.capacity cart, Cart.speed cart,
   Cart.mining_speed cart).

(** The part of the game that the price engine can change: momentum, prices,
    history and the number of random draws. *)
Definition price_frame (self self' : MiningGame.t) : Prop :=
  self' = set_price_history
            (set_market_prices
               (set_price_momentum
                  (set_random_reads self (random_reads self'))
                  (price_momentum self'))
               (market_prices self'))
            (price_history self').

(** The books of the game: the purse is not overdrawn, the station is not
    overfilled, and the carts run at the global speed and mining speed. *)
Record economy_ok (self : MiningGame.t) : Prop := {
  ok_money : 0 <= Station.money (station self);
  ok_stock :
    total (Station.storage (station self))
    <= Station.storage_capacity (station self);
  ok_capacity_fixed : Station.storage_capacity (station self) = 1000;
  ok_speeds :
    exists speed mining_speed,
      Dict.get (cart_stats self) "speed" = Some speed
      /\ Dict.get (cart_stats self) "mining" = Some mining_speed
      /\ Forall
           (fun cart =>
              Cart.speed cart = speed
              /\ Cart.mining_speed cart = mining_speed)
           (carts self)
}.

(** [cart'] is [cart] after a conversion to [role]: empty, in the state
    [st], and otherwise what it was. *)
Definition converted_from (cart cart' : Cart.t) (role st : string) : Prop :=
  Cart.cart_type cart' = role
  /\ Cart.state cart' = st
  /\ Cart.contents cart' = []
  /\ (Cart.x cart', Cart.y cart') = (Cart.x cart, Cart.y cart)
  /\ (Cart.capacity cart', Cart.speed cart', Cart.mining_speed cart')
     = (Cart.capacity cart, Cart.speed cart, Cart.mining_speed cart).

(** The new game with a market cart in front of the first mining cart (the
    purchase leaves 500 in the purse, convert the first cart, buy a mining
    cart after it). *)
Definition market_first : list Cart.t :=
  [ {| Cart.x := 720; Cart.y := 450; Cart.capacity := 50; Cart.speed := 100;
       Cart.mining_speed := 3; Cart.contents := [("gold"%string, 4)];
       Cart.cart_type := "market"; Cart.state := "selling" |};
    {| Cart.x := 300; Cart.y := 455; Cart.capacity := 50; Cart.speed := 100;
       Cart.mining_speed := 3; Cart.contents := [("iron"%string, 12)];
       Cart.cart_type := "mining"; Cart.state := "returning" |};
    {| Cart.x := 100; Cart.y := 460; Cart.capacity := 50; Cart.speed := 100;
       Cart.mining_speed := 3; Cart.contents := [];
       Cart.cart_type := "mining"; Cart.state := "mining" |} ].

(** The draws of [random.random()] lie in the unit interval. *)
Definition unit_draws (w : World) : Prop :=
  forall n, 0 <= random w n /\ random w n <= 1.

(** Every momentum lies within the volatility. *)
Definition within_volatility (v : Q) : Prop :=
  - PRICE_VOLATILITY <= v /\ v <= PRICE_VOLATILITY.

Definition calm (self : MiningGame.t) : Prop :=
  Forall (fun kv => within_volatility (snd kv)) (price_momentum self).

(** [price'] differs from [price] by the fraction [PRICE_VOLATILITY] of
    [price] at most. *)
Definition swing (price price' : Q) : Prop :=
  price * (1 - PRICE_VOLATILITY) <= price'
  /\ price' <= price * (1 + PRICE_VOLATILITY).

(** A world whose draws alternate between the two ends of the unit
    interval. *)
Definition swaying_world : World :=
  {| clock := fun n => inject_Z (Z.of_nat n) * 10;
     random := fun n => if Nat.even n then 1 else 0;
     pow_half := fun v => v |}.

(** ** The drawing pass *)





(** The point lies in the rectangle of the price graph whose corner is
    [(x, y)]. *)
Definition in_graph (x y : Q) (p : Q * Q) : Prop :=
  (x <= fst p /\ fst p < x + Draw.PRICE_GRAPH_WIDTH)
  /\ (y <= snd p /\ snd p <= y + Draw.PRICE_GRAPH_HEIGHT).

(** * Properties *)

(** Projections of updated records. *)
Ltac project :=
  cbn [mine_pos station_pos market_pos resources station cart_stats carts
       market_prices last_update last_price_update price_update_interval
       price_history price_momentum resource_selling_enabled clock_reads
       random_reads
       set_station set_cart_stats set_carts set_market_prices set_last_update
       set_last_price_update set_price_history set_price_momentum
       set_resource_selling_enabled set_clock_reads set_random_reads
       Station.x Station.y Station.storage Station.processing_speed
       Station.storage_capacity Station.money Station.upgrade_costs
       Station.upgrade_multipliers Station.set_storage Station.set_money
       Station.set_upgrade_costs
       Cart.x Cart.y Cart.capacity Cart.speed Cart.mining_speed Cart.contents
       Cart.cart_type Cart.state Cart.set_contents Cart.set_state
       Cart.set_cart_type Cart.set_xy Cart.set_capacity Cart.set_speed
       Cart.set_mining_speed] in *.

(** ** Transfer of a mining cart's load to the station *)

(** C1 (fails on the code). With three free places in the station and ten
    units of iron in the cart, [transfer_to_station] stores three units and
    sets the cart's iron to zero: seven units are lost, so the total of iron
    over cart and station is not conserved. *)
Theorem transfer_to_station_loses_overflow (w : World) :
  let (self', cart') :=
    transfer_to_station (nearly_full_station w) cart_with_iron in
  Cart.contents cart' = [("iron"%string, 0)]
  /\ Station.storage (station self')
     = [("iron"%string, 1000); ("copper"%string, 0); ("gold"%string, 0)]
  /\ units_of "iron" (nearly_full_station w) cart_with_iron == 1007
  /\ units_of "iron" self' cart' == 1000.
Proof.
  cbv. repeat split; reflexivity.
Qed.

(** ** Facts about numbers *)

Section NumFacts.

Lemma ltb_lt a b : Num.ltb a b = true <-> a < b.
Proof.
  unfold Num.ltb. rewrite negb_true_iff. split; intro H.
  - apply Qnot_le_lt. intro Hle. apply Qle_bool_iff in Hle. congruence.
  - destruct (Qle_bool b a) eqn:E; trivial.
    apply Qle_bool_iff in E. lra.
Qed.

Lemma ltb_ge a b : Num.ltb a b = false <-> b <= a.
Proof. unfold Num.ltb. rewrite negb_false_iff. apply Qle_bool_iff. Qed.

Lemma gtb_gt a b : Num.gtb a b = true <-> b < a.
Proof. apply ltb_lt. Qed.

Lemma gtb_le a b : Num.gtb a b = false <-> a <= b.
Proof. apply ltb_ge. Qed.

Lemma leb_le a b : Num.leb a b = true <-> a <= b.
Proof. apply Qle_bool_iff. Qed.

Lemma leb_gt a b : Num.leb a b = false <-> b < a.
Proof.
  unfold Num.leb. split; intro H.
  - apply Qnot_le_lt. intro Hle. apply Qle_bool_iff in Hle. congruence.
  - destruct (Qle_bool a b) eqn:E; trivial.
    apply Qle_bool_iff in E. lra.
Qed.

Lemma geb_ge a b : Num.geb a b = true <-> b <= a.
Proof. apply leb_le. Qed.

Lemma geb_lt a b : Num.geb a b = false <-> a < b.
Proof. apply leb_gt. Qed.

Lemma eqb_eq a b : Num.eqb a b = true <-> a == b.
Proof. apply Qeq_bool_iff. Qed.

Lemma eqb_neq a b : Num.eqb a b = false <-> ~ a == b.
Proof.
  unfold Num.eqb. split; intro H.
  - now apply Qeq_bool_neq.
  - destruct (Qeq_bool a b) eqn:E; trivial.
    apply Qeq_bool_iff in E. contradiction.
Qed.

Lemma min_le_l a b : Num.min a b <= a.
Proof.
  unfold Num.min. destruct (Num.ltb b a) eqn:E.
  - apply ltb_lt in E. lra.
  - lra.
Qed.

Lemma min_le_r a b : Num.min a b <= b.
Proof.
  unfold Num.min. destruct (Num.ltb b a) eqn:E.
  - lra.
  - apply ltb_ge in E. lra.
Qed.

Lemma min_pos a b : 0 < a -> 0 < b -> 0 < Num.min a b.
Proof. unfold Num.min. destruct (Num.ltb b a); trivial. Qed.

Lemma max_min_bounds lo hi v : lo <= hi ->
  lo <= Num.max lo (Num.min hi v) /\ Num.max lo (Num.min hi v) <= hi.
Proof.
  intro H. unfold Num.max. destruct (Num.gtb (Num.min hi v) lo) eqn:E.
  - apply gtb_gt in E. split; [lra | apply min_le_l].
  - split; lra.
Qed.

(** [int] does not depend on the fraction that represents the number. *)
Lemma int_compat x y : x == y -> Num.int x = Num.int y.
Proof.
  destruct x as [a b], y as [c d]. unfold Qeq, Num.int. simpl. intro H.
  f_equal.
  rewrite <- (Z.quot_mul_cancel_r a (Zpos b) (Zpos d)) by lia.
  rewrite H.
  rewrite (Z.mul_comm (Zpos b) (Zpos d)).
  apply Z.quot_mul_cancel_r; lia.
Qed.

Lemma sum_from (l : list Q) (a : Q) : fold_left Qplus l a == a + Num.sum l.
Proof.
  unfold Num.sum. revert a.
  induction l as [|v l IH]; intro a; simpl.
  - lra.
  - rewrite (IH (a + v)), (IH (0 + v)). lra.
Qed.

Lemma sum_cons (v : Q) (l : list Q) : Num.sum (v :: l) == v + Num.sum l.
Proof.
  unfold Num.sum at 1. simpl. rewrite sum_from. lra.
Qed.

Lemma sum_nil : Num.sum [] == 0.
Proof. reflexivity. Qed.

End NumFacts.

(** ** Facts about dictionaries *)

Section DictFacts.

Context {V : Type}.
Implicit Types (d : Dict.t V) (k : string) (v : V).

Lemma get_set_same d k v : Dict.get (Dict.set d k v) k = Some v.
Proof.
  induction d as [|[k' v'] d IH]; simpl.
  - now rewrite String.eqb_refl.
  - destruct (String.eqb k' k) eqn:E; simpl; rewrite E; auto.
Qed.

Lemma get_set_other d k k' v :
  k <> k' -> Dict.get (Dict.set d k v) k' = Dict.get d k'.
Proof.
  intro Hne. induction d as [|[k0 v0] d IH]; simpl.
  - destruct (String.eqb k k') eqn:E; trivial.
    apply String.eqb_eq in E. contradiction.
  - destruct (String.eqb k0 k) eqn:E; simpl.
    + apply String.eqb_eq in E. subst k0.
      destruct (String.eqb k k') eqn:E'; trivial.
      apply String.eqb_eq in E'. contradiction.
    + now rewrite IH.
Qed.

Lemma keys_set_present d k v :
  In k (Dict.keys d) -> Dict.keys (Dict.set d k v) = Dict.keys d.
Proof.
  unfold Dict.keys.
  induction d as [|[k' v'] d IH]; simpl; intro H.
  - contradiction.
  - destruct (String.eqb k' k) eqn:E; simpl; trivial.
    f_equal. apply IH. destruct H as [H|H]; trivial.
    subst k'. rewrite String.eqb_refl in E. discriminate.
Qed.

Lemma get_some_in_keys d k v : Dict.get d k = Some v -> In k (Dict.keys d).
Proof.
  unfold Dict.keys.
  induction d as [|[k' v'] d IH]; simpl; intro H.
  - discriminate.
  - destruct (String.eqb k' k) eqn:E.
    + left. now apply String.eqb_eq.
    + right. auto.
Qed.

Lemma in_keys_get d k : In k (Dict.keys d) -> exists v, Dict.get d k = Some v.
Proof.
  unfold Dict.keys.
  induction d as [|[k' v'] d IH]; simpl; intro H.
  - contradiction.
  - destruct (String.eqb k' k) eqn:E.
    + eauto.
    + destruct H as [H|H]; auto.
      subst k'. rewrite String.eqb_refl in E. discriminate.
Qed.

Lemma get_none_not_in_keys d k :
  Dict.get d k = None <-> ~ In k (Dict.keys d).
Proof.
  split.
  - intros H Hin. apply in_keys_get in Hin. destruct Hin as [v Hv]. congruence.
  - intro H. destruct (Dict.get d k) eqn:E; trivial.
    apply get_some_in_keys in E. contradiction.
Qed.

End DictFacts.

(** ** Purchases *)

(** C6. With less money than the price, [upgrade] and [add_cart] return
    [False] and the game they leave is the game they found: cost table,
    multipliers, global cart stats, every cart and the money included. *)
Theorem insufficient_funds_change_nothing
  (self : MiningGame.t) (upgrade_type cart_type : string) :
  (forall cost,
      Dict.get (Station.upgrade_costs (station self)) upgrade_type = Some cost ->
      Station.money (station self) < cost ->
      upgrade self upgrade_type = Ok (false, self))
  /\ (Station.money (station self) < 500 ->
      add_cart self cart_type = Ok (false, self)).
Proof.
  split.
  - intros cost Hcost Hlt. unfold upgrade. rewrite Hcost.
    apply geb_lt in Hlt. now rewrite Hlt.
  - intro Hlt. unfold add_cart.
    apply geb_lt in Hlt. now rewrite Hlt.
Qed.

Lemma insufficient_funds_witness :
  upgrade broke_game "capacity" = Ok (false, broke_game)
  /\ add_cart broke_game "market" = Ok (false, broke_game).
Proof.
  destruct (insufficient_funds_change_nothing broke_game "capacity" "market")
    as [Hup Hadd].
  split.
  - apply (Hup 1000); reflexivity.
  - apply Hadd. reflexivity.
Defined.

Lemma int_integer_part (v : Q) : integer_part v (Num.int v).
Proof.
  destruct v as [a b]. unfold integer_part. split; [|split].
  - exists (Z.quot a (Zpos b)). reflexivity.
  - unfold Qle, Qlt, Qplus, Num.int. simpl. intro H.
    rewrite Z.mul_1_r in *.
    pose proof (Z.quot_rem' a (Zpos b)) as Hqr.
    pose proof (Z.rem_bound_pos a (Zpos b)) as Hb.
    nia.
  - unfold Qle, Qlt, Qplus, Num.int. simpl. intro H.
    rewrite Z.mul_1_r in *.
    pose proof (Z.quot_rem' a (Zpos b)) as Hqr.
    destruct (Z.eq_dec a 0) as [Ha|Ha].
    + subst a. rewrite Z.quot_0_l by lia. lia.
    + pose proof (Z.rem_bound_pos_neg a (Zpos b)) as Hb.
      rewrite ?Pos.mul_1_r, ?Z.mul_1_r. nia.
Qed.

Lemma Forall2_map_self {A : Type} (P : A -> A -> Prop) (f : A -> A)
  (l : list A) :
  (forall a, P a (f a)) -> Forall2 P l (map f l).
Proof.
  intro H. induction l as [|a l IH]; simpl; constructor; auto.
Qed.

(** C5. With 1000 in the purse and a capacity upgrade that costs 1000,
    [upgrade("capacity")] succeeds: the money left is 0, the global capacity
    stat is multiplied by the multiplier 1.5, the next capacity upgrade
    costs 1500, and every existing cart, in its place in the list, has the
    integer part of the new stat as its capacity and is otherwise what it
    was. *)
Theorem capacity_upgrade_for_1000
  (self : MiningGame.t) (cost multiplier old_value : Q) :
  Station.money (station self) == 1000 ->
  Dict.get (Station.upgrade_costs (station self)) "capacity" = Some cost ->
  cost == 1000 ->
  Dict.get (Station.upgrade_multipliers (station self)) "capacity"
  = Some multiplier ->
  multiplier == 1.5 ->
  Dict.get (cart_stats self) "capacity" = Some old_value ->
  exists self' new_value next_cost,
    upgrade self "capacity" = Ok (true, self')
    /\ Station.money (station self') == 0
    /\ Dict.get (cart_stats self') "capacity" = Some new_value
    /\ new_value == old_value * 1.5
    /\ carts self'
       = map (fun cart => Cart.set_capacity cart (Num.int new_value))
           (carts self)
    /\ Forall2
         (fun cart cart' =>
            integer_part (old_value * 1.5) (Cart.capacity cart')
            /\ but_capacity cart' = but_capacity cart)
         (carts self) (carts self')
    /\ Dict.get (Station.upgrade_costs (station self')) "capacity"
       = Some next_cost
    /\ next_cost == 1500.
Proof.
  intros Hmoney Hcost Hc Hmult Hm Hstat.
  assert (Hge : Num.geb (Station.money (station self)) cost = true).
  { apply geb_ge. rewrite Hmoney, Hc. lra. }
  eexists. exists (old_value * multiplier). eexists.
  unfold upgrade. rewrite Hcost, Hge. cbn [set_station station Station.set_money
    Station.upgrade_multipliers cart_stats]. unfold Dict.lookup, Dict.mem.
  rewrite Hmult, Hstat. cbn [bind].
  split; [reflexivity|].
  cbn. rewrite !get_set_same.
  split; [rewrite Hmoney, Hc; lra|].
  split; [reflexivity|].
  split; [rewrite Hm; reflexivity|].
  split; [reflexivity|].
  split.
  - apply Forall2_map_self. intro cart. split; [|reflexivity].
    cbn [upgrade_cart String.eqb Ascii.eqb Bool.eqb Cart.capacity
           Cart.set_capacity].
    rewrite (int_compat (old_value * multiplier) (old_value * 1.5))
      by (rewrite Hm; reflexivity).
    apply int_integer_part.
  - split; [reflexivity|].
    rewrite (int_compat (cost * 1.5) 1500) by (rewrite Hc; reflexivity).
    reflexivity.
Qed.

Lemma capacity_upgrade_for_1000_witness :
  exists self' cart',
    upgrade (init still_world) "capacity" = Ok (true, self')
    /\ Station.money (station self') == 0
    /\ Dict.get (cart_stats self') "capacity" = Some (50 * 1.5)
    /\ carts self' = [cart']
    /\ Cart.capacity cart' == 75
    /\ but_capacity cart' = (720, 450, 100, 3, [], "mining", "mining")%string
    /\ Dict.get (Station.upgrade_costs (station self')) "capacity"
       = Some 1500.
Proof.
  destruct (capacity_upgrade_for_1000 (init still_world) 1000 1.5 50)
    as [self' [new_value [next_cost
         [Hrun [Hmoney [Hstat [Hnew [Hmap [Hall [Hcost Hnext]]]]]]]]]];
    try reflexivity.
  assert (Hself : exists cart', carts self' = [cart']).
  { rewrite Hmap. cbn. eexists. reflexivity. }
  destruct Hself as [cart' Hcarts].
  rewrite Hcarts in Hall.
  assert (Hcart : integer_part (50 * 1.5) (Cart.capacity cart')
                  /\ but_capacity cart'
                     = (720, 450, 100, 3, [], "mining", "mining")%string).
  { inversion Hall as [|c c' l l' [Hint Hrest] Htail Hl Hl'].
    subst c c'. split; [exact Hint|].
    rewrite Hrest. reflexivity. }
  destruct Hcart as [[[z Hz] [Hpos _]] Hrest].
  exists self', cart'. split; [exact Hrun|]. split; [exact Hmoney|].
  split.
  { vm_compute in Hrun. inversion Hrun; subst self'. reflexivity. }
  split; [exact Hcarts|]. split.
  { destruct Hpos as [Hle Hlt]; [vm_compute; discriminate|].
    rewrite Hz in *.
    assert (Hz75 : z = 75%Z).
    { unfold Qle, Qlt, Qplus in *. simpl in *. lia. }
    rewrite Hz75. reflexivity. }
  split; [exact Hrest|].
  vm_compute in Hrun. inversion Hrun; subst self'. reflexivity.
Defined.

(** ** Sale *)

Section Frames.

Lemma set_money_same (st : Station.t) :
  Station.set_money st (Station.money st) = st.
Proof. now destruct st. Qed.

Lemma set_storage_same (st : Station.t) :
  Station.set_storage st (Station.storage st) = st.
Proof. now destruct st. Qed.

Lemma set_station_same (self : MiningGame.t) :
  set_station self (station self) = self.
Proof. now destruct self. Qed.

Lemma set_contents_same (cart : Cart.t) :
  Cart.set_contents cart (Cart.contents cart) = cart.
Proof. now destruct cart. Qed.

End Frames.

Lemma set_in_place {V : Type} (pre post : Dict.t V) (k : string) (v v' : V) :
  ~ In k (Dict.keys pre) ->
  Dict.set (pre ++ (k, v) :: post) k v' = pre ++ (k, v') :: post.
Proof.
  induction pre as [|[k0 v0] pre IH]; simpl; intro Hnot.
  - now rewrite String.eqb_refl.
  - destruct (String.eqb k0 k) eqn:E.
    + apply String.eqb_eq in E. tauto.
    + f_equal. apply IH. tauto.
Qed.

Lemma keys_app {V : Type} (a b : Dict.t V) :
  Dict.keys (a ++ b) = Dict.keys a ++ Dict.keys b.
Proof. apply map_app. Qed.

(** The selling loop on the items [its] that remain, [pre] being the part
    of the cart's contents already visited. *)
Lemma sell_loop_spec (its pre : list (string * Q)) :
  forall (self : MiningGame.t) (cart : Cart.t),
  Cart.contents cart = pre ++ its ->
  NoDup (Dict.keys (pre ++ its)) ->
  (forall r amount, In (r, amount) its -> 0 < amount ->
                    In r (Dict.keys (market_prices self))) ->
  exists m,
    sell_cart_resources_loop its self cart
    = Ok (set_station self (Station.set_money (station self) m),
          Cart.set_contents cart (pre ++ sold_out its))
    /\ m == Station.money (station self)
            + sale_value (market_prices self) its.
Proof.
  revert pre.
  induction its as [|[r amount] its IH]; intros pre self cart Hc Hnd Hp.
  - exists (Station.money (station self)). simpl. split; [|lra].
    rewrite set_money_same, set_station_same.
    rewrite <- Hc, set_contents_same. reflexivity.
  - simpl. destruct (Num.gtb amount 0) eqn:Hpos.
    + assert (Hin : In r (Dict.keys (market_prices self))).
      { apply (Hp r amount); [now left | now apply gtb_gt]. }
      apply in_keys_get in Hin. destruct Hin as [price Hprice].
      unfold Dict.lookup, Dict.get_default. rewrite Hprice. cbn [bind].
      rewrite Hc, set_in_place.
      2:{ rewrite keys_app in Hnd. apply NoDup_remove_2 in Hnd.
          intro Hin. apply Hnd. apply in_or_app. now left. }
      destruct (IH (pre ++ [(r, 0)])
                  (set_station self
                     (Station.set_money (station self)
                        (Station.money (station self) + price * amount)))
                  (Cart.set_contents cart (pre ++ (r, 0) :: its)))
        as [m [Hrun Hm]].
      * cbn. now rewrite <- app_assoc.
      * rewrite <- app_assoc. cbn [app]. rewrite keys_app in *. exact Hnd.
      * intros r' a' Hin' Ha'. apply (Hp r' a'); [now right | trivial].
      * exists m. split.
        -- rewrite Hrun. cbn. rewrite <- app_assoc. reflexivity.
        -- rewrite Hm. cbn. lra.
    + destruct (IH (pre ++ [(r, amount)]) self cart) as [m [Hrun Hm]].
      * now rewrite <- app_assoc.
      * now rewrite <- app_assoc.
      * intros r' a' Hin' Ha'. apply (Hp r' a'); [now right | trivial].
      * exists m. split.
        -- rewrite Hrun. cbn. rewrite <- app_assoc. reflexivity.
        -- rewrite Hm. lra.
Qed.





(** ** Withdrawal *)

Section Withdrawal.

Variable enabled : Dict.t bool.

Lemma withdrawal_no_space (stock : list (string * Q)) (space : Q) :
  space <= 0 -> withdrawal enabled stock space = [].
Proof.
  intro H. destruct stock as [|[r amount] rest]; simpl; trivial.
  apply leb_le in H. now rewrite H.
Qed.

Lemma withdrawal_keys (stock : list (string * Q)) :
  forall space r q,
  Dict.get (withdrawal enabled stock space) r = Some q ->
  In r (Dict.keys stock).
Proof.
  induction stock as [|[r0 a0] rest IH]; simpl; intros space r q H.
  - discriminate.
  - destruct (Num.leb space 0); [discriminate|].
    destruct (Num.gtb a0 0 && Dict.get_default enabled r0 false).
    + simpl in H. destruct (String.eqb r0 r) eqn:E.
      * left. now apply String.eqb_eq.
      * right. eauto.
    + right. eauto.
Qed.

(** What the plan moves is a positive part of a positive stock of an
    enabled resource. *)
Lemma withdrawal_sound (stock : list (string * Q)) :
  forall space r q,
  NoDup (Dict.keys stock) ->
  Dict.get (withdrawal enabled stock space) r = Some q ->
  Dict.get enabled r = Some true
  /\ exists amount,
       Dict.get stock r = Some amount /\ 0 < amount /\ 0 < q /\ q <= amount.
Proof.
  induction stock as [|[r0 a0] rest IH]; simpl; intros space r q Hnd H.
  - discriminate.
  - inversion Hnd as [|? ? Hnot Hnd']; subst.
    destruct (Num.leb space 0) eqn:Hspace; [discriminate|].
    apply leb_gt in Hspace.
    destruct (Num.gtb a0 0) eqn:Hpos; simpl in H.
    + apply gtb_gt in Hpos.
      unfold Dict.get_default in H.
      destruct (Dict.get enabled r0) as [[|]|] eqn:Hen.
      * simpl in H. destruct (String.eqb r0 r) eqn:E.
        -- apply String.eqb_eq in E. subst r0. inversion H; subst.
           split; trivial. exists a0. repeat split; trivial.
           ++ now apply min_pos.
           ++ apply min_le_l.
        -- destruct (IH _ _ _ Hnd' H) as [He [a Ha]]. eauto.
      * destruct (String.eqb r0 r) eqn:E.
        -- apply String.eqb_eq in E. subst r0.
           apply withdrawal_keys in H. contradiction.
        -- eauto.
      * destruct (String.eqb r0 r) eqn:E.
        -- apply String.eqb_eq in E. subst r0.
           apply withdrawal_keys in H. contradiction.
        -- eauto.
    + destruct (String.eqb r0 r) eqn:E.
      * apply String.eqb_eq in E. subst r0.
        apply withdrawal_keys in H. contradiction.
      * eauto.
Qed.

End Withdrawal.

Lemma not_in_keys_tail {V : Type} (r r0 : string) (rest : Dict.t V) :
  ~ In r0 (Dict.keys rest) -> In r (Dict.keys rest) -> r0 <> r.
Proof. intros Hnot Hin Heq. subst. contradiction. Qed.

Lemma in_items_keys {V : Type} (r : string) (v : V) (its : Dict.t V) :
  In (r, v) its -> In r (Dict.keys its).
Proof. intro H. apply (in_map fst) in H. exact H. Qed.

(** The loading loop on the items [its] that remain, entered with some
    space left in the cart. *)
Lemma load_loop_spec (its : list (string * Q)) :
  forall (self : MiningGame.t) (cart : Cart.t) (space : Q) (loaded : bool),
  (forall r a, In (r, a) its ->
               Dict.get (Station.storage (station self)) r = Some a) ->
  NoDup (Dict.keys its) ->
  (forall r, In r (Dict.keys its) ->
             In r (Dict.keys (resource_selling_enabled self))) ->
  0 < space ->
  exists st' c',
    load_from_station_loop its self cart space loaded
    = Ok (loaded
          || nonempty (withdrawal (resource_selling_enabled self) its space),
          set_station self (Station.set_storage (station self) st'),
          Cart.set_contents cart c')
    /\ moved_as (withdrawal (resource_selling_enabled self) its space)
         (Station.storage (station self)) (Cart.contents cart) st' c'.
Proof.
  induction its as [|[r0 a0] rest IH]; intros self cart space loaded H1 Hnd H3 Hs.
  - exists (Station.storage (station self)), (Cart.contents cart).
    simpl. rewrite orb_false_r, set_storage_same, set_station_same,
      set_contents_same.
    split; [reflexivity|]. intro r. simpl. auto.
  - inversion Hnd as [|? ? Hnot Hnd']; subst.
    assert (Hspace : Num.leb space 0 = false) by now apply leb_gt.
    assert (Hrest : forall r, In r (Dict.keys rest) ->
                     In r (Dict.keys (resource_selling_enabled self))).
    { intros r Hr. apply H3. now right. }
    assert (Skip :
      exists st' c',
        load_from_station_loop rest self cart space loaded
        = Ok (loaded
              || nonempty
                   (withdrawal (resource_selling_enabled self) rest space),
              set_station self (Station.set_storage (station self) st'),
              Cart.set_contents cart c')
        /\ moved_as (withdrawal (resource_selling_enabled self) rest space)
             (Station.storage (station self)) (Cart.contents cart) st' c').
    { apply IH; trivial. intros r a Hin. apply H1. now right. }
    simpl. rewrite Hspace.
    destruct (Num.gtb a0 0) eqn:Hpos; cbn [andb bind].
    2:{ rewrite Hspace. exact Skip. }
    destruct (in_keys_get (resource_selling_enabled self) r0) as [b Hb].
    { apply H3. now left. }
    assert (Hgd : Dict.get_default (resource_selling_enabled self) r0 false
                  = b).
    { unfold Dict.get_default. now rewrite Hb. }
    rewrite Hgd. unfold Dict.lookup at 1. rewrite Hb.
    cbn [bind]. destruct b.
    2:{ cbn [bind]. rewrite Hspace. exact Skip. }
    unfold Dict.lookup. cbn [station set_station Station.storage].
    rewrite (H1 r0 a0) by now left. cbn [bind].
    set (q0 := Num.min a0 space).
    destruct (Num.leb (space - q0) 0) eqn:Hleft.
    + apply leb_le in Hleft.
      rewrite (withdrawal_no_space _ rest _ Hleft).
      do 2 eexists. split.
      * rewrite orb_true_r. cbn. reflexivity.
      * intro r. cbn [Dict.get]. destruct (String.eqb r0 r) eqn:E.
        -- apply String.eqb_eq in E. subst r.
           rewrite !get_set_same. split; [|reflexivity].
           exists a0. split; [apply H1; now left | reflexivity].
        -- apply String.eqb_neq in E. now rewrite !get_set_other.
    + apply leb_gt in Hleft.
      edestruct (IH
        (set_station self
           (Station.set_storage (station self)
              (Dict.set (Station.storage (station self)) r0 (a0 - q0))))
        (Cart.set_contents cart
           (Dict.set (Cart.contents cart) r0
              (Dict.get_default (Cart.contents cart) r0 0 + q0)))
        (space - q0) true) as [st' [c' [Hrun Hmoved]]]; trivial.
      * intros r a Hin. cbn. rewrite get_set_other.
        -- apply H1. now right.
        -- apply not_in_keys_tail with (rest := rest); trivial.
           now apply in_items_keys with a.
      * exists st', c'. split.
        -- rewrite Hrun. rewrite orb_true_r. reflexivity.
        -- intro r. specialize (Hmoved r). cbn in Hmoved.
           cbn [Dict.get]. destruct (String.eqb r0 r) eqn:E.
           ++ apply String.eqb_eq in E. subst r.
              destruct (Dict.get
                          (withdrawal (resource_selling_enabled self) rest
                             (space - q0)) r0) eqn:Hplan.
              ** apply withdrawal_keys in Hplan. contradiction.
              ** rewrite !get_set_same in Hmoved.
                 destruct Hmoved as [Hst Hc]. split; trivial.
                 exists a0. split; [apply H1; now left | trivial].
           ++ apply String.eqb_neq in E.
              rewrite !get_set_other in Hmoved by trivial.
              unfold Dict.get_default in Hmoved.
              rewrite get_set_other in Hmoved by trivial.
              exact Hmoved.
Qed.

(** ** Movement *)

Section Movement.

Lemma lookup_division_free {V : Type} (d : Dict.t V) (k : string) :
  division_free (Dict.lookup d k).
Proof. unfold division_free, Dict.lookup. destruct (Dict.get d k); discriminate. Qed.

Lemma bind_division_free {A B : Type} (m : result A) (f : A -> result B) :
  division_free m -> (forall a, division_free (f a)) ->
  division_free (bind m f).
Proof.
  intros Hm Hf. destruct m as [a|e]; simpl; [apply Hf|].
  intro H. apply Hm. inversion H. reflexivity.
Qed.

Lemma ok_division_free {A : Type} (a : A) : division_free (Ok a).
Proof. discriminate. Qed.

Lemma load_loop_division_free (its : list (string * Q)) :
  forall self cart space loaded,
  division_free (load_from_station_loop its self cart space loaded).
Proof.
  induction its as [|[r a] rest IH]; intros self cart space loaded; simpl.
  - apply ok_division_free.
  - apply bind_division_free.
    + destruct (Num.gtb a 0);
        [apply lookup_division_free | apply ok_division_free].
    + intros [|].
      * apply bind_division_free.
        -- apply bind_division_free;
             [apply lookup_division_free | intro; apply ok_division_free].
        -- intros [[[self1 cart1] space1] loaded1].
           destruct (Num.leb space1 0); [apply ok_division_free | apply IH].
      * cbn [bind]. destruct (Num.leb space 0);
          [apply ok_division_free | apply IH].
Qed.

Lemma sell_loop_division_free (its : list (string * Q)) :
  forall self cart, division_free (sell_cart_resources_loop its self cart).
Proof.
  induction its as [|[r a] rest IH]; intros self cart; simpl.
  - apply ok_division_free.
  - destruct (Num.gtb a 0); [|apply IH].
    apply bind_division_free; [apply lookup_division_free|].
    intro price. apply IH.
Qed.

Lemma truediv_nonzero (a b : Q) : ~ b == 0 -> truediv a b = Ok (a / b).
Proof.
  intro H. unfold truediv. apply eqb_neq in H. now rewrite H.
Qed.

(** Beyond the tolerance, the step divides by a distance of ten or more. *)
Lemma move_towards_far (cart : Cart.t) (dx dy dist delta_time : Q) :
  Num.ltb dist POSITION_TOLERANCE = false ->
  POSITION_TOLERANCE <= dist
  /\ move_towards cart dx dy dist delta_time
     = Ok (Cart.set_xy cart
             (Cart.x cart + dx / dist * Cart.speed cart * delta_time)
             (Cart.y cart + dy / dist * Cart.speed cart * delta_time)).
Proof.
  intro H. apply ltb_ge in H. split; trivial.
  unfold move_towards. unfold POSITION_TOLERANCE in H.
  rewrite !truediv_nonzero by (intro Hz; rewrite Hz in H; lra).
  reflexivity.
Qed.

End Movement.

(** ** What the loops leave alone *)

Section LoopFrames.

Lemma set_random_reads_same (self : MiningGame.t) :
  set_random_reads self (random_reads self) = self.
Proof. now destruct self. Qed.

Lemma mining_loop_frame (w : World) (its : list (string * Resource.t))
  (delta_time : Q) :
  forall self cart self' cart',
  mining_loop w its self cart delta_time = (self', cart') ->
  cart' = Cart.set_contents cart (Cart.contents cart')
  /\ self' = set_random_reads self (random_reads self').
Proof.
  induction its as [|[r res] rest IH]; intros self cart self' cart' H;
    simpl in H.
  - inversion H; subst.
    now rewrite set_contents_same, set_random_reads_same.
  - match type of H with
    | (if ?c then _ else _) = _ => destruct c
    end; apply IH in H; destruct H as [Hc Hs]; split;
      solve [rewrite Hc at 1; reflexivity | rewrite Hs at 1; reflexivity].
Qed.

Lemma transfer_loop_frame (its : list (string * Q)) :
  forall self cart self' cart',
  transfer_to_station_loop its self cart = (self', cart') ->
  cart' = Cart.set_contents cart (Cart.contents cart')
  /\ self' = set_station self
               (Station.set_storage (station self)
                  (Station.storage (station self'))).
Proof.
  induction its as [|[r a] rest IH]; intros self cart self' cart' H;
    simpl in H.
  - inversion H; subst.
    now rewrite set_contents_same, set_storage_same, set_station_same.
  - match type of H with
    | (if ?c then _ else _) = _ => destruct c
    end; apply IH in H; destruct H as [Hc Hs]; split;
      solve [rewrite Hc at 1; reflexivity | rewrite Hs at 1; reflexivity].
Qed.

Lemma sell_loop_frame (its : list (string * Q)) :
  forall self cart self' cart',
  sell_cart_resources_loop its self cart = Ok (self', cart') ->
  cart' = Cart.set_contents cart (Cart.contents cart')
  /\ self' = set_station self
               (Station.set_money (station self)
                  (Station.money (station self'))).
Proof.
  induction its as [|[r a] rest IH]; intros self cart self' cart' H;
    simpl in H.
  - inversion H; subst.
    now rewrite set_contents_same, set_money_same, set_station_same.
  - destruct (Num.gtb a 0).
    + destruct (Dict.lookup (market_prices self) r) as [price|e];
        [|discriminate].
      cbn [bind] in H. apply IH in H. destruct H as [Hc Hs]; split;
        solve [rewrite Hc at 1; reflexivity | rewrite Hs at 1; reflexivity].
    + now apply IH.
Qed.

Lemma load_loop_frame (its : list (string * Q)) :
  forall self cart space loaded b self' cart',
  load_from_station_loop its self cart space loaded = Ok (b, self', cart') ->
  cart' = Cart.set_contents cart (Cart.contents cart')
  /\ self' = set_station self
               (Station.set_storage (station self)
                  (Station.storage (station self'))).
Proof.
  induction its as [|[r a] rest IH];
    intros self cart space loaded b self' cart' H; simpl in H.
  - inversion H; subst.
    now rewrite set_contents_same, set_storage_same, set_station_same.
  - destruct (if Num.gtb a 0
              then Dict.lookup (resource_selling_enabled self) r
              else Ok false) as [[|]|e]; cbn [bind] in H; [| |discriminate].
    + destruct (Dict.lookup (Station.storage (station self)) r) as [stored|e];
        cbn [bind] in H; [|discriminate].
      match type of H with
      | (if ?c then _ else _) = _ => destruct c
      end.
      * inversion H; subst. cbn. split; reflexivity.
      * apply IH in H. destruct H as [Hc Hs]; split;
          solve [rewrite Hc at 1; reflexivity | rewrite Hs at 1; reflexivity].
    + destruct (Num.leb space 0).
      * inversion H; subst.
        now rewrite set_contents_same, set_storage_same, set_station_same.
      * now apply IH in H.
Qed.

End LoopFrames.

Section Arrival.

Variables (w : World) (self : MiningGame.t) (cart : Cart.t).
Variables (vertical_offset delta_time : Q).

Ltac split_on_distance :=
  match goal with
  | |- context [Num.ltb ?d POSITION_TOLERANCE] =>
      destruct (Num.ltb d POSITION_TOLERANCE) eqn:E
  end.

Lemma step_division_free (dx dy dist : Q) :
  Num.ltb dist POSITION_TOLERANCE = false ->
  division_free
    (let* c := move_towards cart dx dy dist delta_time in Ok (self, c)).
Proof.
  intro H.
  destruct (move_towards_far cart dx dy dist delta_time H) as [_ ->].
  discriminate.
Qed.

Lemma update_mining_cart_division_free :
  division_free (update_mining_cart w self cart vertical_offset delta_time).
Proof.
  unfold update_mining_cart.
  destruct (String.eqb (Cart.state cart) "mining").
  - split_on_distance; [|now apply step_division_free].
    destruct (if negb (Cart.is_full cart) then _ else _) as [s c].
    destruct (Cart.is_full c); discriminate.
  - destruct (String.eqb (Cart.state cart) "returning"); [|discriminate].
    split_on_distance; [|now apply step_division_free].
    destruct (transfer_to_station self cart). discriminate.
Qed.

Lemma update_market_cart_division_free :
  division_free (update_market_cart w self cart vertical_offset delta_time).
Proof.
  unfold update_market_cart.
  destruct (String.eqb (Cart.state cart) "loading").
  - split_on_distance; [|now apply step_division_free].
    apply bind_division_free.
    + unfold load_from_station. destruct (Cart.is_full cart);
        [discriminate | apply load_loop_division_free].
    + intros [[[|] s] c]; discriminate.
  - destruct (String.eqb (Cart.state cart) "selling"); [|discriminate].
    split_on_distance; [|now apply step_division_free].
    apply bind_division_free.
    + apply sell_loop_division_free.
    + intros [s c]. discriminate.
Qed.

(** Beyond the tolerance every branch is the same step. *)
Lemma far_step (target : Q * Q) :
  let dx := fst target - Cart.x cart in
  let dy := snd target - Cart.y cart + vertical_offset in
  let dist := distance w dx dy in
  ~ dist < POSITION_TOLERANCE ->
  POSITION_TOLERANCE <= dist
  /\ Num.ltb dist POSITION_TOLERANCE = false
  /\ (let* c := move_towards cart dx dy dist delta_time in Ok (self, c))
     = Ok (self,
           Cart.set_xy cart
             (Cart.x cart + dx / dist * Cart.speed cart * delta_time)
             (Cart.y cart + dy / dist * Cart.speed cart * delta_time)).
Proof.
  intros dx dy dist Hfar.
  assert (E : Num.ltb dist POSITION_TOLERANCE = false).
  { apply ltb_ge. now apply Qnot_lt_le. }
  destruct (move_towards_far cart dx dy dist delta_time E) as [Hge ->].
  auto.
Qed.

Lemma mining_approaches :
  Cart.state cart = "mining"%string ->
  approaches w (update_mining_cart w self cart vertical_offset delta_time)
    self cart (mine_pos self) vertical_offset delta_time.
Proof.
  intro Hstate. unfold approaches, update_mining_cart. rewrite Hstate.
  cbn [String.eqb Ascii.eqb Bool.eqb]. split.
  - intros Hnear self' cart' Hrun. apply ltb_lt in Hnear.
    rewrite Hnear in Hrun.
    destruct (negb (Cart.is_full cart)).
    + destruct (mining_loop w (Dict.items (resources self)) self cart
                  delta_time) as [s c] eqn:Hloop.
      apply mining_loop_frame in Hloop. destruct Hloop as [Hc Hs].
      destruct (Cart.is_full c); inversion Hrun; subst.
      * right. rewrite Hs. reflexivity.
      * left. rewrite Hc. reflexivity.
    + destruct (Cart.is_full cart); inversion Hrun; subst.
      * right. reflexivity.
      * left. reflexivity.
  - intro Hfar. destruct (far_step (mine_pos self) Hfar) as [Hge [E Hstep]].
    split; [exact Hge|]. rewrite E. exact Hstep.
Qed.

Lemma returning_approaches :
  Cart.state cart = "returning"%string ->
  approaches w (update_mining_cart w self cart vertical_offset delta_time)
    self cart (station_pos self) vertical_offset delta_time.
Proof.
  intro Hstate. unfold approaches, update_mining_cart. rewrite Hstate.
  cbn [String.eqb Ascii.eqb Bool.eqb]. split.
  - intros Hnear self' cart' Hrun. apply ltb_lt in Hnear.
    rewrite Hnear in Hrun.
    destruct (transfer_to_station self cart) as [s c] eqn:Ht.
    apply transfer_loop_frame in Ht. destruct Ht as [_ Hs].
    inversion Hrun; subst. right. rewrite Hs. reflexivity.
  - intro Hfar.
    destruct (far_step (station_pos self) Hfar) as [Hge [E Hstep]].
    split; [exact Hge|]. rewrite E. exact Hstep.
Qed.

Lemma loading_approaches :
  Cart.state cart = "loading"%string ->
  approaches w (update_market_cart w self cart vertical_offset delta_time)
    self cart (station_pos self) vertical_offset delta_time.
Proof.
  intro Hstate. unfold approaches, update_market_cart. rewrite Hstate.
  cbn [String.eqb Ascii.eqb Bool.eqb]. split.
  - intros Hnear self' cart' Hrun. apply ltb_lt in Hnear.
    rewrite Hnear in Hrun.
    destruct (load_from_station self cart) as [[[loaded s] c]|e] eqn:Hload;
      [|discriminate].
    cbn [bind] in Hrun.
    assert (Hc : c = Cart.set_contents cart (Cart.contents c)
                 /\ station_pos s = station_pos self).
    { unfold load_from_station in Hload.
      destruct (Cart.is_full cart).
      - inversion Hload; subst. now rewrite set_contents_same.
      - apply load_loop_frame in Hload. destruct Hload as [Hc Hs].
        split; trivial. rewrite Hs. reflexivity. }
    destruct Hc as [Hc Hs].
    destruct loaded; inversion Hrun; subst.
    + right. rewrite Hs. reflexivity.
    + left. rewrite Hc. reflexivity.
  - intro Hfar.
    destruct (far_step (station_pos self) Hfar) as [Hge [E Hstep]].
    split; [exact Hge|]. rewrite E. exact Hstep.
Qed.

Lemma selling_approaches :
  Cart.state cart = "selling"%string ->
  approaches w (update_market_cart w self cart vertical_offset delta_time)
    self cart (market_pos self) vertical_offset delta_time.
Proof.
  intro Hstate. unfold approaches, update_market_cart. rewrite Hstate.
  cbn [String.eqb Ascii.eqb Bool.eqb]. split.
  - intros Hnear self' cart' Hrun. apply ltb_lt in Hnear.
    rewrite Hnear in Hrun.
    destruct (sell_cart_resources self cart) as [[s c]|e] eqn:Hsell;
      [|discriminate].
    apply sell_loop_frame in Hsell. destruct Hsell as [_ Hs].
    inversion Hrun; subst. right. rewrite Hs. reflexivity.
  - intro Hfar.
    destruct (far_step (market_pos self) Hfar) as [Hge [E Hstep]].
    split; [exact Hge|]. rewrite E. exact Hstep.
Qed.

End Arrival.

(** C9. No cart update divides by zero. In each of the four states, a cart
    whose distance to its target is below the tolerance (a distance of zero
    in particular) is treated as arrived without forming the quotients of
    the direction vector: it stays in place or is snapped onto the target.
    The quotients are formed only when the distance is at least the
    tolerance 10. *)
Theorem arrival_needs_no_division (w : World) (self : MiningGame.t)
  (cart : Cart.t) (vertical_offset delta_time : Q) :
  division_free (update_mining_cart w self cart vertical_offset delta_time)
  /\ division_free (update_market_cart w self cart vertical_offset delta_time)
  /\ (Cart.state cart = "mining"%string ->
      approaches w
        (update_mining_cart w self cart vertical_offset delta_time)
        self cart (mine_pos self) vertical_offset delta_time)
  /\ (Cart.state cart = "returning"%string ->
      approaches w
        (update_mining_cart w self cart vertical_offset delta_time)
        self cart (station_pos self) vertical_offset delta_time)
  /\ (Cart.state cart = "loading"%string ->
      approaches w
        (update_market_cart w self cart vertical_offset delta_time)
        self cart (station_pos self) vertical_offset delta_time)
  /\ (Cart.state cart = "selling"%string ->
      approaches w
        (update_market_cart w self cart vertical_offset delta_time)
        self cart (market_pos self) vertical_offset delta_time).
Proof.
  split; [apply update_mining_cart_division_free|].
  split; [apply update_market_cart_division_free|].
  split; [apply mining_approaches|].
  split; [apply returning_approaches|].
  split; [apply loading_approaches | apply selling_approaches].
Qed.

Lemma arrival_needs_no_division_witness :
  approaches still_world
    (update_mining_cart still_world (init still_world) cart_on_mine 0 1)
    (init still_world) cart_on_mine (mine_pos (init still_world)) 0 1.
Proof.
  apply (arrival_needs_no_division still_world (init still_world)
           cart_on_mine 0 1).
  reflexivity.
Defined.

(** ** Assignment to a dictionary of amounts *)

Section Amounts.

Implicit Types (d : Dict.t Q) (k : string) (v : Q).

Lemma total_cons k v d : total ((k, v) :: d) == v + total d.
Proof. unfold total. simpl. apply sum_cons. Qed.

Lemma total_set d k v :
  total (Dict.set d k v) == total d - Dict.get_default d k 0 + v.
Proof.
  unfold Dict.get_default.
  induction d as [|[k' v'] d IH]; simpl.
  - rewrite total_cons. unfold total. simpl. rewrite sum_nil. lra.
  - destruct (String.eqb k' k) eqn:E.
    + rewrite !total_cons. lra.
    + rewrite !total_cons, IH. lra.
Qed.

Lemma nonneg_set d k v : nonneg d -> 0 <= v -> nonneg (Dict.set d k v).
Proof.
  unfold nonneg. intros Hd Hv.
  induction d as [|[k' v'] d IH]; simpl.
  - constructor; [exact Hv | constructor].
  - inversion Hd; subst.
    destruct (String.eqb k' k); constructor; auto.
Qed.

Lemma nonneg_get d k v : nonneg d -> Dict.get d k = Some v -> 0 <= v.
Proof.
  unfold nonneg. intros Hd.
  induction d as [|[k' v'] d IH]; simpl; intro H.
  - discriminate.
  - inversion Hd; subst. destruct (String.eqb k' k).
    + inversion H; subst. assumption.
    + auto.
Qed.

Lemma nonneg_get_default d k : nonneg d -> 0 <= Dict.get_default d k 0.
Proof.
  intro Hd. unfold Dict.get_default.
  destruct (Dict.get d k) as [v|] eqn:E.
  - now apply nonneg_get with d k.
  - lra.
Qed.

Lemma nonneg_total d : nonneg d -> 0 <= total d.
Proof.
  unfold nonneg. induction 1 as [|[k v] d Hv Hd IH].
  - unfold total. simpl. rewrite sum_nil. lra.
  - rewrite total_cons. simpl in Hv. lra.
Qed.

Lemma get_default_le_total d k : nonneg d -> Dict.get_default d k 0 <= total d.
Proof.
  unfold nonneg, Dict.get_default. induction 1 as [|[k' v'] d Hv Hd IH].
  - unfold total. simpl. rewrite sum_nil. lra.
  - simpl. rewrite total_cons. simpl in Hv.
    pose proof (nonneg_total d Hd) as Ht.
    destruct (String.eqb k' k); lra.
Qed.

Lemma whole_plus (a b : Q) : whole a -> whole b -> whole (a + b).
Proof.
  intros [x Hx] [y Hy]. exists (x + y)%Z.
  rewrite Hx, Hy, inject_Z_plus. reflexivity.
Qed.

Lemma whole_set d k v :
  whole_amounts d -> whole v -> whole_amounts (Dict.set d k v).
Proof.
  unfold whole_amounts. intros Hd Hv.
  induction d as [|[k' v'] d IH]; simpl.
  - constructor; [exact Hv | constructor].
  - inversion Hd; subst.
    destruct (String.eqb k' k); constructor; auto.
Qed.

Lemma whole_get_default d k : whole_amounts d -> whole (Dict.get_default d k 0).
Proof.
  unfold whole_amounts, Dict.get_default.
  induction 1 as [|[k' v'] d Hv Hd IH]; simpl.
  - now exists 0%Z.
  - destruct (String.eqb k' k); trivial.
Qed.

Lemma whole_total d : whole_amounts d -> whole (total d).
Proof.
  unfold whole_amounts. induction 1 as [|[k v] d Hv Hd IH].
  - now exists 0%Z.
  - destruct (whole_plus _ _ Hv IH) as [z Hz]. exists z.
    rewrite total_cons. exact Hz.
Qed.

(** Between whole numbers, "below [c + 3]" is "at most [c + 2]". *)
Lemma whole_below (t c : Q) : whole t -> whole c -> t < c + 3 -> t <= c + 2.
Proof.
  intros [x Hx] [y Hy]. rewrite Hx, Hy.
  unfold Qlt, Qle, Qplus, inject_Z. simpl. lia.
Qed.

End Amounts.

Section Keys.

Context {V : Type}.
Implicit Types (d : Dict.t V) (k : string) (v : V).

Lemma keys_set_incl d k v : incl (Dict.keys (Dict.set d k v)) (k :: Dict.keys d).
Proof.
  unfold Dict.keys.
  induction d as [|[k' v'] d IH]; simpl.
  - apply incl_refl.
  - destruct (String.eqb k' k) eqn:E; simpl.
    + apply incl_tl, incl_refl.
    + intros a [Ha|Ha].
      * right. now left.
      * destruct (IH a Ha) as [H|H]; [now left | right; now right].
Qed.

Lemma keys_set_nodup d k v :
  NoDup (Dict.keys d) -> NoDup (Dict.keys (Dict.set d k v)).
Proof.
  unfold Dict.keys.
  induction d as [|[k' v'] d IH]; simpl; intro H.
  - constructor; [intros []|constructor].
  - inversion H as [|? ? Hnot Hnd]; subst.
    destruct (String.eqb k' k) eqn:E; simpl.
    + constructor; assumption.
    + constructor; auto.
      intro Hin. apply keys_set_incl in Hin. destruct Hin as [Hin|Hin].
      * subst. rewrite String.eqb_refl in E. discriminate.
      * contradiction.
Qed.

Lemma keys_set_within d k v (names : list string) :
  incl (Dict.keys d) names -> In k names ->
  incl (Dict.keys (Dict.set d k v)) names.
Proof.
  intros Hd Hk a Ha. apply keys_set_incl in Ha.
  destruct Ha as [Ha|Ha]; [now subst | auto].
Qed.

End Keys.

(** ** Truncation to an integer *)

Section Truncation.

Lemma int_le (v : Q) : 0 <= v -> Num.int v <= v.
Proof.
  destruct v as [a b]. unfold Qle, Num.int. simpl. intro H.
  rewrite Z.mul_1_r in *.
  rewrite Z.mul_comm. apply Z.mul_quot_le; lia.
Qed.

Lemma int_gt (v : Q) : 0 <= v -> v - 1 < Num.int v.
Proof.
  destruct v as [a b]. unfold Qle, Qlt, Qminus, Qplus, Qopp, Num.int. simpl.
  intro H. rewrite Z.mul_1_r in *.
  pose proof (Z.quot_rem' a (Zpos b)) as Hqr.
  pose proof (Z.rem_bound_pos a (Zpos b)) as Hb.
  nia.
Qed.

Lemma int_nonneg (v : Q) : 0 <= v -> 0 <= Num.int v.
Proof.
  destruct v as [a b]. unfold Qle, Num.int. simpl. intro H.
  rewrite Z.mul_1_r in *. apply Z.quot_pos; lia.
Qed.

End Truncation.

(** ** The loops keep the dictionaries in shape *)

Section LoopShapes.

Variable names : list string.

Lemma mining_loop_contents (w : World) (its : list (string * Resource.t))
  (delta_time : Q) :
  forall self cart self' cart',
  mining_loop w its self cart delta_time = (self', cart') ->
  incl (Dict.keys its) names ->
  incl (Dict.keys (Cart.contents cart)) names ->
  NoDup (Dict.keys (Cart.contents cart)) ->
  nonneg (Cart.contents cart) ->
  incl (Dict.keys (Cart.contents cart')) names
  /\ NoDup (Dict.keys (Cart.contents cart'))
  /\ nonneg (Cart.contents cart')
  /\ total (Cart.contents cart')
     <= total (Cart.contents cart) + inject_Z (Z.of_nat (List.length its)).
Proof.
  induction its as [|[r res] rest IH];
    intros self cart self' cart' H Hits Hk Hnd Hnn.
  - simpl in H. inversion H; subst. repeat split; trivial.
    simpl. unfold inject_Z. lra.
  - assert (Hrest : incl (Dict.keys rest) names).
    { intros a Ha. apply Hits. now right. }
    assert (Hr : In r names) by (apply Hits; now left).
    assert (Hlen : inject_Z (Z.of_nat (List.length ((r, res) :: rest)))
                   == inject_Z (Z.of_nat (List.length rest)) + 1).
    { cbn [List.length]. rewrite Nat2Z.inj_succ. unfold Z.succ.
      rewrite inject_Z_plus. reflexivity. }
    rewrite Hlen. simpl in H.
    match type of H with
    | (if ?c then _ else _) = _ => destruct c
    end.
    + apply IH in H; cbn [Cart.contents Cart.set_contents]; trivial.
      * destruct H as [H1 [H2 [H3 H4]]]. repeat split; trivial.
        cbn [Cart.contents Cart.set_contents] in H4.
        rewrite total_set in H4. lra.
      * now apply keys_set_within.
      * now apply keys_set_nodup.
      * apply nonneg_set; trivial.
        pose proof (nonneg_get_default (Cart.contents cart) r Hnn). lra.
    + apply IH in H; trivial.
      destruct H as [H1 [H2 [H3 H4]]]. repeat split; trivial. lra.
Qed.

Lemma transfer_loop_shape (its : list (string * Q)) :
  forall self cart self' cart',
  transfer_to_station_loop its self cart = (self', cart') ->
  incl (Dict.keys its) (Dict.keys (Cart.contents cart)) ->
  incl (Dict.keys its) (Dict.keys (Station.storage (station self))) ->
  nonneg (Cart.contents cart) ->
  nonneg (Station.storage (station self)) ->
  Dict.keys (Cart.contents cart') = Dict.keys (Cart.contents cart)
  /\ nonneg (Cart.contents cart')
  /\ total (Cart.contents cart') <= total (Cart.contents cart)
  /\ Dict.keys (Station.storage (station self'))
     = Dict.keys (Station.storage (station self))
  /\ nonneg (Station.storage (station self')).
Proof.
  induction its as [|[r a] rest IH];
    intros self cart self' cart' H Hc Hs Hnc Hns.
  - simpl in H. inversion H; subst. repeat split; trivial. lra.
  - assert (Hrc : In r (Dict.keys (Cart.contents cart)))
      by (apply Hc; now left).
    assert (Hrs : In r (Dict.keys (Station.storage (station self))))
      by (apply Hs; now left).
    assert (Hc' : incl (Dict.keys rest) (Dict.keys (Cart.contents cart))).
    { intros k Hk. apply Hc. now right. }
    assert (Hs' : incl (Dict.keys rest)
                    (Dict.keys (Station.storage (station self)))).
    { intros k Hk. apply Hs. now right. }
    simpl in H.
    match type of H with
    | (if Num.gtb ?t 0 then _ else _) = _ =>
        destruct (Num.gtb t 0) eqn:Hpos
    end.
    + apply gtb_gt in Hpos.
      apply IH in H; cbn [Cart.contents Cart.set_contents station set_station
                            Station.storage Station.set_storage].
      * cbn [Cart.contents Cart.set_contents station set_station
               Station.storage Station.set_storage] in H.
        destruct H as [H1 [H2 [H3 [H4 H5]]]].
        rewrite keys_set_present in H1, H4 by trivial.
        repeat split; trivial.
        rewrite total_set in H3.
        pose proof (nonneg_get_default (Cart.contents cart) r Hnc). lra.
      * now rewrite keys_set_present.
      * now rewrite keys_set_present.
      * apply nonneg_set; trivial. lra.
      * apply nonneg_set; trivial.
        pose proof (nonneg_get_default (Station.storage (station self)) r Hns).
        lra.
    + now apply IH in H.
Qed.

Lemma mining_loop_whole (w : World) (its : list (string * Resource.t))
  (delta_time : Q) :
  forall self cart self' cart',
  mining_loop w its self cart delta_time = (self', cart') ->
  whole_amounts (Cart.contents cart) ->
  whole_amounts (Cart.contents cart').
Proof.
  induction its as [|[r res] rest IH]; intros self cart self' cart' H Hw;
    simpl in H.
  - now inversion H; subst.
  - match type of H with
    | (if ?c then _ else _) = _ => destruct c
    end; apply IH in H; trivial.
    cbn [Cart.contents Cart.set_contents].
    apply whole_set; trivial.
    apply whole_plus; [now apply whole_get_default | now exists 1%Z].
Qed.

Lemma transfer_loop_whole (its : list (string * Q)) :
  forall self cart self' cart',
  transfer_to_station_loop its self cart = (self', cart') ->
  whole_amounts (Cart.contents cart) ->
  whole_amounts (Cart.contents cart').
Proof.
  induction its as [|[r a] rest IH]; intros self cart self' cart' H Hw;
    simpl in H.
  - now inversion H; subst.
  - match type of H with
    | (if ?c then _ else _) = _ => destruct c
    end; apply IH in H; trivial.
    cbn [Cart.contents Cart.set_contents].
    apply whole_set; trivial. now exists 0%Z.
Qed.

End LoopShapes.

Section LoadShape.

Variable names : list string.

Lemma load_loop_shape (its : list (string * Q)) :
  forall self cart space loaded b self' cart',
  load_from_station_loop its self cart space loaded = Ok (b, self', cart') ->
  0 < space ->
  (forall r a, In (r, a) its ->
               Dict.get (Station.storage (station self)) r = Some a) ->
  NoDup (Dict.keys its) ->
  incl (Dict.keys its) names ->
  nonneg (Station.storage (station self)) ->
  nonneg (Cart.contents cart) ->
  NoDup (Dict.keys (Cart.contents cart)) ->
  incl (Dict.keys (Cart.contents cart)) names ->
  Dict.keys (Station.storage (station self'))
  = Dict.keys (Station.storage (station self))
  /\ nonneg (Station.storage (station self'))
  /\ nonneg (Cart.contents cart')
  /\ NoDup (Dict.keys (Cart.contents cart'))
  /\ incl (Dict.keys (Cart.contents cart')) names
  /\ total (Cart.contents cart') <= total (Cart.contents cart) + space.
Proof.
  induction its as [|[r a] rest IH];
    intros self cart space loaded b self' cart' H Hs H1 Hnd Hin Hns Hnc
      Hndc Hkc.
  - simpl in H. inversion H; subst. repeat split; trivial. lra.
  - inversion Hnd as [|? ? Hnot Hnd']; subst.
    assert (Hr : In r names) by (apply Hin; now left).
    assert (Hin' : incl (Dict.keys rest) names).
    { intros k Hk. apply Hin. now right. }
    assert (H1' : forall r' a', In (r', a') rest ->
                    Dict.get (Station.storage (station self)) r' = Some a').
    { intros r' a' Hi. apply H1. now right. }
    assert (Hspace : Num.leb space 0 = false) by now apply leb_gt.
    simpl in H.
    destruct (if Num.gtb a 0
              then Dict.lookup (resource_selling_enabled self) r
              else Ok false) as [[|]|e] eqn:Hcond; cbn [bind] in H;
      [| |discriminate].
    + assert (Hpos : 0 < a).
      { destruct (Num.gtb a 0) eqn:Hg; [now apply gtb_gt | discriminate]. }
      unfold Dict.lookup in H. rewrite (H1 r a) in H by now left.
      cbn [bind] in H.
      set (q := Num.min a space) in *.
      assert (Hq : 0 < q) by now apply min_pos.
      assert (Hqa : q <= a) by apply min_le_l.
      assert (Hqs : q <= space) by apply min_le_r.
      assert (Hrs : In r (Dict.keys (Station.storage (station self)))).
      { apply get_some_in_keys with a. apply H1. now left. }
      destruct (Num.leb (space - q) 0) eqn:Hleft.
      * inversion H; subst.
        cbn [Cart.contents Cart.set_contents station set_station
               Station.storage Station.set_storage].
        rewrite keys_set_present by trivial.
        repeat split; trivial.
        -- apply nonneg_set; trivial. lra.
        -- apply nonneg_set; trivial.
           pose proof (nonneg_get_default (Cart.contents cart) r Hnc). lra.
        -- now apply keys_set_nodup.
        -- now apply keys_set_within.
        -- rewrite total_set. lra.
      * apply leb_gt in Hleft.
        apply IH in H;
          cbn [Cart.contents Cart.set_contents station set_station
                 Station.storage Station.set_storage] in *; trivial.
        -- rewrite keys_set_present in H by trivial.
           destruct H as [K1 [K2 [K3 [K4 [K5 K6]]]]].
           repeat split; trivial.
           rewrite total_set in K6. lra.
        -- intros r' a' Hi. rewrite get_set_other; [now apply H1'|].
           apply not_in_keys_tail with (rest := rest); trivial.
           now apply in_items_keys with a'.
        -- apply nonneg_set; trivial. lra.
        -- apply nonneg_set; trivial.
           pose proof (nonneg_get_default (Cart.contents cart) r Hnc). lra.
        -- now apply keys_set_nodup.
        -- now apply keys_set_within.
    + rewrite Hspace in H. now apply IH in H.
Qed.

End LoadShape.

(** The load never exceeds the space the loop was entered with. *)
Lemma load_loop_total (its : list (string * Q)) :
  forall self cart space loaded b self' cart',
  load_from_station_loop its self cart space loaded = Ok (b, self', cart') ->
  0 < space ->
  total (Cart.contents cart') <= total (Cart.contents cart) + space.
Proof.
  induction its as [|[r a] rest IH];
    intros self cart space loaded b self' cart' H Hs; simpl in H.
  - inversion H; subst. lra.
  - assert (Hspace : Num.leb space 0 = false) by now apply leb_gt.
    destruct (if Num.gtb a 0
              then Dict.lookup (resource_selling_enabled self) r
              else Ok false) as [[|]|e] eqn:Hcond; cbn [bind] in H;
      [| |discriminate].
    + assert (Hpos : 0 < a).
      { destruct (Num.gtb a 0) eqn:Hg; [now apply gtb_gt | discriminate]. }
      destruct (Dict.lookup (Station.storage (station self)) r)
        as [stored|e]; cbn [bind] in H; [|discriminate].
      set (q := Num.min a space) in *.
      assert (Hq : 0 < q) by now apply min_pos.
      assert (Hqs : q <= space) by apply min_le_r.
      destruct (Num.leb (space - q) 0) eqn:Hleft.
      * inversion H; subst. project. rewrite total_set. lra.
      * apply leb_gt in Hleft. apply IH in H; trivial.
        project. rewrite total_set in H. lra.
    + rewrite Hspace in H. now apply IH in H.
Qed.


(** C4. A full cart loads nothing: [load_from_station] returns [False] and
    changes no state. A cart with room follows the withdrawal plan of the
    specification: in the order of the station's storage, each resource with
    positive stock and enabled sale gives [min(stock, space left)] units, up
    to the exhaustion of the space, so that the cart is never loaded beyond
    its capacity; a resource that is disabled or out of stock is not
    touched, in the station or in the cart; and the result is [True] exactly
    when some unit was moved. *)
Theorem withdrawal_loads_enabled_stock (self : MiningGame.t) (cart : Cart.t) :
  (Cart.is_full cart = true ->
   load_from_station self cart = Ok (false, self, cart))
  /\ (Cart.is_full cart = false ->
      NoDup (Dict.keys (Station.storage (station self))) ->
      (forall r, In r (Dict.keys (Station.storage (station self))) ->
                 In r (Dict.keys (resource_selling_enabled self))) ->
      let plan :=
        withdrawal (resource_selling_enabled self)
          (Station.storage (station self))
          (Cart.capacity cart - Cart.get_contents_amount cart) in
      exists self' cart',
        load_from_station self cart = Ok (nonempty plan, self', cart')
        /\ moved_as plan (Station.storage (station self)) (Cart.contents cart)
             (Station.storage (station self')) (Cart.contents cart')
        /\ self' = set_station self
                     (Station.set_storage (station self)
                        (Station.storage (station self')))
        /\ cart' = Cart.set_contents cart (Cart.contents cart')
        /\ total (Cart.contents cart') <= Cart.capacity cart
        /\ (forall r q,
               Dict.get plan r = Some q ->
               Dict.get (resource_selling_enabled self) r = Some true
               /\ exists amount,
                    Dict.get (Station.storage (station self)) r = Some amount
                    /\ 0 < amount /\ 0 < q /\ q <= amount)
        /\ (nonempty plan = true <->
            exists r q, Dict.get plan r = Some q /\ 0 < q)).
Proof.
  split.
  - intro Hfull. unfold load_from_station. now rewrite Hfull.
  - intros Hroom Hnd Hen plan.
    assert (Hspace : 0 < Cart.capacity cart - Cart.get_contents_amount cart).
    { unfold Cart.is_full in Hroom. apply geb_lt in Hroom.
      unfold Cart.get_contents_amount. lra. }
    destruct (load_loop_spec (Station.storage (station self)) self cart
                (Cart.capacity cart - Cart.get_contents_amount cart) false)
      as [st' [c' [Hrun Hmoved]]]; trivial.
    { intros r a Hin. clear - Hin Hnd.
      induction (Station.storage (station self)) as [|[k v] d IH].
      - contradiction.
      - simpl in Hnd. inversion Hnd as [|? ? Hnot Hnd']; subst.
        simpl. destruct Hin as [Heq|Hin].
        + inversion Heq; subst. now rewrite String.eqb_refl.
        + destruct (String.eqb k r) eqn:E; auto.
          apply String.eqb_eq in E. subst k.
          apply in_items_keys in Hin. contradiction. }
    assert (Hsound : forall r q,
               Dict.get plan r = Some q ->
               Dict.get (resource_selling_enabled self) r = Some true
               /\ exists amount,
                    Dict.get (Station.storage (station self)) r = Some amount
                    /\ 0 < amount /\ 0 < q /\ q <= amount).
    { intros r q. now apply withdrawal_sound. }
    pose proof (load_loop_total _ _ _ _ _ _ _ _ Hrun Hspace) as Htotal.
    project. unfold Cart.get_contents_amount in Htotal.
    fold (total (Cart.contents cart)) in Htotal.
    do 2 eexists. unfold load_from_station. rewrite Hroom.
    unfold Dict.items. rewrite Hrun. cbn [orb].
    split; [reflexivity|]. cbn. repeat split; trivial.
    + change (total c' <= Cart.capacity cart). lra.
    + apply (Hsound r q H).
    + apply (Hsound r q H).
    + fold plan. destruct plan as [|[r q] plan'] eqn:Hplan; [discriminate|].
      intros _. exists r, q.
      assert (Hget : Dict.get ((r, q) :: plan') r = Some q).
      { simpl. now rewrite String.eqb_refl. }
      split; trivial.
      destruct (Hsound r q Hget) as [_ [amount [_ [_ [Hq _]]]]]. exact Hq.
    + intros [r [q [Hget _]]]. fold plan in Hget.
      destruct plan; [discriminate | reflexivity].
Qed.

Lemma withdrawal_loads_enabled_stock_witness :
  exists self' cart',
    load_from_station stocked_game roomy_cart = Ok (true, self', cart')
    /\ Station.storage (station self')
       = [("iron"%string, 3 - 3); ("copper"%string, 7);
          ("gold"%string, 9 - 2)]
    /\ Cart.contents cart'
       = [("gold"%string, 45 + 2); ("iron"%string, 0 + 3)].
Proof.
  destruct (proj2 (withdrawal_loads_enabled_stock stocked_game roomy_cart))
    as [self' [cart' [Hrun _]]].
  - reflexivity.
  - repeat constructor; simpl; intuition discriminate.
  - simpl. intuition.
  - exists self', cart'. split; [exact Hrun|].
    vm_compute in Hrun. inversion Hrun. split; reflexivity.
Defined.

Section SoldOut.

Lemma sold_out_keys (d : Dict.t Q) : Dict.keys (sold_out d) = Dict.keys d.
Proof.
  unfold sold_out, Dict.keys. rewrite map_map. reflexivity.
Qed.

Lemma sold_out_nonneg (d : Dict.t Q) : nonneg d -> nonneg (sold_out d).
Proof.
  unfold nonneg, sold_out. induction 1 as [|[k v] d Hv Hd IH]; simpl.
  - constructor.
  - constructor; trivial. simpl in *. destruct (Num.gtb v 0); lra.
Qed.

Lemma sold_out_total (d : Dict.t Q) :
  nonneg d -> total (sold_out d) <= total d.
Proof.
  unfold nonneg. induction 1 as [|[k v] d Hv Hd IH].
  - apply Qle_refl.
  - change (sold_out ((k, v) :: d))
      with ((k, if Num.gtb v 0 then 0 else v) :: sold_out d).
    rewrite !total_cons. cbn [snd] in Hv.
    destruct (Num.gtb v 0); lra.
Qed.

End SoldOut.

(** ** One cart update keeps the fleet in order *)

Section CartUpdates.

Lemma resource_names_eq :
  resource_names = ["iron"%string; "copper"%string; "gold"%string].
Proof. reflexivity. Qed.

Lemma cart_ok_contents (cap_stat : Q) (cart : Cart.t) (c : Dict.t Q) :
  cart_ok cap_stat cart ->
  incl (Dict.keys c) resource_names ->
  NoDup (Dict.keys c) ->
  nonneg c ->
  total c < Cart.capacity cart + 3 ->
  (Cart.cart_type cart = "market"%string -> total c <= Cart.capacity cart) ->
  (Cart.cart_type cart = "mining"%string -> whole_amounts c) ->
  cart_ok cap_stat (Cart.set_contents cart c).
Proof.
  intros [] ? ? ? ? ? ?. constructor; cbn; assumption.
Qed.

Lemma cart_ok_state (cap_stat : Q) (cart : Cart.t) (s : string) :
  cart_ok cap_stat cart -> cart_ok cap_stat (Cart.set_state cart s).
Proof. intros []. constructor; cbn; assumption. Qed.

Lemma cart_ok_xy (cap_stat : Q) (cart : Cart.t) (vx vy : Q) :
  cart_ok cap_stat cart -> cart_ok cap_stat (Cart.set_xy cart vx vy).
Proof. intros []. constructor; cbn; assumption. Qed.

Lemma station_ok_storage (st : Station.t) (d : Dict.t Q) :
  station_ok st ->
  Dict.keys d = resource_names -> nonneg d ->
  station_ok (Station.set_storage st d).
Proof. intros [] ? ?. constructor; cbn; assumption. Qed.

Lemma station_ok_money (st : Station.t) (m : Q) :
  station_ok st -> station_ok (Station.set_money st m).
Proof. intros []. constructor; cbn; assumption. Qed.

Lemma frame_refl (self : MiningGame.t) : cart_update_frame self self.
Proof. unfold cart_update_frame. now destruct self. Qed.

Lemma frame_trans (a b c : MiningGame.t) :
  cart_update_frame a b -> cart_update_frame b c -> cart_update_frame a c.
Proof.
  unfold cart_update_frame. intros Hab Hbc.
  rewrite Hbc at 1. rewrite Hab at 1. reflexivity.
Qed.

Lemma frame_station (self : MiningGame.t) (st : Station.t) :
  cart_update_frame self (set_station self st).
Proof. unfold cart_update_frame. now destruct self. Qed.

Lemma fleet_ok_frame (self self' : MiningGame.t) :
  cart_update_frame self self' ->
  fleet_ok self -> station_ok (station self') -> fleet_ok self'.
Proof.
  unfold cart_update_frame. intros Hf [] Hst.
  rewrite Hf. constructor; cbn; assumption.
Qed.

Lemma market_ok_frame (self self' : MiningGame.t) :
  cart_update_frame self self' -> market_ok self -> market_ok self'.
Proof.
  unfold cart_update_frame. intros Hf []. rewrite Hf.
  constructor; cbn; assumption.
Qed.

End CartUpdates.

Section MiningCart.

Variables (w : World) (self : MiningGame.t) (cart : Cart.t).
Variables (vertical_offset delta_time cap_stat : Q).
Hypothesis Hfleet : fleet_ok self.
Hypothesis Hcart : cart_ok cap_stat cart.

Lemma frame_random_reads (n : nat) :
  cart_update_frame self (set_random_reads self n).
Proof. unfold cart_update_frame. now destruct self. Qed.

Lemma mined_cart_ok (s : MiningGame.t) (c : Cart.t) :
  Cart.cart_type cart = "mining"%string ->
  Cart.is_full cart = false ->
  mining_loop w (Dict.items (resources self)) self cart delta_time = (s, c) ->
  cart_ok cap_stat c /\ station s = station self /\ cart_update_frame self s.
Proof.
  intros Htype Hroom Hloop.
  destruct (mining_loop_frame _ _ _ _ _ _ _ Hloop) as [Hc Hs].
  destruct (mining_loop_contents resource_names _ _ _ _ _ _ _ Hloop)
    as [K1 [K2 [K3 K4]]]; try apply Hcart.
  { rewrite (ok_resources _ Hfleet). apply incl_refl. }
  rewrite (ok_resources _ Hfleet) in K4.
  change (inject_Z (Z.of_nat (List.length
            (Dict.items (resources (init still_world)))))) with 3 in K4.
  apply geb_lt in Hroom. fold (total (Cart.contents cart)) in Hroom.
  split; [|split].
  - rewrite Hc. apply cart_ok_contents; trivial.
    + lra.
    + rewrite Htype. discriminate.
    + intros _. apply (mining_loop_whole _ _ _ _ _ _ _ Hloop).
      now apply (ok_whole _ _ Hcart).
  - rewrite Hs. reflexivity.
  - rewrite Hs. apply frame_random_reads.
Qed.

Lemma update_mining_cart_ok :
  Cart.cart_type cart = "mining"%string ->
  exists self' cart',
    update_mining_cart w self cart vertical_offset delta_time
    = Ok (self', cart')
    /\ cart_ok cap_stat cart'
    /\ station_ok (station self')
    /\ cart_update_frame self self'.
Proof.
  intro Htype. pose proof (ok_station _ Hfleet) as Hst.
  unfold update_mining_cart.
  destruct (String.eqb (Cart.state cart) "mining").
  - match goal with
    | |- context [Num.ltb ?d POSITION_TOLERANCE] =>
        destruct (Num.ltb d POSITION_TOLERANCE) eqn:E
    end.
    + destruct (Cart.is_full cart) eqn:Hfull; cbn [negb].
      * rewrite Hfull.
        do 2 eexists. split; [reflexivity|]. split; [|split].
        -- apply cart_ok_xy, cart_ok_state, Hcart.
        -- exact Hst.
        -- apply frame_refl.
      * destruct (mining_loop w (Dict.items (resources self)) self cart
                    delta_time) as [s c] eqn:Hloop.
        destruct (mined_cart_ok s c Htype Hfull Hloop) as [Hc [Hs Hf]].
        destruct (Cart.is_full c); do 2 eexists;
          (split; [reflexivity|]); (split; [|split]); trivial;
          try (rewrite Hs; exact Hst).
        apply cart_ok_xy, cart_ok_state, Hc.
    + match goal with
      | |- context [move_towards cart ?dx ?dy ?d delta_time] =>
          destruct (move_towards_far cart dx dy d delta_time E) as [_ ->]
      end.
      do 2 eexists. split; [reflexivity|]. split; [|split]; trivial.
      * apply cart_ok_xy, Hcart.
      * apply frame_refl.
  - destruct (String.eqb (Cart.state cart) "returning").
    + match goal with
      | |- context [Num.ltb ?d POSITION_TOLERANCE] =>
          destruct (Num.ltb d POSITION_TOLERANCE) eqn:E
      end.
      * destruct (transfer_to_station self cart) as [s c] eqn:Ht.
        unfold transfer_to_station in Ht.
        destruct (transfer_loop_frame _ _ _ _ _ Ht) as [Hc Hs].
        destruct (transfer_loop_shape _ _ _ _ _ Ht)
          as [K1 [K2 [K3 [K4 K5]]]]; try apply Hcart; try apply Hst.
        { apply incl_refl. }
        { rewrite (ok_storage_keys _ Hst). apply Hcart. }
        do 2 eexists. split; [reflexivity|]. split; [|split].
        -- apply cart_ok_xy, cart_ok_state. rewrite Hc.
           apply cart_ok_contents; trivial.
           ++ rewrite K1. apply Hcart.
           ++ rewrite K1. apply Hcart.
           ++ pose proof (ok_total _ _ Hcart). lra.
           ++ intro Hm. pose proof (ok_market _ _ Hcart Hm). lra.
           ++ intro Hm. apply (transfer_loop_whole _ _ _ _ _ Ht).
              now apply (ok_whole _ _ Hcart).
        -- rewrite Hs. cbn. apply station_ok_storage; trivial.
           now rewrite K4, (ok_storage_keys _ Hst).
        -- rewrite Hs. apply frame_station.
      * match goal with
      | |- context [move_towards cart ?dx ?dy ?d delta_time] =>
          destruct (move_towards_far cart dx dy d delta_time E) as [_ ->]
      end.
        do 2 eexists. split; [reflexivity|]. split; [|split]; trivial.
        -- apply cart_ok_xy, Hcart.
        -- apply frame_refl.
    + do 2 eexists. split; [reflexivity|]. split; [|split]; trivial.
      apply frame_refl.
Qed.

End MiningCart.

Lemma in_items_get {V : Type} (d : Dict.t V) (k : string) (v : V) :
  NoDup (Dict.keys d) -> In (k, v) d -> Dict.get d k = Some v.
Proof.
  induction d as [|[k' v'] d IH]; simpl; intros Hnd Hin.
  - contradiction.
  - inversion Hnd as [|? ? Hnot Hnd']; subst.
    destruct Hin as [Heq|Hin].
    + inversion Heq; subst. now rewrite String.eqb_refl.
    + destruct (String.eqb k' k) eqn:E; auto.
      apply String.eqb_eq in E. subst k'.
      apply in_items_keys in Hin. contradiction.
Qed.

Lemma resource_names_nodup : NoDup resource_names.
Proof.
  rewrite resource_names_eq.
  repeat constructor; simpl; intuition discriminate.
Qed.

Section MarketCart.

Variables (w : World) (self : MiningGame.t) (cart : Cart.t).
Variables (vertical_offset delta_time cap_stat : Q).
Hypothesis Hfleet : fleet_ok self.
Hypothesis Hcart : cart_ok cap_stat cart.
Hypothesis Htype : Cart.cart_type cart <> "mining"%string.

Lemma load_from_station_ok :
  exists loaded self' cart',
    load_from_station self cart = Ok (loaded, self', cart')
    /\ cart_ok cap_stat cart'
    /\ station_ok (station self')
    /\ cart_update_frame self self'.
Proof.
  pose proof (ok_station _ Hfleet) as Hst.
  unfold load_from_station.
  destruct (Cart.is_full cart) eqn:Hfull.
  - exists false, self, cart. split; [reflexivity|].
    split; [|split]; trivial. apply frame_refl.
  - apply geb_lt in Hfull. fold (total (Cart.contents cart)) in Hfull.
    assert (Hspace : 0 < Cart.capacity cart - Cart.get_contents_amount cart).
    { unfold Cart.get_contents_amount.
      fold (total (Cart.contents cart)). lra. }
    assert (Hnd : NoDup (Dict.keys (Station.storage (station self)))).
    { rewrite (ok_storage_keys _ Hst). apply resource_names_nodup. }
    assert (H1 : forall r a,
               In (r, a) (Station.storage (station self)) ->
               Dict.get (Station.storage (station self)) r = Some a).
    { intros r a. now apply in_items_get. }
    destruct (load_loop_spec (Station.storage (station self)) self cart
                (Cart.capacity cart - Cart.get_contents_amount cart) false)
      as [st' [c' [Hrun _]]]; trivial.
    { intros r Hr. rewrite (ok_enabled_keys _ Hfleet).
      now rewrite <- (ok_storage_keys _ Hst). }
    unfold Dict.items. rewrite Hrun.
    destruct (load_loop_shape resource_names _ _ _ _ _ _ _ _ Hrun)
      as [K1 [K2 [K3 [K4 [K5 K6]]]]]; trivial; try apply Hcart; try apply Hst.
    { rewrite (ok_storage_keys _ Hst). apply incl_refl. }
    cbn [Cart.contents Cart.set_contents station set_station
           Station.storage Station.set_storage] in *.
    do 3 eexists. split; [reflexivity|]. split; [|split].
    + apply cart_ok_contents; trivial.
      * unfold Cart.get_contents_amount in K6.
        fold (total (Cart.contents cart)) in K6.
        destruct (ok_capacity _ _ Hcart). lra.
      * intros _. unfold Cart.get_contents_amount in K6.
        fold (total (Cart.contents cart)) in K6. lra.
      * intro Hm. contradiction.
    + cbn. apply station_ok_storage; trivial.
      now rewrite K1, (ok_storage_keys _ Hst).
    + apply frame_station.
Qed.

Lemma sell_cart_resources_ok :
  exists self' cart',
    sell_cart_resources self cart = Ok (self', cart')
    /\ cart_ok cap_stat cart'
    /\ station_ok (station self')
    /\ cart_update_frame self self'.
Proof.
  pose proof (ok_station _ Hfleet) as Hst.
  destruct (sell_loop_spec (Cart.contents cart) [] self cart eq_refl)
    as [m [Hrun _]].
  - apply Hcart.
  - intros r a Hin _. rewrite (ok_prices_keys _ Hfleet).
    apply (ok_keys _ _ Hcart). now apply in_items_keys with a.
  - unfold sell_cart_resources, Dict.items. rewrite Hrun. cbn [app].
    do 2 eexists. split; [reflexivity|]. split; [|split].
    + pose proof (sold_out_total _ (ok_nonneg _ _ Hcart)) as Ht.
      apply cart_ok_contents; trivial.
      * rewrite sold_out_keys. apply Hcart.
      * rewrite sold_out_keys. apply Hcart.
      * apply sold_out_nonneg, Hcart.
      * pose proof (ok_total _ _ Hcart). lra.
      * intro Hm. pose proof (ok_market _ _ Hcart Hm). lra.
      * intro Hm. contradiction.
    + cbn. now apply station_ok_money.
    + apply frame_station.
Qed.

Lemma update_market_cart_ok :
  exists self' cart',
    update_market_cart w self cart vertical_offset delta_time
    = Ok (self', cart')
    /\ cart_ok cap_stat cart'
    /\ station_ok (station self')
    /\ cart_update_frame self self'.
Proof.
  pose proof (ok_station _ Hfleet) as Hst.
  unfold update_market_cart.
  destruct (String.eqb (Cart.state cart) "loading").
  - match goal with
    | |- context [Num.ltb ?d POSITION_TOLERANCE] =>
        destruct (Num.ltb d POSITION_TOLERANCE) eqn:E
    end.
    + destruct load_from_station_ok
        as [loaded [s [c [-> [Hc [Hs Hf]]]]]].
      cbn [bind].
      destruct loaded; do 2 eexists; (split; [reflexivity|]);
        (split; [|split]); trivial.
      apply cart_ok_xy, cart_ok_state, Hc.
    + match goal with
      | |- context [move_towards cart ?dx ?dy ?d delta_time] =>
          destruct (move_towards_far cart dx dy d delta_time E) as [_ ->]
      end.
      do 2 eexists. split; [reflexivity|]. split; [|split]; trivial.
      * apply cart_ok_xy, Hcart.
      * apply frame_refl.
  - destruct (String.eqb (Cart.state cart) "selling").
    + match goal with
      | |- context [Num.ltb ?d POSITION_TOLERANCE] =>
          destruct (Num.ltb d POSITION_TOLERANCE) eqn:E
      end.
      * destruct sell_cart_resources_ok as [s [c [-> [Hc [Hs Hf]]]]].
        cbn [bind].
        do 2 eexists. split; [reflexivity|]. split; [|split]; trivial.
        apply cart_ok_xy, cart_ok_state, Hc.
      * match goal with
        | |- context [move_towards cart ?dx ?dy ?d delta_time] =>
            destruct (move_towards_far cart dx dy d delta_time E) as [_ ->]
        end.
        do 2 eexists. split; [reflexivity|]. split; [|split]; trivial.
        -- apply cart_ok_xy, Hcart.
        -- apply frame_refl.
    + do 2 eexists. split; [reflexivity|]. split; [|split]; trivial.
      apply frame_refl.
Qed.

End MarketCart.

(** ** The price engine *)

Section PriceEngine.

Lemma base_value_positive (self : MiningGame.t) (r : string)
  (res : Resource.t) :
  resources self = resources (init still_world) ->
  Dict.get (resources self) r = Some res ->
  0 < Resource.base_value res.
Proof.
  intros -> H. cbn in H.
  repeat match type of H with
         | (if ?c then _ else _) = _ => destruct c
         end; inversion H; subst; reflexivity.
Qed.

(** The clamp of [update_market_prices]. *)
Lemma clamp_within_bounds (res : Resource.t) (new_price : Q) :
  0 < Resource.base_value res ->
  price_within_bounds res
    (Num.max (Resource.base_value res * 0.5)
       (Num.min (Resource.base_value res * 2.0) new_price)).
Proof.
  intro Hb. unfold price_within_bounds.
  destruct (max_min_bounds (Resource.base_value res * 0.5)
              (Resource.base_value res * 2.0) new_price) as [H1 H2].
  - lra.
  - split; [exact H1 | lra].
Qed.

Lemma pop0_full (h : list Q) :
  List.length h = PRICE_HISTORY_LENGTH -> pop0 h = Ok (tl h).
Proof. destruct h; [discriminate | reflexivity]. Qed.

Lemma fifo_length (h : list Q) (price : Q) :
  List.length h = PRICE_HISTORY_LENGTH ->
  List.length (tl h ++ [price]) = PRICE_HISTORY_LENGTH.
Proof.
  destruct h as [|v h]; [discriminate|].
  simpl. intro H. rewrite length_app. simpl. lia.
Qed.

End PriceEngine.

Section PriceLoop.

Variable w : World.

Lemma fleet_ok_prices (self : MiningGame.t) (momentum : Dict.t Q)
  (prices : Dict.t Q) (history : Dict.t (list Q)) (n : nat) :
  fleet_ok self ->
  Dict.keys prices = resource_names ->
  fleet_ok
    (set_price_history
       (set_market_prices
          (set_price_momentum (set_random_reads self n) momentum) prices)
       history).
Proof. intros [] ?. constructor; cbn; assumption. Qed.

Lemma update_price_ok (r : string) (self : MiningGame.t) :
  In r resource_names ->
  fleet_ok self ->
  market_ok self ->
  exists self' price h,
    Dict.get (price_history self) r = Some h
    /\ update_price w r self = Ok self'
    /\ fleet_ok self'
    /\ market_ok self'
    /\ Dict.get (market_prices self') r = Some price
    /\ Dict.get (price_history self') r = Some (tl h ++ [price])
    /\ (forall r', r <> r' ->
          Dict.get (market_prices self') r' = Dict.get (market_prices self) r'
          /\ Dict.get (price_history self') r'
             = Dict.get (price_history self) r').
Proof.
  intros Hr Hfleet Hmarket.
  destruct (in_keys_get (price_momentum self) r) as [m Hm].
  { now rewrite (ok_momentum_keys _ Hmarket). }
  destruct (in_keys_get (resources self) r) as [res Hres].
  { now rewrite (ok_resources _ Hfleet). }
  destruct (in_keys_get (market_prices self) r) as [p Hp].
  { now rewrite (ok_prices_keys _ Hfleet). }
  destruct (in_keys_get (price_history self) r) as [h Hh].
  { now rewrite (ok_history_keys _ Hmarket). }
  pose proof (ok_history_length _ Hmarket r h Hh) as Hlen.
  pose proof (base_value_positive self r res (ok_resources _ Hfleet) Hres)
    as Hbase.
  unfold update_price, random_uniform, random_random, Dict.lookup.
  cbn [price_momentum resources market_prices price_history
         set_random_reads set_price_momentum set_market_prices
         set_price_history].
  rewrite Hm. cbn [bind]. rewrite Hres. cbn [bind]. rewrite Hp. cbn [bind].
  rewrite get_set_same. cbn [bind]. rewrite Hh. cbn [bind].
  rewrite (pop0_full h Hlen). cbn [bind].
  rewrite !get_set_same. cbn [bind].
  match goal with
  | |- context [Num.max ?lo ?v] => set (price1 := Num.max lo v)
  end.
  assert (Hbounds : price_within_bounds res price1).
  { unfold price_within_bounds, price1.
    match goal with
    | |- context [Num.min ?hi ?v] =>
        destruct (max_min_bounds (Resource.base_value res * 0.5) hi v)
          as [H1 H2]
    end.
    - lra.
    - split; [exact H1 | lra]. }
  eexists. exists price1, h. split; [reflexivity|]. split; [reflexivity|].
  destruct Hmarket as [M1 M2 M3 M4].
  split; [|split; [|split; [|split]]].
  - apply fleet_ok_prices; trivial.
    rewrite keys_set_present; [apply Hfleet|].
    now rewrite (ok_prices_keys _ Hfleet).
  - constructor; project.
    + rewrite keys_set_present; [exact M1 | now rewrite M1].
    + rewrite !keys_set_present; trivial;
        try rewrite keys_set_present; now rewrite ?M2.
    + intros r' h'. destruct (string_dec r r') as [<-|Hne].
      * rewrite get_set_same. intro E. inversion E; subst.
        now apply fifo_length.
      * rewrite !get_set_other by trivial. apply M3.
    + intros r' res' price'. destruct (string_dec r r') as [<-|Hne].
      * rewrite get_set_same, Hres. intros E1 E2.
        inversion E1; inversion E2; subst. exact Hbounds.
      * rewrite get_set_other by trivial. apply M4.
  - project. apply get_set_same.
  - project. apply get_set_same.
  - intros r' Hne. project. now rewrite !get_set_other.
Qed.

Lemma update_market_prices_loop_ok (ks : list string) :
  forall self,
  incl ks resource_names ->
  NoDup ks ->
  fleet_ok self ->
  market_ok self ->
  exists self',
    update_market_prices_loop w ks self = Ok self'
    /\ fleet_ok self'
    /\ market_ok self'
    /\ fifo_update ks self self'.
Proof.
  induction ks as [|r ks IH]; intros self Hks Hnd Hfleet Hmarket.
  - exists self. split; [reflexivity|]. split; [|split]; trivial.
    intros r h Hh. split; [intros []|]. auto.
  - inversion Hnd as [|? ? Hnot Hnd']; subst.
    assert (Hr : In r resource_names) by (apply Hks; now left).
    assert (Hks' : incl ks resource_names).
    { intros k Hk. apply Hks. now right. }
    destruct (update_price_ok r self Hr Hfleet Hmarket)
      as [self1 [price1 [h [Hh [Hstep [Hfleet1 [Hmarket1 [Hp1 [Hh1 Hother]]]]]]]]].
    destruct (IH self1 Hks' Hnd' Hfleet1 Hmarket1)
      as [self' [Hrun [Hf' [Hm' Hfifo]]]].
    exists self'. cbn [update_market_prices_loop]. rewrite Hstep. cbn [bind].
    split; [exact Hrun|]. split; [|split]; trivial.
    intros r' h' Hh'. destruct (string_dec r r') as [<-|Hne].
    + assert (E : h' = h) by congruence. subst h'.
      destruct (Hfifo r (tl h ++ [price1]) Hh1) as [_ Hout].
      destruct (Hout Hnot) as [Hprice Hhist].
      split.
      * intros _. exists price1. split; trivial. now rewrite Hprice.
      * intros Hn. exfalso. apply Hn. now left.
    + destruct (Hother r' Hne) as [Op Oh].
      destruct (Hfifo r' h') as [Hin Hout].
      { now rewrite Oh. }
      split.
      * intros [Heq|Hi]; [contradiction | auto].
      * intro Hn. destruct Hout as [Hprice Hhist].
        { intro Hi. apply Hn. now right. }
        split; trivial. now rewrite Hprice.
Qed.

End PriceLoop.

Section Timers.

Lemma fleet_ok_clock_reads self n : fleet_ok self -> fleet_ok (set_clock_reads self n).
Proof. intros []. constructor; project; assumption. Qed.

Lemma market_ok_clock_reads self n :
  market_ok self -> market_ok (set_clock_reads self n).
Proof. intros []. constructor; project; assumption. Qed.

Lemma fleet_ok_last_update self v : fleet_ok self -> fleet_ok (set_last_update self v).
Proof. intros []. constructor; project; assumption. Qed.

Lemma market_ok_last_update self v :
  market_ok self -> market_ok (set_last_update self v).
Proof. intros []. constructor; project; assumption. Qed.

Lemma fleet_ok_last_price_update self v :
  fleet_ok self -> fleet_ok (set_last_price_update self v).
Proof. intros []. constructor; project; assumption. Qed.

Lemma market_ok_last_price_update self v :
  market_ok self -> market_ok (set_last_price_update self v).
Proof. intros []. constructor; project; assumption. Qed.

End Timers.

(** One call of [update_market_prices]: when the interval has elapsed every
    history is shifted, otherwise prices and histories stay. *)
Lemma update_market_prices_ok (w : World) (self : MiningGame.t) :
  fleet_ok self ->
  market_ok self ->
  exists self',
    update_market_prices w self = Ok self'
    /\ fleet_ok self'
    /\ market_ok self'
    /\ (Num.geb (clock w (clock_reads self) - last_price_update self)
          (price_update_interval self) = true ->
        fifo_update resource_names self self')
    /\ (Num.geb (clock w (clock_reads self) - last_price_update self)
          (price_update_interval self) = false ->
        market_prices self' = market_prices self
        /\ price_history self' = price_history self).
Proof.
  intros Hfleet Hmarket.
  unfold update_market_prices, time_time. project.
  destruct (Num.geb (clock w (clock_reads self) - last_price_update self)
              (price_update_interval self)) eqn:Hgate.
  - destruct (update_market_prices_loop_ok w
                (Dict.keys (market_prices self))
                (set_clock_reads self (S (clock_reads self))))
      as [self1 [Hrun [Hf [Hm Hfifo]]]].
    + rewrite (ok_prices_keys _ Hfleet). apply incl_refl.
    + rewrite (ok_prices_keys _ Hfleet). apply resource_names_nodup.
    + now apply fleet_ok_clock_reads.
    + now apply market_ok_clock_reads.
    + rewrite Hrun. cbn [bind]. eexists. split; [reflexivity|].
      split; [|split; [|split]].
      * now apply fleet_ok_last_price_update.
      * now apply market_ok_last_price_update.
      * intros _. rewrite (ok_prices_keys _ Hfleet) in Hfifo. exact Hfifo.
      * discriminate.
  - eexists. split; [reflexivity|]. split; [|split; [|split]].
    + now apply fleet_ok_clock_reads.
    + now apply market_ok_clock_reads.
    + discriminate.
    + intros _. split; reflexivity.
Qed.

(** ** The cart loop of [update] *)

Lemma Forall_list_set {A : Type} (P : A -> Prop) (l : list A) (i : nat)
  (v : A) : Forall P l -> P v -> Forall P (list_set l i v).
Proof.
  intros Hl Hv. revert i.
  induction Hl as [|a l Ha Hl IH]; intros [|i]; simpl; constructor; auto.
Qed.

Lemma fleet_ok_set_carts (self : MiningGame.t) (l : list Cart.t) (cap_stat : Q) :
  fleet_ok self ->
  Dict.get (cart_stats self) "capacity" = Some cap_stat ->
  Forall (cart_ok cap_stat) l ->
  fleet_ok (set_carts self l).
Proof.
  intros [F1 F2 F3 F4 F5 [cap0 [Hcap0 [Hge _]]]] Hcap Hl.
  constructor; project; trivial.
  exists cap_stat. split; trivial. split; trivial. congruence.
Qed.

Lemma market_ok_set_carts (self : MiningGame.t) (l : list Cart.t) :
  market_ok self -> market_ok (set_carts self l).
Proof. intros []. constructor; project; assumption. Qed.

Lemma frame_cart_stats (self self' : MiningGame.t) :
  cart_update_frame self self' -> cart_stats self' = cart_stats self.
Proof. unfold cart_update_frame. intros ->. reflexivity. Qed.

Lemma update_carts_loop_ok (w : World) (delta_time cap_stat : Q)
  (todo : list Cart.t) :
  forall (i : nat) (self : MiningGame.t),
  fleet_ok self ->
  market_ok self ->
  Dict.get (cart_stats self) "capacity" = Some cap_stat ->
  Forall (cart_ok cap_stat) todo ->
  exists self',
    update_carts_loop w todo i self delta_time = Ok self'
    /\ fleet_ok self'
    /\ market_ok self'
    /\ market_prices self' = market_prices self
    /\ price_history self' = price_history self.
Proof.
  induction todo as [|cart rest IH]; intros i self Hfleet Hmarket Hcap Htodo.
  - exists self. split; [reflexivity|].
    split; [|split; [|split]]; trivial.
  - inversion Htodo as [|? ? Hcart Hrest]; subst.
    cbn [update_carts_loop].
    assert (Step :
      exists self1 cart1,
        (if String.eqb (Cart.cart_type cart) "mining"
         then update_mining_cart w self cart (inject_Z (Z.of_nat i) * 5)
                delta_time
         else update_market_cart w self cart (inject_Z (Z.of_nat i) * 5)
                delta_time) = Ok (self1, cart1)
        /\ cart_ok cap_stat cart1
        /\ station_ok (station self1)
        /\ cart_update_frame self self1).
    { destruct (String.eqb (Cart.cart_type cart) "mining") eqn:E.
      - apply String.eqb_eq in E. now apply update_mining_cart_ok.
      - apply String.eqb_neq in E. now apply update_market_cart_ok. }
    destruct Step as [self1 [cart1 [-> [Hc1 [Hs1 Hf1]]]]]. cbn [bind].
    pose proof (fleet_ok_frame _ _ Hf1 Hfleet Hs1) as Hfleet1.
    pose proof (market_ok_frame _ _ Hf1 Hmarket) as Hmarket1.
    pose proof (frame_cart_stats _ _ Hf1) as Hstats.
    assert (Hcap1 : Dict.get (cart_stats self1) "capacity" = Some cap_stat)
      by now rewrite Hstats.
    destruct (IH (S i) (set_carts self1 (list_set (carts self1) i cart1)))
      as [self' [Hrun [Hf' [Hm' [Hp' Hh']]]]]; trivial.
    + apply fleet_ok_set_carts with cap_stat; trivial.
      apply Forall_list_set; trivial.
      destruct (ok_carts _ Hfleet1) as [cap1 [Hcap1' [_ Hall]]].
      assert (cap1 = cap_stat) by congruence. now subst.
    + now apply market_ok_set_carts.
    + exists self'. split; [exact Hrun|].
      split; [|split; [|split]]; trivial.
      * rewrite Hp'. project. unfold cart_update_frame in Hf1.
        rewrite Hf1. reflexivity.
      * rewrite Hh'. project. unfold cart_update_frame in Hf1.
        rewrite Hf1. reflexivity.
Qed.

(** ** One [update] *)

Lemma update_ok (w : World) (self : MiningGame.t) :
  game_ok self -> exists self', update w self = Ok self' /\ game_ok self'.
Proof.
  intros [Hfleet Hmarket]. unfold update, time_time.
  destruct (update_market_prices_ok w
              (set_last_update
                 (set_clock_reads self (S (clock_reads self)))
                 (clock w (clock_reads self))))
    as [self1 [Hrun [Hf1 [Hm1 _]]]].
  - now apply fleet_ok_last_update, fleet_ok_clock_reads.
  - now apply market_ok_last_update, market_ok_clock_reads.
  - rewrite Hrun. cbn [bind].
    destruct (ok_carts _ Hf1) as [cap_stat [Hcap [_ Hall]]].
    destruct (update_carts_loop_ok w
                (clock w (clock_reads self) - last_update self) cap_stat
                (carts self1) 0 self1 Hf1 Hm1 Hcap Hall)
      as [self' [Hloop [Hf' [Hm' _]]]].
    exists self'. split; [exact Hloop | now split].
Qed.

(** ** Clicks *)

Section Clicks.

Variable self : MiningGame.t.
Hypothesis Hfleet : fleet_ok self.
Hypothesis Hmarket : market_ok self.

Lemma fleet_ok_station (st : Station.t) :
  station_ok st -> fleet_ok (set_station self st).
Proof. destruct Hfleet. intro. constructor; project; assumption. Qed.

Lemma market_ok_station (st : Station.t) : market_ok (set_station self st).
Proof. destruct Hmarket. constructor; project; assumption. Qed.

Lemma add_cart_ok (cart_type : string) :
  cart_type = "mining"%string \/ cart_type = "market"%string ->
  exists bought self',
    add_cart self cart_type = Ok (bought, self') /\ game_ok self'.
Proof.
  intro Htype. unfold add_cart.
  destruct (Num.geb (Station.money (station self)) 500).
  2:{ exists false, self. now split. }
  destruct (ok_carts _ Hfleet) as [cap_stat [Hcap [Hge Hall]]].
  destruct (in_keys_get (cart_stats self) "speed") as [speed Hspeed].
  { rewrite (ok_stats_keys _ Hfleet). cbn. tauto. }
  destruct (in_keys_get (cart_stats self) "mining") as [mining Hmining].
  { rewrite (ok_stats_keys _ Hfleet). cbn. tauto. }
  unfold Dict.lookup. project. rewrite Hcap, Hspeed, Hmining. cbn [bind].
  do 2 eexists. split; [reflexivity|]. split.
  - apply fleet_ok_set_carts with cap_stat.
    + apply fleet_ok_station, station_ok_money, Hfleet.
    + exact Hcap.
    + apply Forall_app. split; trivial.
      constructor; [|constructor].
      constructor; project; trivial.
      * split; lra.
      * intros a [].
      * constructor.
      * constructor.
      * unfold total. cbn. lra.
      * intros _. unfold total. cbn. lra.
      * intros _. constructor.
  - apply market_ok_set_carts, market_ok_station.
Qed.

Lemma Forall_update_first {A : Type} (P : A -> Prop) (p : A -> bool)
  (f : A -> A) (l : list A) :
  Forall P l -> (forall a, P a -> P (f a)) -> Forall P (update_first p f l).
Proof.
  intros Hl Hf. induction Hl as [|a l Ha Hl IH]; simpl.
  - constructor.
  - destruct (p a); constructor; auto.
Qed.

Lemma emptied_cart_ok (cap_stat : Q) (cart : Cart.t) (role st : string) :
  role = "mining"%string \/ role = "market"%string ->
  cart_ok cap_stat cart ->
  cart_ok cap_stat
    (Cart.set_contents (Cart.set_state (Cart.set_cart_type cart role) st) []).
Proof.
  intros Hrole [_ [C1 C2] _ _ _ _ _ _]. constructor; project; trivial.
  - split; trivial.
  - intros a [].
  - constructor.
  - constructor.
  - unfold total. cbn. lra.
  - intros _. unfold total. cbn. lra.
  - intros _. constructor.
Qed.

Lemma convert_to_mining_ok : game_ok (convert_to_mining self).
Proof.
  destruct (ok_carts _ Hfleet) as [cap_stat [Hcap [Hge Hall]]].
  unfold convert_to_mining. split.
  - apply fleet_ok_set_carts with cap_stat; trivial.
    apply Forall_update_first; trivial.
    intros cart Hc. apply emptied_cart_ok; auto.
  - now apply market_ok_set_carts.
Qed.

Lemma convert_to_market_ok : game_ok (convert_to_market self).
Proof.
  destruct (ok_carts _ Hfleet) as [cap_stat [Hcap [Hge Hall]]].
  unfold convert_to_market. split.
  - apply fleet_ok_set_carts with cap_stat; trivial.
    apply Forall_update_first; trivial.
    intros cart Hc. apply emptied_cart_ok; auto.
  - now apply market_ok_set_carts.
Qed.

Lemma toggle_resource_ok (resource : string) :
  In resource resource_names ->
  exists self', toggle_resource self resource = Ok self' /\ game_ok self'.
Proof.
  intro Hr. unfold toggle_resource, Dict.lookup.
  destruct (in_keys_get (resource_selling_enabled self) resource)
    as [enabled Hen].
  { now rewrite (ok_enabled_keys _ Hfleet). }
  rewrite Hen. cbn [bind]. eexists. split; [reflexivity|]. split.
  - destruct Hfleet. constructor; project; trivial.
    rewrite keys_set_present; trivial. now rewrite ok_enabled_keys0.
  - destruct Hmarket. constructor; project; assumption.
Qed.

End Clicks.

Section Upgrades.

Variable self : MiningGame.t.
Hypothesis Hfleet : fleet_ok self.
Hypothesis Hmarket : market_ok self.

Lemma cart_ok_speed (cap_stat v : Q) (cart : Cart.t) :
  cart_ok cap_stat cart -> cart_ok cap_stat (Cart.set_speed cart v).
Proof. intros []. constructor; project; assumption. Qed.

Lemma cart_ok_mining_speed (cap_stat v : Q) (cart : Cart.t) :
  cart_ok cap_stat cart -> cart_ok cap_stat (Cart.set_mining_speed cart v).
Proof. intros []. constructor; project; assumption. Qed.

(** A capacity upgrade never shrinks a cart. *)
Lemma cart_ok_capacity (cap_stat : Q) (cart : Cart.t) :
  50 <= cap_stat ->
  cart_ok cap_stat cart ->
  cart_ok (cap_stat * 1.5)
    (Cart.set_capacity cart (Num.int (cap_stat * 1.5))).
Proof.
  intros Hge [C1 [C2 C3] C4 C5 C6 C7 C8 C9].
  assert (Hnew : 0 <= cap_stat * 1.5) by lra.
  pose proof (int_le _ Hnew) as Hle.
  pose proof (int_gt _ Hnew) as Hgt.
  constructor; project; trivial.
  - split; lra.
  - lra.
  - intro Hm. specialize (C8 Hm). lra.
Qed.

Lemma upgrade_ok (upgrade_type : string) :
  In upgrade_type ["capacity"%string; "speed"%string; "mining"%string] ->
  exists bought self',
    upgrade self upgrade_type = Ok (bought, self') /\ game_ok self'.
Proof.
  intro Hut.
  pose proof (ok_station _ Hfleet) as Hst.
  destruct (ok_carts _ Hfleet) as [cap_stat [Hcap [Hge Hall]]].
  destruct (in_keys_get (Station.upgrade_costs (station self)) upgrade_type)
    as [cost Hcost].
  { rewrite (ok_costs_keys _ Hst). cbn. cbn in Hut. tauto. }
  destruct (in_keys_get (cart_stats self) upgrade_type) as [old Hold].
  { rewrite (ok_stats_keys _ Hfleet). exact Hut. }
  unfold upgrade. rewrite Hcost.
  destruct (Num.geb (Station.money (station self)) cost).
  2:{ exists false, self. now split. }
  unfold Dict.lookup, Dict.mem. project.
  rewrite (ok_multipliers _ Hst), Hold.
  assert (Hstation :
    forall m c,
      station_ok
        (Station.set_upgrade_costs (Station.set_money (station self) m)
           (Dict.set (Station.upgrade_costs (station self)) upgrade_type c))).
  { intros m c. destruct Hst as [S1 S2 S3 S4]. constructor; project; trivial.
    rewrite keys_set_present; trivial.
    now apply get_some_in_keys with cost. }
  assert (Hkeys :
    forall v,
      Dict.keys (Dict.set (cart_stats self) upgrade_type v)
      = Dict.keys (cart_stats (init still_world))).
  { intro v. rewrite keys_set_present; [apply Hfleet|].
    now apply get_some_in_keys with old. }
  destruct Hfleet as [F1 F2 F3 F4 F5 F6].
  destruct Hmarket as [M1 M2 M3 M4].
  destruct Hut as [<-|[<-|[<-|[]]]]; cbn [Station.upgrade_multipliers
    Station.init Dict.get String.eqb Ascii.eqb Bool.eqb bind];
    project; do 2 eexists; (split; [reflexivity|]); split;
    constructor; project; trivial.
  - assert (old = cap_stat) by congruence. subst old.
    exists (cap_stat * 1.5). split; [apply get_set_same|]. split; [lra|].
    apply Forall_map. revert Hall. apply Forall_impl.
    intros cart Hc. now apply cart_ok_capacity.
  - exists cap_stat. split; [|split; trivial].
    + rewrite get_set_other; [exact Hcap | discriminate].
    + apply Forall_map. revert Hall. apply Forall_impl.
      intros cart Hc. now apply cart_ok_speed.
  - exists cap_stat. split; [|split; trivial].
    + rewrite get_set_other; [exact Hcap | discriminate].
    + apply Forall_map. revert Hall. apply Forall_impl.
      intros cart Hc. now apply cart_ok_mining_speed.
Qed.

End Upgrades.

(** ** Every state of a run is in order *)

Lemma init_ok (w : World) : game_ok (init w).
Proof.
  split.
  - constructor; try reflexivity.
    + constructor; try reflexivity.
      repeat constructor; cbn; lra.
    + exists 50. split; [reflexivity|]. split; [lra|].
      constructor; [|constructor].
      constructor; cbn; auto.
      * split; lra.
      * intros a [].
      * constructor.
      * constructor.
      * unfold total. cbn. lra.
      * intros _. unfold total. cbn. lra.
      * intros _. constructor.
  - constructor; try reflexivity.
    + intros r h. cbn.
      repeat match goal with
             | |- (if ?c then _ else _) = _ -> _ => destruct c
             end; intro H; inversion H; reflexivity.
    + intros r res price. cbn.
      repeat match goal with
             | |- (if ?c then _ else _) = _ -> _ => destruct c
             end; intros H1 H2; inversion H1; inversion H2; subst;
        unfold price_within_bounds; cbn; lra.
Qed.

Lemma drop_flag_ok (r : result (bool * MiningGame.t)) :
  (exists b self', r = Ok (b, self') /\ game_ok self') ->
  exists self', drop_flag r = Ok self' /\ game_ok self'.
Proof.
  intros [b [self' [-> H]]]. exists self'. now split.
Qed.

Lemma act_ok (w : World) (self : MiningGame.t) (a : action) :
  game_ok self -> exists self', act w self a = Ok self' /\ game_ok self'.
Proof.
  intros [Hfleet Hmarket]. destruct a as [b|]; [|now apply update_ok].
  destruct b; cbn [act on_click].
  - apply drop_flag_ok, add_cart_ok; auto.
  - apply drop_flag_ok, add_cart_ok; auto.
  - eexists. split; [reflexivity | now apply convert_to_mining_ok].
  - eexists. split; [reflexivity | now apply convert_to_market_ok].
  - apply drop_flag_ok, upgrade_ok; cbn; auto.
  - apply drop_flag_ok, upgrade_ok; cbn; auto.
  - apply drop_flag_ok, upgrade_ok; cbn; auto.
  - destruct (Dict.mem (resources self) resource) eqn:E.
    + apply toggle_resource_ok; trivial.
      unfold Dict.mem in E.
      destruct (Dict.get (resources self) resource) eqn:G; [|discriminate].
      apply get_some_in_keys in G.
      now rewrite (ok_resources _ Hfleet) in G.
    + exists self. now split.
Qed.

Lemma play_from_ok (w : World) (l : list action) :
  forall self,
  game_ok self ->
  exists self', play_from w self l = Ok self' /\ game_ok self'.
Proof.
  induction l as [|a l IH]; intros self Hok.
  - exists self. now split.
  - destruct (act_ok w self a Hok) as [self1 [Hact Hok1]].
    destruct (IH self1 Hok1) as [self' [Hrun Hok']].
    exists self'. cbn [play_from]. rewrite Hact. now split.
Qed.

Lemma play_ok (w : World) (l : list action) :
  exists self, play w l = Ok self /\ game_ok self.
Proof. apply play_from_ok, init_ok. Qed.

(** * The invariants of the specification *)

(** C3. After any run of clicks and updates from the new game, and so after
    any number of price updates, every resource has a current price that
    lies between half and twice its base value. *)
Theorem prices_stay_within_bounds (w : World) (l : list action) :
  exists self,
    play w l = Ok self
    /\ forall r res,
         Dict.get (resources self) r = Some res ->
         exists price,
           Dict.get (market_prices self) r = Some price
           /\ Resource.base_value res * 0.5 <= price
           /\ price <= Resource.base_value res * 2.
Proof.
  destruct (play_ok w l) as [self [Hrun [Hfleet Hmarket]]].
  exists self. split; [exact Hrun|].
  intros r res Hres.
  destruct (in_keys_get (market_prices self) r) as [price Hprice].
  { rewrite (ok_prices_keys _ Hfleet).
    apply get_some_in_keys in Hres.
    now rewrite (ok_resources _ Hfleet) in Hres. }
  exists price. split; [exact Hprice|].
  exact (ok_price_bounds _ Hmarket r res price Hres Hprice).
Qed.

(** C8. The price history of every resource always has exactly 50 entries:
    this holds, with the rest of the invariant [game_ok], after any run of
    clicks and updates from the new game. In every state of the invariant,
    whatever its histories hold, a price update that is due drops the
    oldest entry of the history of every resource and appends the new
    current price of the resource, which leaves 50 entries; a price update
    that is not due leaves prices and histories as they are. *)
Theorem price_history_is_a_fifo_of_50 (w : World) :
  (forall l,
      exists self,
        play w l = Ok self
        /\ game_ok self
        /\ forall r,
             In r resource_names ->
             exists h,
               Dict.get (price_history self) r = Some h
               /\ List.length h = PRICE_HISTORY_LENGTH)
  /\ (forall self,
         game_ok self ->
         exists self',
           update_market_prices w self = Ok self'
           /\ game_ok self'
           /\ (price_update_due w self = true ->
               forall r h,
                 In r resource_names ->
                 Dict.get (price_history self) r = Some h ->
                 exists price,
                   Dict.get (market_prices self') r = Some price
                   /\ Dict.get (price_history self') r
                      = Some (tl h ++ [price])
                   /\ List.length (tl h ++ [price]) = PRICE_HISTORY_LENGTH)
           /\ (price_update_due w self = false ->
               market_prices self' = market_prices self
               /\ price_history self' = price_history self)).
Proof.
  split.
  - intro l. destruct (play_ok w l) as [self [Hrun [Hfleet Hmarket]]].
    exists self. split; [exact Hrun|]. split; [now split|].
    intros r Hr.
    destruct (in_keys_get (price_history self) r) as [h Hh].
    { now rewrite (ok_history_keys _ Hmarket). }
    exists h. split; [exact Hh|].
    exact (ok_history_length _ Hmarket r h Hh).
  - intros self [Hfleet Hmarket].
    destruct (update_market_prices_ok w self Hfleet Hmarket)
      as [self' [Hup [Hfleet' [Hmarket' [Hfire Hidle]]]]].
    exists self'. split; [exact Hup|]. split; [now split|]. split.
    + intros Hdue r h Hr Hh.
      destruct (Hfire Hdue r h Hh) as [Hin _].
      destruct (Hin Hr) as [price [Hprice Hhist]].
      exists price. split; [exact Hprice|]. split; [exact Hhist|].
      exact (ok_history_length _ Hmarket' r _ Hhist).
    + exact Hidle.
Qed.

(** C2 (fails on the code). Extraction starts when the cart is below its
    capacity and then tries every resource: a cart with 49 units and a
    capacity of 50 ends the update with 52 units. *)
Lemma extraction_overfills_cart :
  exists self' cart',
    update_mining_cart still_world (init still_world) almost_full_cart 0
      one_frame = Ok (self', cart')
    /\ total (Cart.contents almost_full_cart)
       <= Cart.capacity almost_full_cart
    /\ total (Cart.contents cart') == 52
    /\ ~ total (Cart.contents cart') <= Cart.capacity cart'.
Proof.
  do 2 eexists. split; [vm_compute; reflexivity|].
  split; [|split]; vm_compute; congruence.
Qed.

(** C2, amended. After any run of clicks and updates from the new game, the
    contents of every cart total less than its capacity plus 3 (the number
    of resources), and the contents of a market cart total at most its
    capacity. *)
Theorem cart_load_stays_near_capacity (w : World) (l : list action) :
  exists self,
    play w l = Ok self
    /\ Forall
         (fun cart =>
            total (Cart.contents cart) < Cart.capacity cart + 3
            /\ (Cart.cart_type cart = "market"%string ->
                total (Cart.contents cart) <= Cart.capacity cart))
         (carts self).
Proof.
  destruct (play_ok w l) as [self [Hrun [Hfleet _]]].
  exists self. split; [exact Hrun|].
  destruct (ok_carts _ Hfleet) as [cap_stat [_ [_ Hall]]].
  revert Hall. apply Forall_impl. intros cart Hc. split.
  - exact (ok_total _ _ Hc).
  - exact (ok_market _ _ Hc).
Qed.

(** The bound of C10 for carts whose capacity is a whole number: after any
    run of clicks and updates from the new game, such a cart holds at most
    its capacity plus 2. *)
Lemma whole_capacity_bound (w : World) (l : list action) :
  exists self,
    play w l = Ok self
    /\ Forall
         (fun cart =>
            whole (Cart.capacity cart) ->
            total (Cart.contents cart) <= Cart.capacity cart + 2)
         (carts self).
Proof.
  destruct (play_ok w l) as [self [Hrun [Hfleet _]]].
  exists self. split; [exact Hrun|].
  destruct (ok_carts _ Hfleet) as [cap_stat [_ [_ Hall]]].
  revert Hall. apply Forall_impl. intros cart Hc Hwhole.
  destruct (ok_type _ _ Hc) as [Hm|Hm].
  - apply whole_below; trivial.
    + apply whole_total. exact (ok_whole _ _ Hc Hm).
    + exact (ok_total _ _ Hc).
  - pose proof (ok_market _ _ Hc Hm). lra.
Qed.

(** C10 (fails on the code). Two capacity upgrades bring the global capacity
    stat to 112.5; [add_cart] gives that value, not its integer part, to the
    cart it creates. With 112 units on board such a cart is not full, and
    one update on the mine in which the three extractions succeed leaves it
    with 115 units, more than its capacity plus 2. *)
Theorem fractional_capacity_exceeds_bound :
  exists game cart self' cart',
    play_from still_world rich_game
      [Click upgrade_capacity; Click upgrade_capacity; Click new_mining_cart]
    = Ok game
    /\ nth_error (carts game) 1 = Some cart
    /\ Cart.capacity cart == 112.5
    /\ Cart.is_full (loaded_on_mine cart) = false
    /\ update_mining_cart still_world game (loaded_on_mine cart) 5 one_frame
       = Ok (self', cart')
    /\ Cart.capacity cart' == 112.5
    /\ total (Cart.contents cart') == 115
    /\ ~ total (Cart.contents cart') <= Cart.capacity cart' + 2.
Proof.
  do 4 eexists.
  split; [vm_compute; reflexivity|].
  split; [reflexivity|].
  split; [reflexivity|].
  split; [reflexivity|].
  split; [vm_compute; reflexivity|].
  split; [reflexivity|].
  split; [reflexivity|].
  vm_compute. congruence.
Qed.

(** ** The invariants on one run *)

Lemma prices_stay_within_bounds_witness :
  exists self price,
    play ticking_world [Tick] = Ok self
    /\ Dict.get (market_prices self) "gold" = Some price
    /\ 50 * 0.5 <= price
    /\ price <= 50 * 2.
Proof.
  destruct (prices_stay_within_bounds ticking_world [Tick])
    as [self [Hrun Hall]].
  destruct (Hall "gold"%string
              {| Resource.name := "Gold"; Resource.base_value := 50;
                 Resource.rarity := 0.2 |})
    as [price [Hprice Hbounds]].
  - vm_compute in Hrun. inversion Hrun. reflexivity.
  - exists self, price. split; [exact Hrun|]. split; [exact Hprice|].
    exact Hbounds.
Defined.

Lemma counted_game_ok : game_ok counted_game.
Proof.
  destruct (init_ok ticking_world) as [Hfleet [M1 M2 M3 M4]].
  split.
  - destruct Hfleet. constructor; assumption.
  - constructor.
    + exact M1.
    + reflexivity.
    + intros r h H. unfold counted_game in H. project.
      destruct (String.eqb "iron" r) eqn:E.
      * apply String.eqb_eq in E. subst r.
        rewrite get_set_same in H. inversion H. reflexivity.
      * apply String.eqb_neq in E.
        rewrite get_set_other in H by exact E. exact (M3 r h H).
    + exact M4.
Qed.

Lemma price_history_is_a_fifo_of_50_witness :
  exists self' price,
    update_market_prices ticking_world counted_game = Ok self'
    /\ Dict.get (price_history counted_game) "iron" = Some counting
    /\ Dict.get (market_prices self') "iron" = Some price
    /\ price == 9.91
    /\ Dict.get (price_history self') "iron"
       = Some (tl counting ++ [price])
    /\ List.length (tl counting ++ [price]) = PRICE_HISTORY_LENGTH.
Proof.
  destruct (proj2 (price_history_is_a_fifo_of_50 ticking_world)
              counted_game counted_game_ok)
    as [self' [Hup [_ [Hfire _]]]].
  destruct (Hfire eq_refl "iron"%string counting)
    as [price [Hprice [Hhist Hlen]]].
  - left. reflexivity.
  - reflexivity.
  - exists self', price. split; [exact Hup|]. split; [reflexivity|].
    split; [exact Hprice|]. split; [|split; [exact Hhist | exact Hlen]].
    vm_compute in Hup. inversion Hup; subst self'.
    vm_compute in Hprice. inversion Hprice. reflexivity.
Defined.

Lemma cart_load_stays_near_capacity_witness :
  exists self cart,
    play still_world [Click new_market_cart] = Ok self
    /\ nth_error (carts self) 1 = Some cart
    /\ total (Cart.contents cart) <= Cart.capacity cart.
Proof.
  destruct (cart_load_stays_near_capacity still_world
              [Click new_market_cart]) as [self [Hrun Hall]].
  assert (Hcarts :
    exists mining_cart market_cart,
      carts self = [mining_cart; market_cart]
      /\ Cart.cart_type market_cart = "market"%string).
  { vm_compute in Hrun. inversion Hrun. do 2 eexists.
    split; reflexivity. }
  destruct Hcarts as [mining_cart [market_cart [Hcarts Htype]]].
  rewrite Hcarts in Hall.
  inversion Hall as [|? ? _ Hrest]; subst.
  inversion Hrest as [|? ? [_ Hmarket] _]; subst.
  exists self, market_cart. split; [exact Hrun|]. split.
  - now rewrite Hcarts.
  - exact (Hmarket Htype).
Defined.

(** * Further properties of the simulation core *)

(** ** Transfer: nothing is created, the capacity is a ceiling *)

Section TransferUnits.

Lemma get_default_set_same {V : Type} (d : Dict.t V) (k : string) (v x : V) :
  Dict.get_default (Dict.set d k v) k x = v.
Proof. unfold Dict.get_default. now rewrite get_set_same. Qed.

Lemma get_default_set_other {V : Type} (d : Dict.t V) (k k' : string)
  (v x : V) :
  k <> k' -> Dict.get_default (Dict.set d k v) k' x = Dict.get_default d k' x.
Proof. intro H. unfold Dict.get_default. now rewrite get_set_other. Qed.

Lemma in_items_get_default (d : Dict.t Q) (k : string) (v : Q) :
  NoDup (Dict.keys d) -> In (k, v) d -> Dict.get_default d k 0 = v.
Proof.
  intros Hnd Hin. unfold Dict.get_default.
  now rewrite (in_items_get d k v Hnd Hin).
Qed.

(** The loop on the items [its] that remain: no resource gains units over
    cart and station together, and the station is not filled beyond its
    capacity. *)
Lemma transfer_loop_units (its : list (string * Q)) :
  forall self cart self' cart',
  transfer_to_station_loop its self cart = (self', cart') ->
  (forall k a, In (k, a) its ->
               Dict.get_default (Cart.contents cart) k 0 = a) ->
  NoDup (Dict.keys its) ->
  (forall r, units_of r self' cart' <= units_of r self cart)
  /\ total (Station.storage (station self))
     <= total (Station.storage (station self'))
  /\ (total (Station.storage (station self))
      <= Station.storage_capacity (station self) ->
      total (Station.storage (station self'))
      <= Station.storage_capacity (station self)).
Proof.
  induction its as [|[k a] rest IH]; intros self cart self' cart' H Hlive Hnd.
  - simpl in H. inversion H; subst. repeat split; intros; lra.
  - inversion Hnd as [|? ? Hnot Hnd']; subst. simpl in H.
    fold (total (Station.storage (station self))) in H.
    set (free := Station.storage_capacity (station self)
                 - total (Station.storage (station self))) in *.
    destruct (Num.gtb (Num.min a free) 0) eqn:Hpos.
    + apply gtb_gt in Hpos.
      pose proof (min_le_l a free) as Hta.
      pose proof (min_le_r a free) as Htf.
      apply IH in H; trivial.
      * project. destruct H as [Hunits [Hgrow Hcap]].
        rewrite total_set in Hgrow, Hcap.
        split; [|split].
        -- intro r. specialize (Hunits r). unfold units_of in *. project.
           destruct (string_dec k r) as [<-|Hne].
           ++ rewrite !get_default_set_same in Hunits.
              rewrite (Hlive k a) by now left. lra.
           ++ rewrite !get_default_set_other in Hunits by trivial. exact Hunits.
        -- lra.
        -- intro Hle. apply Hcap.
           assert (Hf : free == Station.storage_capacity (station self)
                             - total (Station.storage (station self)))
             by (unfold free; reflexivity).
           lra.
      * intros k' a' Hin. project. rewrite get_default_set_other.
        -- apply Hlive. now right.
        -- apply not_in_keys_tail with (rest := rest); trivial.
           now apply in_items_keys with a'.
    + apply IH in H; trivial.
      intros k' a' Hin. apply Hlive. now right.
Qed.

End TransferUnits.

(** X1. [transfer_to_station] creates nothing: for every resource, cart and
    station together hold at most the units they held before; the station
    never loses stock; and a station within its capacity stays within it. *)
Theorem transfer_creates_nothing (self : MiningGame.t) (cart : Cart.t) :
  NoDup (Dict.keys (Cart.contents cart)) ->
  forall self' cart',
  transfer_to_station self cart = (self', cart') ->
  (forall r, units_of r self' cart' <= units_of r self cart)
  /\ total (Station.storage (station self))
     <= total (Station.storage (station self'))
  /\ (total (Station.storage (station self))
      <= Station.storage_capacity (station self) ->
      total (Station.storage (station self'))
      <= Station.storage_capacity (station self'))
  /\ Station.storage_capacity (station self')
     = Station.storage_capacity (station self).
Proof.
  intros Hnd self' cart' Hrun. unfold transfer_to_station, Dict.items in Hrun.
  destruct (transfer_loop_frame _ _ _ _ _ Hrun) as [_ Hs].
  assert (Hcap : Station.storage_capacity (station self')
                 = Station.storage_capacity (station self)).
  { rewrite Hs. reflexivity. }
  destruct (transfer_loop_units _ _ _ _ _ Hrun) as [H1 [H2 H3]]; trivial.
  - intros k a. now apply in_items_get_default.
  - rewrite Hcap. auto.
Qed.

Lemma transfer_creates_nothing_witness :
  exists self' cart',
    transfer_to_station (nearly_full_station still_world) cart_with_iron
    = (self', cart')
    /\ units_of "iron" self' cart'
       <= units_of "iron" (nearly_full_station still_world) cart_with_iron
    /\ total (Station.storage (station self')) <= 1000.
Proof.
  destruct (transfer_to_station (nearly_full_station still_world)
              cart_with_iron) as [self' cart'] eqn:Hrun.
  exists self', cart'. split; [reflexivity|].
  destruct (transfer_creates_nothing (nearly_full_station still_world)
              cart_with_iron) with (self' := self') (cart' := cart')
    as [Hunits [_ [Hcap Hsame]]].
  - repeat constructor. intros [].
  - exact Hrun.
  - split; [apply Hunits|].
    rewrite Hsame in Hcap. apply Hcap. vm_compute. discriminate.
Defined.

Section TransferWithRoom.

Lemma sold_out_total_zero (d : Dict.t Q) : nonneg d -> total (sold_out d) == 0.
Proof.
  unfold nonneg. induction 1 as [|[k v] d Hv Hd IH].
  - reflexivity.
  - change (sold_out ((k, v) :: d))
      with ((k, if Num.gtb v 0 then 0 else v) :: sold_out d).
    rewrite total_cons, IH. cbn [snd] in Hv.
    destruct (Num.gtb v 0) eqn:E; [lra|].
    apply gtb_le in E. lra.
Qed.

Lemma nonneg_app (a b : Dict.t Q) : nonneg (a ++ b) -> nonneg b.
Proof. unfold nonneg. intro H. apply Forall_app in H. tauto. Qed.

(** With room for everything that remains, the loop moves each amount
    whole. *)
Lemma transfer_loop_room (its pre : list (string * Q)) :
  forall self cart self' cart',
  transfer_to_station_loop its self cart = (self', cart') ->
  Cart.contents cart = pre ++ its ->
  NoDup (Dict.keys (pre ++ its)) ->
  nonneg its ->
  total its
  <= Station.storage_capacity (station self)
     - total (Station.storage (station self)) ->
  Cart.contents cart' = pre ++ sold_out its
  /\ forall r, units_of r self' cart' == units_of r self cart.
Proof.
  revert pre.
  induction its as [|[k a] rest IH];
    intros pre self cart self' cart' H Hc Hnd Hnn Hroom.
  - simpl in H. inversion H; subst. split; [exact Hc | reflexivity].
  - inversion Hnn as [|? ? Ha Hnn']; subst. cbn [snd] in Ha.
    rewrite total_cons in Hroom.
    pose proof (nonneg_total rest Hnn') as Hrest.
    assert (Hk : ~ In k (Dict.keys pre)).
    { rewrite keys_app in Hnd. apply NoDup_remove_2 in Hnd.
      intro Hin. apply Hnd. apply in_or_app. now left. }
    assert (Hlive : Dict.get_default (Cart.contents cart) k 0 = a).
    { apply in_items_get_default.
      - now rewrite Hc.
      - rewrite Hc. apply in_or_app. right. now left. }
    simpl in H. fold (total (Station.storage (station self))) in H.
    set (free := Station.storage_capacity (station self)
                 - total (Station.storage (station self))) in *.
    assert (Hmin : Num.min a free = a).
    { unfold Num.min. destruct (Num.ltb free a) eqn:E; trivial.
      apply ltb_lt in E. lra. }
    rewrite Hmin in H.
    change (sold_out ((k, a) :: rest))
      with ((k, if Num.gtb a 0 then 0 else a) :: sold_out rest).
    destruct (Num.gtb a 0) eqn:Hpos.
    + apply (IH (pre ++ [(k, 0)])) in H; project.
      * destruct H as [Hc' Hunits]. rewrite <- app_assoc in Hc'.
        split; [exact Hc'|].
        intro r. rewrite (Hunits r). unfold units_of. project.
        destruct (string_dec k r) as [<-|Hne].
        -- rewrite !get_default_set_same, Hlive. lra.
        -- rewrite !get_default_set_other by trivial. reflexivity.
      * rewrite Hc, set_in_place by trivial. now rewrite <- app_assoc.
      * rewrite <- app_assoc. cbn [app]. rewrite keys_app in *. exact Hnd.
      * exact Hnn'.
      * rewrite total_set. unfold free in Hroom. lra.
    + apply gtb_le in Hpos.
      apply (IH (pre ++ [(k, a)])) in H.
      * destruct H as [Hc' Hunits]. rewrite <- app_assoc in Hc'.
        split; [exact Hc' | exact Hunits].
      * now rewrite <- app_assoc.
      * now rewrite <- app_assoc.
      * exact Hnn'.
      * unfold free in Hroom. lra.
Qed.

End TransferWithRoom.

(** X2. When the station has room for the whole load of the cart,
    [transfer_to_station] empties the cart and moves every unit: for every
    resource the units over cart and station are conserved. *)
Theorem transfer_with_room_conserves (self : MiningGame.t) (cart : Cart.t) :
  NoDup (Dict.keys (Cart.contents cart)) ->
  nonneg (Cart.contents cart) ->
  total (Cart.contents cart)
  <= Station.storage_capacity (station self)
     - total (Station.storage (station self)) ->
  forall self' cart',
  transfer_to_station self cart = (self', cart') ->
  total (Cart.contents cart') == 0
  /\ Dict.keys (Cart.contents cart') = Dict.keys (Cart.contents cart)
  /\ forall r, units_of r self' cart' == units_of r self cart.
Proof.
  intros Hnd Hnn Hroom self' cart' Hrun.
  unfold transfer_to_station, Dict.items in Hrun.
  destruct (transfer_loop_room _ [] _ _ _ _ Hrun) as [Hc Hunits]; trivial.
  cbn [app] in Hc. rewrite Hc. split; [|split]; trivial.
  - now apply sold_out_total_zero.
  - apply sold_out_keys.
Qed.

Lemma transfer_with_room_conserves_witness :
  exists self' cart',
    transfer_to_station (init still_world) cart_with_iron = (self', cart')
    /\ total (Cart.contents cart') == 0
    /\ units_of "iron" self' cart' == 10.
Proof.
  destruct (transfer_to_station (init still_world) cart_with_iron)
    as [self' cart'] eqn:Hrun.
  exists self', cart'. split; [reflexivity|].
  destruct (transfer_with_room_conserves (init still_world) cart_with_iron)
    with (self' := self') (cart' := cart') as [Hzero [_ Hunits]].
  - repeat constructor. intros [].
  - repeat constructor. cbn. lra.
  - vm_compute. discriminate.
  - exact Hrun.
  - split; [exact Hzero|]. rewrite (Hunits "iron"%string). reflexivity.
Defined.

(** ** Withdrawal: conservation, greed and backpressure *)

Lemma storage_items_live (self : MiningGame.t) :
  NoDup (Dict.keys (Station.storage (station self))) ->
  forall r a,
    In (r, a) (Station.storage (station self)) ->
    Dict.get (Station.storage (station self)) r = Some a.
Proof. intros Hnd r a. now apply in_items_get. Qed.

(** X3. [load_from_station] moves units and neither creates nor loses any:
    for every resource the units over cart and station are conserved, and
    everything but the station's storage and the cart's contents is left as
    it was. *)
Theorem withdrawal_conserves_units (self : MiningGame.t) (cart : Cart.t) :
  NoDup (Dict.keys (Station.storage (station self))) ->
  (forall r, In r (Dict.keys (Station.storage (station self))) ->
             In r (Dict.keys (resource_selling_enabled self))) ->
  exists loaded self' cart',
    load_from_station self cart = Ok (loaded, self', cart')
    /\ (forall r, units_of r self' cart' == units_of r self cart)
    /\ self' = set_station self
                 (Station.set_storage (station self)
                    (Station.storage (station self')))
    /\ cart' = Cart.set_contents cart (Cart.contents cart').
Proof.
  intros Hnd Hen. unfold load_from_station.
  destruct (Cart.is_full cart) eqn:Hfull.
  - exists false, self, cart. split; [reflexivity|]. split; [reflexivity|].
    now rewrite set_storage_same, set_station_same, set_contents_same.
  - assert (Hspace : 0 < Cart.capacity cart - Cart.get_contents_amount cart).
    { unfold Cart.is_full in Hfull. apply geb_lt in Hfull.
      unfold Cart.get_contents_amount. lra. }
    destruct (load_loop_spec (Station.storage (station self)) self cart
                (Cart.capacity cart - Cart.get_contents_amount cart) false)
      as [st' [c' [Hrun Hmoved]]]; trivial.
    { now apply storage_items_live. }
    unfold Dict.items. rewrite Hrun. do 3 eexists.
    split; [reflexivity|]. project. split; [|split; reflexivity].
    intro r. specialize (Hmoved r). unfold units_of, Dict.get_default. project.
    destruct (Dict.get (withdrawal (resource_selling_enabled self)
                          (Station.storage (station self))
                          (Cart.capacity cart
                           - Cart.get_contents_amount cart)) r) as [q|].
    + destruct Hmoved as [[a [Ha Ha']] Hc].
      rewrite Ha, Ha', Hc. unfold Dict.get_default. lra.
    + destruct Hmoved as [-> ->]. reflexivity.
Qed.

Lemma withdrawal_conserves_units_witness :
  exists loaded self' cart',
    load_from_station stocked_game roomy_cart = Ok (loaded, self', cart')
    /\ units_of "gold" self' cart' == 54
    /\ units_of "copper" self' cart' == 7.
Proof.
  destruct (withdrawal_conserves_units stocked_game roomy_cart)
    as [loaded [self' [cart' [Hrun [Hunits _]]]]].
  - repeat constructor; simpl; intuition discriminate.
  - simpl. intuition.
  - exists loaded, self', cart'. split; [exact Hrun|].
    rewrite !Hunits. split; reflexivity.
Defined.

Section Greed.

(** The loop either uses up the space it was entered with or takes the whole
    stock of every enabled resource it visits. *)
Lemma load_loop_greedy (its : list (string * Q)) :
  forall self cart space loaded b self' cart',
  load_from_station_loop its self cart space loaded = Ok (b, self', cart') ->
  0 < space ->
  (forall r a, In (r, a) its ->
               Dict.get (Station.storage (station self)) r = Some a) ->
  NoDup (Dict.keys its) ->
  (forall r, In r (Dict.keys its) ->
             In r (Dict.keys (resource_selling_enabled self))) ->
  total (Cart.contents cart') == total (Cart.contents cart) + space
  \/ (forall r a,
         In (r, a) its -> 0 < a ->
         Dict.get (resource_selling_enabled self) r = Some true ->
         exists v,
           Dict.get (Station.storage (station self')) r = Some v /\ v == 0).
Proof.
  induction its as [|[r0 a0] rest IH];
    intros self cart space loaded b self' cart' H Hs H1 Hnd H3.
  - right. intros r a [].
  - inversion Hnd as [|? ? Hnot Hnd']; subst.
    assert (Hspace : Num.leb space 0 = false) by now apply leb_gt.
    assert (H1' : forall r a, In (r, a) rest ->
                    Dict.get (Station.storage (station self)) r = Some a).
    { intros r a Hin. apply H1. now right. }
    assert (H3' : forall r, In r (Dict.keys rest) ->
                    In r (Dict.keys (resource_selling_enabled self))).
    { intros r Hr. apply H3. now right. }
    assert (Skip :
      (Num.gtb a0 0 = false
       \/ Dict.get (resource_selling_enabled self) r0 = Some false) ->
      load_from_station_loop rest self cart space loaded
      = Ok (b, self', cart') ->
      total (Cart.contents cart') == total (Cart.contents cart) + space
      \/ (forall r a,
             In (r, a) ((r0, a0) :: rest) -> 0 < a ->
             Dict.get (resource_selling_enabled self) r = Some true ->
             exists v,
               Dict.get (Station.storage (station self')) r = Some v
               /\ v == 0)).
    { intros Hoff Hrun.
      destruct (IH _ _ _ _ _ _ _ Hrun Hs H1' Hnd' H3') as [Hfull|Hall];
        [now left | right].
      intros r a [Heq|Hin] Ha Hen; [|now apply Hall with a].
      inversion Heq; subst. destruct Hoff as [Hoff|Hoff].
      - apply gtb_le in Hoff. lra.
      - congruence. }
    simpl in H.
    destruct (Num.gtb a0 0) eqn:Hpos; cbn [bind] in H.
    2:{ rewrite Hspace in H. apply Skip; auto. }
    destruct (in_keys_get (resource_selling_enabled self) r0) as [en Hen].
    { apply H3. now left. }
    unfold Dict.lookup in H at 1. rewrite Hen in H. cbn [bind] in H.
    destruct en.
    2:{ cbn [bind] in H. rewrite Hspace in H. apply Skip; auto. }
    unfold Dict.lookup in H. rewrite (H1 r0 a0) in H by now left.
    cbn [bind] in H. apply gtb_gt in Hpos.
    set (q := Num.min a0 space) in *.
    assert (Hqs : q <= space) by apply min_le_r.
    destruct (Num.leb (space - q) 0) eqn:Hleft.
    + apply leb_le in Hleft. inversion H; subst. left. project.
      rewrite total_set. lra.
    + apply leb_gt in Hleft.
      assert (Hq : q = a0).
      { unfold q, Num.min in *. destruct (Num.ltb space a0); trivial. lra. }
      set (self1 :=
        set_station self
          (Station.set_storage (station self)
             (Dict.set (Station.storage (station self)) r0 (a0 - q)))) in *.
      set (cart1 :=
        Cart.set_contents cart
          (Dict.set (Cart.contents cart) r0
             (Dict.get_default (Cart.contents cart) r0 0 + q))) in *.
      assert (H1s : forall r a, In (r, a) rest ->
                      Dict.get (Station.storage (station self1)) r = Some a).
      { intros r a Hin. unfold self1. project. rewrite get_set_other.
        - now apply H1'.
        - apply not_in_keys_tail with (rest := rest); trivial.
          now apply in_items_keys with a. }
      destruct (load_loop_spec rest self1 cart1 (space - q) true H1s Hnd' H3'
                  Hleft) as [st' [c' [Hrun Hmoved]]].
      rewrite Hrun in H. inversion H; subst b self' cart'. clear H.
      destruct (IH _ _ _ _ _ _ _ Hrun Hleft H1s Hnd' H3') as [Hfull|Hall].
      * left. rewrite Hfull. unfold cart1. project. rewrite total_set. lra.
      * right. intros r a [Heq|Hin] Ha Hon; [|now apply Hall with a].
        inversion Heq; subst r a. specialize (Hmoved r0).
        destruct (Dict.get (withdrawal (resource_selling_enabled self1) rest
                              (space - q)) r0) eqn:Hplan.
        { apply withdrawal_keys in Hplan. contradiction. }
        destruct Hmoved as [Hst _]. project. unfold self1 in Hst. project.
        rewrite get_set_same in Hst. exists (a0 - q).
        split; [exact Hst | rewrite Hq; lra].
Qed.

End Greed.

(** X4. A cart with room leaves the station either exactly full or with the
    whole stock of every enabled resource: [load_from_station] never stops
    early. *)
Theorem withdrawal_is_greedy (self : MiningGame.t) (cart : Cart.t) :
  Cart.is_full cart = false ->
  NoDup (Dict.keys (Station.storage (station self))) ->
  (forall r, In r (Dict.keys (Station.storage (station self))) ->
             In r (Dict.keys (resource_selling_enabled self))) ->
  exists loaded self' cart',
    load_from_station self cart = Ok (loaded, self', cart')
    /\ (total (Cart.contents cart') == Cart.capacity cart
        \/ forall r a,
             Dict.get (Station.storage (station self)) r = Some a ->
             0 < a ->
             Dict.get (resource_selling_enabled self) r = Some true ->
             exists v,
               Dict.get (Station.storage (station self')) r = Some v
               /\ v == 0).
Proof.
  intros Hroom Hnd Hen.
  assert (Hspace : 0 < Cart.capacity cart - Cart.get_contents_amount cart).
  { unfold Cart.is_full in Hroom. apply geb_lt in Hroom.
    unfold Cart.get_contents_amount. lra. }
  pose proof (storage_items_live self Hnd) as H1.
  destruct (load_loop_spec (Station.storage (station self)) self cart
              (Cart.capacity cart - Cart.get_contents_amount cart) false)
    as [st' [c' [Hrun _]]]; trivial.
  unfold load_from_station. rewrite Hroom. unfold Dict.items. rewrite Hrun.
  do 3 eexists. split; [reflexivity|].
  destruct (load_loop_greedy _ _ _ _ _ _ _ _ Hrun Hspace H1 Hnd Hen)
    as [Hfull|Hall].
  - left. rewrite Hfull. unfold Cart.get_contents_amount, total. lra.
  - right. intros r a Hget Ha Hon. apply Hall with a; trivial.
    clear - Hget. induction (Station.storage (station self)) as [|[k v] d IH].
    + discriminate.
    + simpl in Hget. destruct (String.eqb k r) eqn:E.
      * apply String.eqb_eq in E. inversion Hget; subst. now left.
      * right. auto.
Qed.

Lemma withdrawal_is_greedy_witness :
  exists loaded self' cart',
    load_from_station stocked_game roomy_cart = Ok (loaded, self', cart')
    /\ (total (Cart.contents cart') == 50
        \/ forall r a,
             Dict.get (Station.storage (station stocked_game)) r = Some a ->
             0 < a ->
             Dict.get (resource_selling_enabled stocked_game) r = Some true ->
             exists v,
               Dict.get (Station.storage (station self')) r = Some v
               /\ v == 0).
Proof.
  apply (withdrawal_is_greedy stocked_game roomy_cart).
  - reflexivity.
  - repeat constructor; simpl; intuition discriminate.
  - simpl. intuition.
Defined.

Section Backpressure.

Lemma load_loop_nothing (its : list (string * Q)) :
  forall self cart space loaded,
  nothing_sellable (resource_selling_enabled self) its ->
  0 < space ->
  load_from_station_loop its self cart space loaded = Ok (loaded, self, cart).
Proof.
  induction its as [|[r a] rest IH]; intros self cart space loaded Hn Hs.
  - reflexivity.
  - inversion Hn as [|? ? Hra Hrest]; subst. cbn [fst snd] in Hra.
    assert (Hspace : Num.leb space 0 = false) by now apply leb_gt.
    simpl. destruct (Num.gtb a 0) eqn:Hpos.
    + apply gtb_gt in Hpos. destruct Hra as [Hra|Hra]; [lra|].
      unfold Dict.lookup. rewrite Hra. cbn [bind]. rewrite Hspace.
      now apply IH.
    + cbn [bind]. rewrite Hspace. now apply IH.
Qed.

End Backpressure.

(** X5. With nothing sellable in the station (every stock empty or switched
    off), [load_from_station] returns [False] and changes nothing, and a
    loading market cart that has arrived at the station stays as it is, in
    state [loading], to try again at the next tick. *)
Theorem empty_station_keeps_cart_loading (w : World) (self : MiningGame.t)
  (cart : Cart.t) (vertical_offset delta_time : Q) :
  nothing_sellable (resource_selling_enabled self)
    (Station.storage (station self)) ->
  load_from_station self cart = Ok (false, self, cart)
  /\ (Cart.state cart = "loading"%string ->
      within_tolerance w cart (station_pos self) vertical_offset ->
      update_market_cart w self cart vertical_offset delta_time
      = Ok (self, cart)).
Proof.
  intro Hn.
  assert (Hload : load_from_station self cart = Ok (false, self, cart)).
  { unfold load_from_station. destruct (Cart.is_full cart) eqn:Hfull; trivial.
    apply load_loop_nothing; trivial.
    unfold Cart.is_full in Hfull. apply geb_lt in Hfull.
    unfold Cart.get_contents_amount. lra. }
  split; [exact Hload|].
  intros Hstate Hnear. unfold within_tolerance in Hnear. apply ltb_lt in Hnear.
  unfold update_market_cart. rewrite Hstate. cbn [String.eqb Ascii.eqb Bool.eqb].
  rewrite Hnear, Hload. reflexivity.
Qed.

Lemma empty_station_keeps_cart_loading_witness :
  load_from_station (init still_world) waiting_cart
  = Ok (false, init still_world, waiting_cart)
  /\ update_market_cart still_world (init still_world) waiting_cart 0 one_frame
     = Ok (init still_world, waiting_cart).
Proof.
  destruct (empty_station_keeps_cart_loading still_world (init still_world)
              waiting_cart 0 one_frame) as [Hload Hstay].
  - unfold nothing_sellable. cbn.
    repeat (apply Forall_cons; [left; cbn; lra|]). apply Forall_nil.
  - split; [exact Hload|]. apply Hstay; reflexivity.
Defined.

(** X6. A full mining cart turns back at the mine only. Once within the
    tolerance of the mine it does not mine (no random number is drawn, the
    contents stay), turns to [returning] and is snapped onto the mine spot;
    as long as it is farther away it stays in state [mining], full as it
    is, and keeps driving to the mine. *)
Theorem full_cart_turns_back (w : World) (self : MiningGame.t)
  (cart : Cart.t) (vertical_offset delta_time : Q) :
  Cart.state cart = "mining"%string ->
  Cart.is_full cart = true ->
  (within_tolerance w cart (mine_pos self) vertical_offset ->
   update_mining_cart w self cart vertical_offset delta_time
   = Ok (self,
         Cart.set_xy (Cart.set_state cart "returning")
           (fst (mine_pos self)) (snd (mine_pos self) + vertical_offset)))
  /\ (~ within_tolerance w cart (mine_pos self) vertical_offset ->
      exists cart',
        update_mining_cart w self cart vertical_offset delta_time
        = Ok (self, cart')
        /\ Cart.state cart' = "mining"%string
        /\ Cart.contents cart' = Cart.contents cart).
Proof.
  intros Hstate Hfull. unfold within_tolerance.
  unfold update_mining_cart. rewrite Hstate.
  cbn [String.eqb Ascii.eqb Bool.eqb]. split.
  - intro Hnear. apply ltb_lt in Hnear. rewrite Hnear, Hfull. cbn [negb].
    rewrite Hfull. reflexivity.
  - intro Hfar.
    destruct (far_step w self cart vertical_offset delta_time (mine_pos self)
                Hfar) as [_ [E Hstep]].
    rewrite E, Hstep. eexists. split; [reflexivity|]. split; [exact Hstate|].
    reflexivity.
Qed.

Lemma full_cart_turns_back_witness :
  update_mining_cart still_world (init still_world) full_cart 0 one_frame
  = Ok (init still_world,
        Cart.set_xy (Cart.set_state full_cart "returning") 100 450).
Proof.
  apply (full_cart_turns_back still_world (init still_world) full_cart 0
           one_frame); reflexivity.
Defined.

(** ** What one cart update can change *)

Section CartEffects.

Variables (w : World) (self : MiningGame.t) (cart : Cart.t).
Variables (vertical_offset delta_time : Q).

Ltac on_distance :=
  match goal with
  | H : context [Num.ltb ?d POSITION_TOLERANCE] |- _ =>
      destruct (Num.ltb d POSITION_TOLERANCE) eqn:E
  end.

Ltac far_move H :=
  match type of H with
  | context [move_towards cart ?dx ?dy ?d delta_time] =>
      match goal with
      | E : Num.ltb d POSITION_TOLERANCE = false |- _ =>
          destruct (move_towards_far cart dx dy d delta_time E) as [_ Hmove];
          rewrite Hmove in H; cbn [bind] in H; inversion H; subst
      end
  end.

Lemma static_of_contents (c : Cart.t) (d : Dict.t Q) :
  static_of (Cart.set_contents c d) = static_of c.
Proof. reflexivity. Qed.

Lemma update_mining_cart_effect (self' : MiningGame.t) (cart' : Cart.t) :
  update_mining_cart w self cart vertical_offset delta_time
  = Ok (self', cart') ->
  cart_update_frame self self'
  /\ static_of cart' = static_of cart
  /\ Station.money (station self') = Station.money (station self)
  /\ Station.storage_capacity (station self')
     = Station.storage_capacity (station self).
Proof.
  unfold update_mining_cart. intro H.
  destruct (String.eqb (Cart.state cart) "mining").
  - on_distance.
    + destruct (negb (Cart.is_full cart)).
      * destruct (mining_loop w (Dict.items (resources self)) self cart
                    delta_time) as [s c] eqn:Hloop.
        apply mining_loop_frame in Hloop. destruct Hloop as [Hc Hs].
        assert (Hst : static_of c = static_of cart) by now rewrite Hc.
        assert (Hf : cart_update_frame self s).
        { unfold cart_update_frame. rewrite Hs. now destruct self. }
        assert (Hm : station s = station self) by now rewrite Hs.
        destruct (Cart.is_full c); inversion H; subst;
          rewrite Hm; repeat split; trivial.
      * destruct (Cart.is_full cart); inversion H; subst;
          repeat split; apply frame_refl.
    + far_move H. repeat split. apply frame_refl.
  - destruct (String.eqb (Cart.state cart) "returning").
    + on_distance.
      * destruct (transfer_to_station self cart) as [s c] eqn:Ht.
        apply transfer_loop_frame in Ht. destruct Ht as [Hc Hs].
        inversion H; subst self' cart'.
        split; [rewrite Hs; apply frame_station|].
        split; [now rewrite Hc|]. rewrite Hs. split; reflexivity.
      * far_move H. repeat split. apply frame_refl.
    + inversion H; subst. repeat split. apply frame_refl.
Qed.

Lemma update_market_cart_effect (self' : MiningGame.t) (cart' : Cart.t) :
  update_market_cart w self cart vertical_offset delta_time
  = Ok (self', cart') ->
  cart_update_frame self self'
  /\ static_of cart' = static_of cart
  /\ Station.storage_capacity (station self')
     = Station.storage_capacity (station self).
Proof.
  unfold update_market_cart. intro H.
  destruct (String.eqb (Cart.state cart) "loading").
  - on_distance.
    + destruct (load_from_station self cart) as [[[loaded s] c]|e] eqn:Hload;
        [|discriminate].
      cbn [bind] in H.
      assert (Hc : c = Cart.set_contents cart (Cart.contents c)
                   /\ s = set_station self
                            (Station.set_storage (station self)
                               (Station.storage (station s)))).
      { unfold load_from_station in Hload.
        destruct (Cart.is_full cart).
        - inversion Hload; subst.
          now rewrite set_contents_same, set_storage_same, set_station_same.
        - now apply load_loop_frame in Hload. }
      destruct Hc as [Hc Hs].
      assert (Hst : static_of c = static_of cart) by now rewrite Hc.
      assert (Hf : cart_update_frame self s).
      { rewrite Hs. apply frame_station. }
      assert (Hcap : Station.storage_capacity (station s)
                     = Station.storage_capacity (station self))
        by now rewrite Hs.
      destruct loaded; inversion H; subst; repeat split; trivial.
    + far_move H. repeat split. apply frame_refl.
  - destruct (String.eqb (Cart.state cart) "selling").
    + on_distance.
      * destruct (sell_cart_resources self cart) as [[s c]|e] eqn:Hsell;
          [|discriminate].
        cbn [bind] in H. apply sell_loop_frame in Hsell.
        destruct Hsell as [Hc Hs]. inversion H; subst self' cart'.
        split; [rewrite Hs; apply frame_station|].
        split; [now rewrite Hc|]. rewrite Hs. reflexivity.
      * far_move H. repeat split. apply frame_refl.
    + inversion H; subst. repeat split. apply frame_refl.
Qed.

End CartEffects.

(** ** What one [update] can change *)

Section UpdateEffects.

Variable w : World.

Lemma price_frame_refl (self : MiningGame.t) : price_frame self self.
Proof. unfold price_frame. now destruct self. Qed.

Lemma price_frame_trans (a b c : MiningGame.t) :
  price_frame a b -> price_frame b c -> price_frame a c.
Proof.
  unfold price_frame. intros Hab Hbc.
  rewrite Hbc at 1. rewrite Hab at 1. reflexivity.
Qed.

Lemma update_price_frame (r : string) (self self' : MiningGame.t) :
  update_price w r self = Ok self' ->
  price_frame self self' /\ random_reads self' = S (random_reads self).
Proof.
  unfold update_price, random_uniform, random_random, Dict.lookup.
  project. intro H.
  destruct (Dict.get (price_momentum self) r); [|discriminate].
  cbn [bind] in H.
  destruct (Dict.get (resources self) r); [|discriminate].
  cbn [bind] in H.
  destruct (Dict.get (market_prices self) r); [|discriminate].
  cbn [bind] in H. rewrite get_set_same in H. cbn [bind] in H.
  destruct (Dict.get (price_history self) r) as [h|]; [|discriminate].
  cbn [bind] in H.
  destruct (pop0 h); [|discriminate]. cbn [bind] in H.
  rewrite !get_set_same in H. cbn [bind] in H.
  inversion H; subst. unfold price_frame. project.
  split; [now destruct self | reflexivity].
Qed.

Lemma update_market_prices_loop_frame (ks : list string) :
  forall self self',
  update_market_prices_loop w ks self = Ok self' ->
  price_frame self self'
  /\ random_reads self' = (random_reads self + List.length ks)%nat.
Proof.
  induction ks as [|r ks IH]; intros self self' H; simpl in H.
  - inversion H; subst. split; [apply price_frame_refl | simpl; lia].
  - destruct (update_price w r self) as [s1|e] eqn:Hstep; [|discriminate].
    cbn [bind] in H. apply update_price_frame in Hstep.
    destruct Hstep as [Hf1 Hr1]. apply IH in H. destruct H as [Hf Hr].
    split; [now apply price_frame_trans with s1|].
    rewrite Hr, Hr1. simpl. lia.
Qed.

Lemma skipn_tail {A : Type} (l : list A) (i : nat) (a : A) (rest : list A) :
  skipn i l = a :: rest -> skipn (S i) l = rest.
Proof.
  revert l. induction i as [|i IH]; intros [|b l] H; simpl in *;
    try discriminate.
  - now inversion H.
  - now apply IH.
Qed.

Lemma skipn_list_set {A : Type} (l : list A) (i : nat) (v : A) :
  skipn (S i) (list_set l i v) = skipn (S i) l.
Proof.
  revert l. induction i as [|i IH]; intros [|b l]; simpl; trivial.
  apply (IH l).
Qed.

Lemma map_list_set {A B : Type} (f : A -> B) (l : list A) (i : nat)
  (a v : A) (rest : list A) :
  skipn i l = a :: rest -> f v = f a -> map f (list_set l i v) = map f l.
Proof.
  revert l. induction i as [|i IH]; intros [|b l] H Hf; simpl in *;
    try discriminate.
  - inversion H; subst. now rewrite Hf.
  - f_equal. now apply IH.
Qed.

Lemma update_carts_loop_effect (delta_time : Q) (todo : list Cart.t) :
  forall (i : nat) (self self' : MiningGame.t),
  update_carts_loop w todo i self delta_time = Ok self' ->
  skipn i (carts self) = todo ->
  map static_of (carts self') = map static_of (carts self)
  /\ self' = set_carts
               (set_random_reads (set_station self (station self'))
                  (random_reads self'))
               (carts self')
  /\ Station.storage_capacity (station self')
     = Station.storage_capacity (station self).
Proof.
  induction todo as [|cart rest IH]; intros i self self' H Hskip.
  - simpl in H. inversion H; subst. repeat split. now destruct self'.
  - cbn [update_carts_loop] in H.
    assert (Step :
      forall s1 c1,
        (if String.eqb (Cart.cart_type cart) "mining"
         then update_mining_cart w self cart (inject_Z (Z.of_nat i) * 5)
                delta_time
         else update_market_cart w self cart (inject_Z (Z.of_nat i) * 5)
                delta_time) = Ok (s1, c1) ->
        cart_update_frame self s1
        /\ static_of c1 = static_of cart
        /\ Station.storage_capacity (station s1)
           = Station.storage_capacity (station self)).
    { intros s1 c1 Hrun.
      destruct (String.eqb (Cart.cart_type cart) "mining").
      - apply update_mining_cart_effect in Hrun. tauto.
      - now apply update_market_cart_effect in Hrun. }
    match type of H with
    | bind ?m _ = _ => destruct m as [[s1 c1]|e] eqn:Hrun; [|discriminate]
    end.
    cbn [bind] in H. destruct (Step s1 c1 eq_refl) as [Hf [Hst Hcap]].
    assert (Hcarts : carts s1 = carts self).
    { unfold cart_update_frame in Hf. now rewrite Hf. }
    apply IH in H.
    + project. destruct H as [Hmap [Hframe Hcap']].
      rewrite Hcarts in Hmap.
      rewrite (map_list_set static_of _ _ cart c1 rest Hskip Hst) in Hmap.
      split; [exact Hmap|]. split.
      * rewrite Hframe at 1. unfold cart_update_frame in Hf.
        rewrite Hf at 1. reflexivity.
      * now rewrite Hcap'.
    + project. rewrite Hcarts, skipn_list_set.
      now apply skipn_tail with cart.
Qed.

Lemma update_market_prices_frame (self self' : MiningGame.t) :
  update_market_prices w self = Ok self' ->
  carts self' = carts self
  /\ station self' = station self
  /\ cart_stats self' = cart_stats self
  /\ resource_selling_enabled self' = resource_selling_enabled self
  /\ last_update self' = last_update self.
Proof.
  unfold update_market_prices, time_time. project. intro H.
  destruct (Num.geb _ _).
  - match type of H with
    | bind ?m _ = _ => destruct m as [s1|e] eqn:Hloop; [|discriminate]
    end.
    cbn [bind] in H. inversion H; subst.
    apply update_market_prices_loop_frame in Hloop.
    destruct Hloop as [Hf _]. unfold price_frame in Hf.
    project. rewrite Hf. repeat split.
  - inversion H; subst. repeat split.
Qed.

End UpdateEffects.

Lemma update_effect (w : World) (self self' : MiningGame.t) :
  update w self = Ok self' ->
  map static_of (carts self') = map static_of (carts self)
  /\ cart_stats self' = cart_stats self
  /\ resource_selling_enabled self' = resource_selling_enabled self
  /\ Station.storage_capacity (station self')
     = Station.storage_capacity (station self)
  /\ last_update self' = clock w (clock_reads self).
Proof.
  unfold update, time_time. intro H.
  match type of H with
  | bind ?m _ = _ => destruct m as [s1|e] eqn:Hprices; [|discriminate]
  end.
  cbn [bind] in H.
  apply update_market_prices_frame in Hprices. project.
  destruct Hprices as [Hcarts [Hst [Hstats [Hen Hlast]]]].
  apply update_carts_loop_effect in H; [|reflexivity].
  destruct H as [Hmap [Hframe Hcap]].
  rewrite Hcarts in Hmap. rewrite Hst in Hcap.
  split; [exact Hmap|]. rewrite Hframe. project.
  rewrite Hstats, Hen, Hlast. repeat split. exact Hcap.
Qed.

(** X7. [update] never changes the composition of the fleet: the carts keep
    their number, order, role, capacity, speed and mining speed. It leaves
    the global cart stats, the sale switches and the storage capacity as
    they were, and sets [last_update] to the time it read. *)
Theorem update_keeps_the_fleet (w : World) (self self' : MiningGame.t) :
  update w self = Ok self' ->
  map static_of (carts self') = map static_of (carts self)
  /\ cart_stats self' = cart_stats self
  /\ resource_selling_enabled self' = resource_selling_enabled self
  /\ Station.storage_capacity (station self')
     = Station.storage_capacity (station self)
  /\ last_update self' = clock w (clock_reads self).
Proof. apply update_effect. Qed.

Lemma update_keeps_the_fleet_witness :
  exists self',
    update ticking_world (init ticking_world) = Ok self'
    /\ map static_of (carts self') = [("mining"%string, 50, 100, 3)]
    /\ last_update self' = 20.
Proof.
  destruct (update ticking_world (init ticking_world)) as [self'|e] eqn:Hrun.
  - exists self'. split; [reflexivity|].
    destruct (update_keeps_the_fleet ticking_world (init ticking_world) self'
                Hrun) as [Hmap [_ [_ [_ Hlast]]]].
    split; [exact Hmap | exact Hlast].
  - vm_compute in Hrun. discriminate.
Defined.

(** ** The books: money, stock and speeds *)

Section Books.

Lemma prices_nonneg (self : MiningGame.t) :
  fleet_ok self -> market_ok self ->
  forall r price, Dict.get (market_prices self) r = Some price -> 0 <= price.
Proof.
  intros Hfleet Hmarket r price Hprice.
  destruct (in_keys_get (resources self) r) as [res Hres].
  { rewrite (ok_resources _ Hfleet).
    apply get_some_in_keys in Hprice.
    now rewrite (ok_prices_keys _ Hfleet) in Hprice. }
  pose proof (base_value_positive self r res (ok_resources _ Hfleet) Hres).
  destruct (ok_price_bounds _ Hmarket r res price Hres Hprice). lra.
Qed.

Lemma sell_loop_money (its : list (string * Q)) :
  forall self cart self' cart',
  sell_cart_resources_loop its self cart = Ok (self', cart') ->
  (forall r price, Dict.get (market_prices self) r = Some price ->
                   0 <= price) ->
  Station.money (station self) <= Station.money (station self')
  /\ Station.storage (station self') = Station.storage (station self).
Proof.
  induction its as [|[r a] rest IH]; intros self cart self' cart' H Hp;
    simpl in H.
  - inversion H; subst. split; [lra | reflexivity].
  - destruct (Num.gtb a 0) eqn:Hpos; [|now apply IH in H].
    apply gtb_gt in Hpos. unfold Dict.lookup in H.
    destruct (Dict.get (market_prices self) r) as [price|] eqn:Hprice;
      [|discriminate].
    cbn [bind] in H. apply IH in H; [|exact Hp]. project.
    destruct H as [Hm Hs]. split; [|exact Hs].
    pose proof (Hp r price Hprice). nra.
Qed.

Lemma load_loop_stock (its : list (string * Q)) :
  forall self cart space loaded b self' cart',
  load_from_station_loop its self cart space loaded = Ok (b, self', cart') ->
  0 < space ->
  total (Station.storage (station self'))
  <= total (Station.storage (station self))
  /\ Station.money (station self') = Station.money (station self).
Proof.
  induction its as [|[r a] rest IH];
    intros self cart space loaded b self' cart' H Hs; simpl in H.
  - inversion H; subst. split; [lra | reflexivity].
  - assert (Hspace : Num.leb space 0 = false) by now apply leb_gt.
    destruct (if Num.gtb a 0
              then Dict.lookup (resource_selling_enabled self) r
              else Ok false) as [[|]|e] eqn:Hcond; cbn [bind] in H;
      [| |discriminate].
    + assert (Hpos : 0 < a).
      { destruct (Num.gtb a 0) eqn:Hg; [now apply gtb_gt | discriminate]. }
      unfold Dict.lookup in H.
      destruct (Dict.get (Station.storage (station self)) r) as [stored|]
        eqn:Hstored; cbn [bind] in H; [|discriminate].
      assert (Hgd : Dict.get_default (Station.storage (station self)) r 0
                    = stored).
      { unfold Dict.get_default. now rewrite Hstored. }
      set (q := Num.min a space) in *.
      assert (Hq : 0 < q) by now apply min_pos.
      destruct (Num.leb (space - q) 0) eqn:Hleft.
      * inversion H; subst self' cart' b. project. rewrite total_set, Hgd.
        split; [lra | reflexivity].
      * apply leb_gt in Hleft. apply IH in H; trivial. project.
        rewrite total_set, Hgd in H. destruct H as [Ht Hm].
        split; [lra | exact Hm].
    + rewrite Hspace in H. now apply IH in H.
Qed.

End Books.

Section CartBooks.

Variables (w : World) (self : MiningGame.t) (cart : Cart.t).
Variables (vertical_offset delta_time : Q).

Ltac on_distance :=
  match goal with
  | H : context [Num.ltb ?d POSITION_TOLERANCE] |- _ =>
      destruct (Num.ltb d POSITION_TOLERANCE) eqn:E
  end.

Ltac far_move H :=
  match type of H with
  | context [move_towards cart ?dx ?dy ?d delta_time] =>
      match goal with
      | E : Num.ltb d POSITION_TOLERANCE = false |- _ =>
          destruct (move_towards_far cart dx dy d delta_time E) as [_ Hmove];
          rewrite Hmove in H; cbn [bind] in H; inversion H; subst
      end
  end.

Lemma update_mining_cart_stock (self' : MiningGame.t) (cart' : Cart.t) :
  update_mining_cart w self cart vertical_offset delta_time
  = Ok (self', cart') ->
  NoDup (Dict.keys (Cart.contents cart)) ->
  total (Station.storage (station self))
  <= Station.storage_capacity (station self) ->
  total (Station.storage (station self'))
  <= Station.storage_capacity (station self).
Proof.
  unfold update_mining_cart. intros H Hnd Hle.
  destruct (String.eqb (Cart.state cart) "mining").
  - on_distance.
    + destruct (negb (Cart.is_full cart)).
      * destruct (mining_loop w (Dict.items (resources self)) self cart
                    delta_time) as [s c] eqn:Hloop.
        apply mining_loop_frame in Hloop. destruct Hloop as [_ Hs].
        assert (Hm : station s = station self) by now rewrite Hs.
        destruct (Cart.is_full c); inversion H; subst; now rewrite Hm.
      * destruct (Cart.is_full cart); inversion H; subst; exact Hle.
    + far_move H. exact Hle.
  - destruct (String.eqb (Cart.state cart) "returning").
    + on_distance.
      * destruct (transfer_to_station self cart) as [s c] eqn:Ht.
        unfold transfer_to_station, Dict.items in Ht.
        destruct (transfer_loop_units _ _ _ _ _ Ht) as [_ [_ Hcap]]; trivial.
        { intros k a. now apply in_items_get_default. }
        inversion H; subst. now apply Hcap.
      * far_move H. exact Hle.
    + inversion H; subst. exact Hle.
Qed.

Lemma update_market_cart_books (self' : MiningGame.t) (cart' : Cart.t) :
  update_market_cart w self cart vertical_offset delta_time
  = Ok (self', cart') ->
  (forall r price, Dict.get (market_prices self) r = Some price ->
                   0 <= price) ->
  Station.money (station self) <= Station.money (station self')
  /\ total (Station.storage (station self'))
     <= total (Station.storage (station self)).
Proof.
  unfold update_market_cart. intros H Hp.
  destruct (String.eqb (Cart.state cart) "loading").
  - on_distance.
    + destruct (load_from_station self cart) as [[[loaded s] c]|e] eqn:Hload;
        [|discriminate].
      cbn [bind] in H.
      assert (Hs : total (Station.storage (station s))
                   <= total (Station.storage (station self))
                   /\ Station.money (station s)
                      = Station.money (station self)).
      { unfold load_from_station in Hload.
        destruct (Cart.is_full cart) eqn:Hfull.
        - inversion Hload; subst. split; [lra | reflexivity].
        - apply load_loop_stock in Hload; trivial.
          unfold Cart.is_full in Hfull. apply geb_lt in Hfull.
          unfold Cart.get_contents_amount. lra. }
      destruct Hs as [Hs Hm].
      destruct loaded; inversion H; subst; rewrite Hm; split; lra.
    + far_move H. split; lra.
  - destruct (String.eqb (Cart.state cart) "selling").
    + on_distance.
      * destruct (sell_cart_resources self cart) as [[s c]|e] eqn:Hsell;
          [|discriminate].
        cbn [bind] in H. apply sell_loop_money in Hsell; trivial.
        destruct Hsell as [Hm Hs]. inversion H; subst.
        rewrite Hs. split; lra.
      * far_move H. split; lra.
    + inversion H; subst. split; lra.
Qed.

End CartBooks.

Section FleetBooks.

Variable w : World.

Lemma frame_market_prices (self self' : MiningGame.t) :
  cart_update_frame self self' -> market_prices self' = market_prices self.
Proof. unfold cart_update_frame. intros ->. reflexivity. Qed.

Lemma update_carts_loop_books (delta_time cap_stat : Q)
  (todo : list Cart.t) :
  forall (i : nat) (self self' : MiningGame.t),
  update_carts_loop w todo i self delta_time = Ok self' ->
  fleet_ok self ->
  market_ok self ->
  Dict.get (cart_stats self) "capacity" = Some cap_stat ->
  Forall (cart_ok cap_stat) todo ->
  Station.money (station self) <= Station.money (station self')
  /\ (total (Station.storage (station self))
      <= Station.storage_capacity (station self) ->
      total (Station.storage (station self'))
      <= Station.storage_capacity (station self)).
Proof.
  induction todo as [|cart rest IH];
    intros i self self' H Hfleet Hmarket Hcap Htodo.
  - simpl in H. inversion H; subst. split; [lra | auto].
  - inversion Htodo as [|? ? Hcart Hrest]; subst.
    cbn [update_carts_loop] in H.
    match type of H with
    | bind ?m _ = _ => destruct m as [[s1 c1]|e] eqn:Hrun; [|discriminate]
    end.
    cbn [bind] in H.
    assert (Step :
      cart_ok cap_stat c1 /\ station_ok (station s1)
      /\ cart_update_frame self s1
      /\ Station.money (station self) <= Station.money (station s1)
      /\ Station.storage_capacity (station s1)
         = Station.storage_capacity (station self)
      /\ (total (Station.storage (station self))
          <= Station.storage_capacity (station self) ->
          total (Station.storage (station s1))
          <= Station.storage_capacity (station self))).
    { destruct (String.eqb (Cart.cart_type cart) "mining") eqn:E.
      - apply String.eqb_eq in E.
        destruct (update_mining_cart_ok w self cart
                    (inject_Z (Z.of_nat i) * 5) delta_time cap_stat Hfleet
                    Hcart E) as [s [c [Hrun' [Hc [Hs Hf]]]]].
        rewrite Hrun in Hrun'. inversion Hrun'; subst s c.
        destruct (update_mining_cart_effect _ _ _ _ _ _ _ Hrun)
          as [_ [_ [Hm Hcp]]].
        split; [exact Hc|]. split; [exact Hs|]. split; [exact Hf|].
        split; [rewrite Hm; lra|]. split; [exact Hcp|].
        intro Hle. apply (update_mining_cart_stock _ _ _ _ _ _ _ Hrun);
          trivial. apply Hcart.
      - apply String.eqb_neq in E.
        destruct (update_market_cart_ok w self cart
                    (inject_Z (Z.of_nat i) * 5) delta_time cap_stat Hfleet
                    Hcart E) as [s [c [Hrun' [Hc [Hs Hf]]]]].
        rewrite Hrun in Hrun'. inversion Hrun'; subst s c.
        destruct (update_market_cart_effect _ _ _ _ _ _ _ Hrun)
          as [_ [_ Hcp]].
        destruct (update_market_cart_books _ _ _ _ _ _ _ Hrun
                    (prices_nonneg self Hfleet Hmarket)) as [Hm Hst].
        split; [exact Hc|]. split; [exact Hs|]. split; [exact Hf|].
        split; [exact Hm|]. split; [exact Hcp|].
        intro Hle. lra. }
    destruct Step as [Hc1 [Hs1 [Hf1 [Hm1 [Hcp1 Hst1]]]]].
    pose proof (fleet_ok_frame _ _ Hf1 Hfleet Hs1) as Hfleet1.
    pose proof (market_ok_frame _ _ Hf1 Hmarket) as Hmarket1.
    assert (Hcap1 : Dict.get (cart_stats s1) "capacity" = Some cap_stat).
    { now rewrite (frame_cart_stats _ _ Hf1). }
    apply IH in H; trivial.
    + project. destruct H as [Hm Hst]. split; [lra|].
      intro Hle. rewrite <- Hcp1. apply Hst. rewrite Hcp1. auto.
    + apply fleet_ok_set_carts with cap_stat; trivial.
      apply Forall_list_set; trivial.
      destruct (ok_carts _ Hfleet1) as [cap1 [Hcap1' [_ Hall]]].
      assert (cap1 = cap_stat) by congruence. now subst.
    + now apply market_ok_set_carts.
Qed.

End FleetBooks.

Section UpdateBooks.

Lemma speeds_of_static (speed mining_speed : Q) (l l' : list Cart.t) :
  map static_of l' = map static_of l ->
  Forall (fun cart => Cart.speed cart = speed
                      /\ Cart.mining_speed cart = mining_speed) l ->
  Forall (fun cart => Cart.speed cart = speed
                      /\ Cart.mining_speed cart = mining_speed) l'.
Proof.
  revert l'. induction l as [|c l IH]; intros [|c' l'] Hmap Hall;
    simpl in Hmap; try discriminate; constructor.
  - inversion Hmap as [[Ht Hc Hs Hm]]. inversion Hall; subst.
    now rewrite Hs, Hm.
  - inversion Hmap. inversion Hall; subst. now apply IH.
Qed.

Lemma update_books (w : World) (self self' : MiningGame.t) :
  update w self = Ok self' ->
  game_ok self -> economy_ok self -> economy_ok self'.
Proof.
  intros H [Hfleet Hmarket] [Hmoney Hstock Hfixed Hspeeds].
  destruct (update_effect w self self' H) as [Hmap [Hstats [_ [Hcap _]]]].
  unfold update, time_time in H.
  set (self0 := set_last_update
                  (set_clock_reads self (S (clock_reads self)))
                  (clock w (clock_reads self))) in *.
  destruct (update_market_prices_ok w self0) as [s1 [Hp [Hf1 [Hm1 _]]]].
  { now apply fleet_ok_last_update, fleet_ok_clock_reads. }
  { now apply market_ok_last_update, market_ok_clock_reads. }
  rewrite Hp in H. cbn [bind] in H.
  destruct (update_market_prices_frame w self0 s1 Hp)
    as [Hcarts1 [Hst1 [Hstats1 _]]].
  destruct (ok_carts _ Hf1) as [cap_stat [Hcs [_ Hall]]].
  destruct (update_carts_loop_books w _ cap_stat _ _ _ _ H Hf1 Hm1 Hcs Hall)
    as [Hm Hst].
  rewrite Hst1 in Hm, Hst. unfold self0 in Hm, Hst. project.
  constructor.
  - lra.
  - rewrite Hcap. auto.
  - now rewrite Hcap.
  - destruct Hspeeds as [sp [mi [Hsp [Hmi Hall']]]].
    exists sp, mi. rewrite Hstats. split; [exact Hsp|]. split; [exact Hmi|].
    now apply speeds_of_static with (carts self).
Qed.

End UpdateBooks.

Section ClickBooks.

Variables (self self' : MiningGame.t).
Hypothesis Hbooks : economy_ok self.

Lemma Forall_speeds_map (f : Cart.t -> Cart.t) (speed mining_speed : Q)
  (l : list Cart.t) :
  (forall cart, Cart.speed (f cart) = Cart.speed cart
                /\ Cart.mining_speed (f cart) = Cart.mining_speed cart) ->
  Forall (fun cart => Cart.speed cart = speed
                      /\ Cart.mining_speed cart = mining_speed) l ->
  Forall (fun cart => Cart.speed cart = speed
                      /\ Cart.mining_speed cart = mining_speed) (map f l).
Proof.
  intros Hf Hall. apply Forall_map. revert Hall. apply Forall_impl.
  intros cart [Hs Hm]. destruct (Hf cart) as [-> ->]. now split.
Qed.

Lemma add_cart_books (cart_type : string) (bought : bool) :
  add_cart self cart_type = Ok (bought, self') -> economy_ok self'.
Proof.
  destruct Hbooks as [Hmoney Hstock Hfixed [sp [mi [Hsp [Hmi Hall]]]]].
  unfold add_cart. intro H.
  destruct (Num.geb (Station.money (station self)) 500) eqn:Hge.
  2:{ inversion H; subst. exact Hbooks. }
  apply geb_ge in Hge. unfold Dict.lookup in H. project.
  destruct (Dict.get (cart_stats self) "capacity") as [cap|]; [|discriminate].
  rewrite Hsp, Hmi in H. cbn [bind] in H. inversion H; subst.
  constructor; project; trivial.
  - lra.
  - exists sp, mi. split; [exact Hsp|]. split; [exact Hmi|].
    apply Forall_app. split; trivial. constructor; [|constructor].
    project. now split.
Qed.

Lemma convert_books (p : Cart.t -> bool) (role st : string) :
  economy_ok
    (set_carts self
       (update_first p
          (fun cart =>
             Cart.set_contents
               (Cart.set_state (Cart.set_cart_type cart role) st) [])
          (carts self))).
Proof.
  destruct Hbooks as [Hmoney Hstock Hfixed [sp [mi [Hsp [Hmi Hall]]]]].
  constructor; project; trivial.
  exists sp, mi. split; [exact Hsp|]. split; [exact Hmi|].
  apply Forall_update_first; trivial.
Qed.

Lemma upgrade_books (upgrade_type : string) (bought : bool) :
  In upgrade_type ["capacity"%string; "speed"%string; "mining"%string] ->
  upgrade self upgrade_type = Ok (bought, self') -> economy_ok self'.
Proof.
  destruct Hbooks as [Hmoney Hstock Hfixed [sp [mi [Hsp [Hmi Hall]]]]].
  intros Hut H. unfold upgrade in H.
  destruct (Dict.get (Station.upgrade_costs (station self)) upgrade_type)
    as [cost|].
  2:{ inversion H; subst. exact Hbooks. }
  destruct (Num.geb (Station.money (station self)) cost) eqn:Hge.
  2:{ inversion H; subst. exact Hbooks. }
  apply geb_ge in Hge. unfold Dict.lookup, Dict.mem in H. project.
  destruct (Dict.get (Station.upgrade_multipliers (station self))
              upgrade_type) as [multiplier|]; [|discriminate].
  cbn [bind] in H.
  destruct (Dict.get (cart_stats self) upgrade_type) as [old|] eqn:Hold;
    cbn [bind] in H; inversion H; subst; clear H;
    constructor; project; trivial; try lra.
  - destruct Hut as [<-|[<-|[<-|[]]]].
    + exists sp, mi.
      rewrite !get_set_other by discriminate.
      split; [exact Hsp|]. split; [exact Hmi|].
      apply Forall_speeds_map; trivial. intro cart. split; reflexivity.
    + exists (old * multiplier), mi.
      rewrite get_set_same, get_set_other by discriminate.
      split; [reflexivity|]. split; [exact Hmi|].
      apply Forall_map. revert Hall. apply Forall_impl.
      intros cart [_ Hm]. split; [reflexivity | exact Hm].
    + exists sp, (old * multiplier).
      rewrite get_set_same, get_set_other by discriminate.
      split; [exact Hsp|]. split; [reflexivity|].
      apply Forall_map. revert Hall. apply Forall_impl.
      intros cart [Hs _]. split; [exact Hs | reflexivity].
  - exists sp, mi. auto.
Qed.

Lemma toggle_books (resource : string) :
  toggle_resource self resource = Ok self' -> economy_ok self'.
Proof.
  destruct Hbooks as [Hmoney Hstock Hfixed Hspeeds].
  unfold toggle_resource, Dict.lookup. intro H.
  destruct (Dict.get (resource_selling_enabled self) resource);
    [|discriminate].
  cbn [bind] in H. inversion H; subst. constructor; project; trivial.
Qed.

Lemma on_click_books (b : button) :
  on_click self b = Ok self' -> economy_ok self'.
Proof.
  assert (Drop : forall r, drop_flag r = Ok self' ->
                   exists bought, r = Ok (bought, self')).
  { intros [[bought s]|e] Hr; [|discriminate].
    inversion Hr; subst. now exists bought. }
  destruct b; cbn [on_click]; intro H.
  - apply Drop in H. destruct H as [bought H]. now apply add_cart_books in H.
  - apply Drop in H. destruct H as [bought H]. now apply add_cart_books in H.
  - inversion H; subst. apply convert_books.
  - inversion H; subst. apply convert_books.
  - apply Drop in H. destruct H as [bought H].
    apply upgrade_books in H; trivial. cbn. auto.
  - apply Drop in H. destruct H as [bought H].
    apply upgrade_books in H; trivial. cbn. auto.
  - apply Drop in H. destruct H as [bought H].
    apply upgrade_books in H; trivial. cbn. auto.
  - destruct (Dict.mem (resources self) resource).
    + now apply toggle_books in H.
    + inversion H; subst. exact Hbooks.
Qed.

End ClickBooks.

Lemma init_books (w : World) : economy_ok (init w).
Proof.
  constructor.
  - cbn. lra.
  - cbn. unfold total. cbn. lra.
  - reflexivity.
  - exists 100, 3. split; [reflexivity|]. split; [reflexivity|].
    constructor; [|constructor]. split; reflexivity.
Qed.

Lemma play_from_books (w : World) (l : list action) :
  forall self,
  game_ok self -> economy_ok self ->
  exists self',
    play_from w self l = Ok self' /\ game_ok self' /\ economy_ok self'.
Proof.
  induction l as [|a l IH]; intros self Hok Hbooks.
  - exists self. auto.
  - destruct (act_ok w self a Hok) as [self1 [Hact Hok1]].
    assert (Hbooks1 : economy_ok self1).
    { destruct a as [b|]; cbn [act] in Hact.
      - now apply on_click_books with self b.
      - now apply update_books with w self. }
    destruct (IH self1 Hok1 Hbooks1) as [self' [Hrun Hrest]].
    exists self'. cbn [play_from]. rewrite Hact. auto.
Qed.

Lemma play_books (w : World) (l : list action) :
  exists self, play w l = Ok self /\ game_ok self /\ economy_ok self.
Proof. apply play_from_books; [apply init_ok | apply init_books]. Qed.

(** ** Every run *)

(** X8. Whatever the clock, the random draws and the sequence of clicks and
    updates, the game never raises: no [KeyError], no [IndexError] (the
    histories are never empty) and no [ZeroDivisionError]. *)
Theorem play_never_raises (w : World) (l : list action) :
  exists self, play w l = Ok self.
Proof.
  destruct (play_ok w l) as [self [Hrun _]]. now exists self.
Qed.

(** X9. The purse is never overdrawn: after any run of clicks and updates
    from the new game the money is not negative. *)
Theorem money_is_never_negative (w : World) (l : list action) :
  exists self, play w l = Ok self /\ 0 <= Station.money (station self).
Proof.
  destruct (play_books w l) as [self [Hrun [_ Hbooks]]].
  exists self. split; [exact Hrun | apply Hbooks].
Qed.

(** X10. The station is never overfilled: after any run of clicks and
    updates from the new game the stored amounts are not negative and total
    at most the storage capacity, which is still the 1000 of the start. *)
Theorem station_is_never_overfilled (w : World) (l : list action) :
  exists self,
    play w l = Ok self
    /\ Station.storage_capacity (station self) = 1000
    /\ total (Station.storage (station self)) <= 1000
    /\ nonneg (Station.storage (station self)).
Proof.
  destruct (play_books w l) as [self [Hrun [[Hfleet _] Hbooks]]].
  exists self. split; [exact Hrun|].
  pose proof (ok_stock _ Hbooks) as Hstock.
  rewrite (ok_capacity_fixed _ Hbooks) in Hstock.
  split; [apply Hbooks|]. split; [exact Hstock|].
  apply (ok_storage_nonneg _ (ok_station _ Hfleet)).
Qed.

(** X11. The global stats reach every cart: after any run of clicks and
    updates from the new game, every cart, bought before or after an
    upgrade, has the speed and the mining speed of [cart_stats]. *)
Theorem carts_run_at_the_global_stats (w : World) (l : list action) :
  exists self speed mining_speed,
    play w l = Ok self
    /\ Dict.get (cart_stats self) "speed" = Some speed
    /\ Dict.get (cart_stats self) "mining" = Some mining_speed
    /\ Forall
         (fun cart =>
            Cart.speed cart = speed /\ Cart.mining_speed cart = mining_speed)
         (carts self).
Proof.
  destruct (play_books w l) as [self [Hrun [_ Hbooks]]].
  destruct (ok_speeds _ Hbooks) as [sp [mi Hall]].
  exists self, sp, mi. split; [exact Hrun | exact Hall].
Qed.

(** ** Conversions *)

Section Conversions.

Context {A : Type}.
Variables (p : A -> bool) (f : A -> A).

Lemma update_first_at (pre post : list A) (a : A) :
  Forall (fun b => p b = false) pre -> p a = true ->
  update_first p f (pre ++ a :: post) = pre ++ f a :: post.
Proof.
  intros Hpre Ha. induction Hpre as [|b pre Hb Hpre IH]; simpl.
  - now rewrite Ha.
  - now rewrite Hb, IH.
Qed.

Lemma update_first_none (l : list A) :
  Forall (fun b => p b = false) l -> update_first p f l = l.
Proof.
  induction 1 as [|b l Hb Hl IH]; simpl; trivial.
  now rewrite Hb, IH.
Qed.

Lemma update_first_length (l : list A) :
  List.length (update_first p f l) = List.length l.
Proof.
  induction l as [|b l IH]; simpl; trivial.
  destruct (p b); simpl; auto.
Qed.

End Conversions.

(** X12. A conversion changes one cart, the first of the other role in the
    list: that cart loses its load and starts the state machine of its new
    role ([loading] for a market cart, [mining] for a mining cart) where it
    stands, with its stats; the carts before and after it, their number and
    the rest of the game are untouched. Without a cart of the other role
    the conversion does nothing. *)
Theorem conversion_changes_the_first_cart_only (self : MiningGame.t) :
  (forall pre cart post,
      carts self = pre ++ cart :: post ->
      Forall (fun c => Cart.cart_type c <> "mining"%string) pre ->
      Cart.cart_type cart = "mining"%string ->
      exists cart',
        convert_to_market self = set_carts self (pre ++ cart' :: post)
        /\ converted_from cart cart' "market" "loading")
  /\ (forall pre cart post,
         carts self = pre ++ cart :: post ->
         Forall (fun c => Cart.cart_type c <> "market"%string) pre ->
         Cart.cart_type cart = "market"%string ->
         exists cart',
           convert_to_mining self = set_carts self (pre ++ cart' :: post)
           /\ converted_from cart cart' "mining" "mining")
  /\ (Forall (fun c => Cart.cart_type c <> "mining"%string) (carts self) ->
      convert_to_market self = self)
  /\ (Forall (fun c => Cart.cart_type c <> "market"%string) (carts self) ->
      convert_to_mining self = self)
  /\ List.length (carts (convert_to_market self)) = List.length (carts self)
  /\ List.length (carts (convert_to_mining self)) = List.length (carts self).
Proof.
  assert (Hneq : forall role l,
             Forall (fun c => Cart.cart_type c <> role) l ->
             Forall (fun c => String.eqb (Cart.cart_type c) role = false) l).
  { intros role l. apply Forall_impl. intros c Hc. now apply String.eqb_neq. }
  split; [|split; [|split; [|split; [|split]]]].
  - intros pre cart post Hcarts Hpre Htype. eexists. split.
    + unfold convert_to_market. rewrite Hcarts, update_first_at.
      * reflexivity.
      * now apply Hneq.
      * now apply String.eqb_eq.
    + repeat split.
  - intros pre cart post Hcarts Hpre Htype. eexists. split.
    + unfold convert_to_mining. rewrite Hcarts, update_first_at.
      * reflexivity.
      * now apply Hneq.
      * now apply String.eqb_eq.
    + repeat split.
  - intro Hnone. unfold convert_to_market.
    rewrite update_first_none by now apply Hneq. now destruct self.
  - intro Hnone. unfold convert_to_mining.
    rewrite update_first_none by now apply Hneq. now destruct self.
  - unfold convert_to_market. project. apply update_first_length.
  - unfold convert_to_mining. project. apply update_first_length.
Qed.

Lemma conversion_changes_the_first_cart_only_witness :
  exists cart',
    convert_to_market (set_carts (init still_world) market_first)
    = set_carts (init still_world)
        [nth 0 market_first cart_on_mine; cart';
         nth 2 market_first cart_on_mine]
    /\ converted_from (nth 1 market_first cart_on_mine) cart'
         "market" "loading".
Proof.
  destruct (conversion_changes_the_first_cart_only
              (set_carts (init still_world) market_first)) as [Hmarket _].
  destruct (Hmarket [nth 0 market_first cart_on_mine]
              (nth 1 market_first cart_on_mine)
              [nth 2 market_first cart_on_mine])
    as [cart' [Hrun Hconv]].
  - reflexivity.
  - constructor; [discriminate | constructor].
  - reflexivity.
  - exists cart'. split; [exact Hrun | exact Hconv].
Defined.

(** ** The sale switches *)

Lemma set_back {V : Type} (d : Dict.t V) (k : string) (v v0 : V) :
  Dict.get d k = Some v0 -> Dict.set (Dict.set d k v) k v0 = d.
Proof.
  induction d as [|[k' v'] d IH]; simpl; intro H.
  - discriminate.
  - destruct (String.eqb k' k) eqn:E; simpl; rewrite E.
    + now inversion H.
    + now rewrite IH.
Qed.

(** X13. The sale switch of a resource flips that resource and no other,
    and flipping it twice gives back the game as it was. A resource without
    a switch raises [KeyError]; the click handler toggles the resources of
    the catalogue only and ignores any other name. *)
Theorem toggle_flips_one_switch (self : MiningGame.t) (resource : string) :
  (forall enabled,
      Dict.get (resource_selling_enabled self) resource = Some enabled ->
      exists self',
        toggle_resource self resource = Ok self'
        /\ Dict.get (resource_selling_enabled self') resource
           = Some (negb enabled)
        /\ (forall r, resource <> r ->
                      Dict.get (resource_selling_enabled self') r
                      = Dict.get (resource_selling_enabled self) r)
        /\ toggle_resource self' resource = Ok self)
  /\ (Dict.get (resource_selling_enabled self) resource = None ->
      toggle_resource self resource = Raise (KeyError resource))
  /\ (Dict.get (resources self) resource = None ->
      on_click self (toggle resource) = Ok self).
Proof.
  split; [|split].
  - intros enabled Hen. unfold toggle_resource at 1, Dict.lookup.
    rewrite Hen. cbn [bind]. eexists. split; [reflexivity|]. project.
    split; [apply get_set_same|]. split.
    + intros r Hne. now apply get_set_other.
    + unfold toggle_resource, Dict.lookup. project.
      rewrite get_set_same. cbn [bind]. rewrite negb_involutive.
      rewrite set_back by exact Hen.
      now destruct self.
  - intro Hnone. unfold toggle_resource, Dict.lookup. now rewrite Hnone.
  - intro Hnone. cbn [on_click]. unfold Dict.mem. now rewrite Hnone.
Qed.

Lemma toggle_flips_one_switch_witness :
  exists self',
    toggle_resource (init still_world) "copper" = Ok self'
    /\ Dict.get (resource_selling_enabled self') "copper" = Some false
    /\ toggle_resource self' "copper" = Ok (init still_world).
Proof.
  destruct (toggle_flips_one_switch (init still_world) "copper")
    as [Hflip _].
  destruct (Hflip true eq_refl) as [self' [Hrun [Hoff [_ Hback]]]].
  exists self'. split; [exact Hrun|]. split; [exact Hoff | exact Hback].
Defined.

(** ** Upgrades without a cart stat *)

(** X14. An upgrade kind that has a cost and a multiplier but no entry in
    the global cart stats ([processing] and [storage] in a station as
    created) is sold like any other: the money is taken and the next cost is
    [int(cost * 1.5)]. Nothing is upgraded for it: the storage capacity, the
    processing speed, the carts and the cart stats stay as they were. *)
Theorem upgrade_without_stat_only_charges (self : MiningGame.t)
  (upgrade_type : string) (cost multiplier : Q) :
  Dict.get (Station.upgrade_costs (station self)) upgrade_type = Some cost ->
  Dict.get (Station.upgrade_multipliers (station self)) upgrade_type
  = Some multiplier ->
  Dict.get (cart_stats self) upgrade_type = None ->
  cost <= Station.money (station self) ->
  exists self',
    upgrade self upgrade_type = Ok (true, self')
    /\ Station.money (station self') = Station.money (station self) - cost
    /\ Dict.get (Station.upgrade_costs (station self')) upgrade_type
       = Some (Num.int (cost * 1.5))
    /\ Station.storage_capacity (station self')
       = Station.storage_capacity (station self)
    /\ Station.processing_speed (station self')
       = Station.processing_speed (station self)
    /\ Station.storage (station self') = Station.storage (station self)
    /\ carts self' = carts self
    /\ cart_stats self' = cart_stats self.
Proof.
  intros Hcost Hmult Hstat Hmoney.
  unfold upgrade, Dict.lookup, Dict.mem. rewrite Hcost.
  apply geb_ge in Hmoney. rewrite Hmoney. project.
  rewrite Hmult, Hstat. cbn [bind]. project.
  eexists. split; [reflexivity|]. project.
  split; [reflexivity|]. split; [apply get_set_same|]. repeat split.
Qed.

Lemma upgrade_without_stat_only_charges_witness :
  exists self',
    upgrade rich_game "storage" = Ok (true, self')
    /\ Station.money (station self') = 3000 - 3000
    /\ Station.storage_capacity (station self') = 1000
    /\ Dict.get (Station.upgrade_costs (station self')) "storage"
       = Some (Num.int (3000 * 1.5)).
Proof.
  destruct (upgrade_without_stat_only_charges rich_game "storage" 3000 2.0)
    as [self' [Hrun [Hmoney [Hcost [Hcap _]]]]].
  - reflexivity.
  - reflexivity.
  - reflexivity.
  - cbn. lra.
  - exists self'. split; [exact Hrun|]. split; [exact Hmoney|].
    split; [exact Hcap | exact Hcost].
Defined.

(** ** The gate of the price engine *)

(** X15. The price engine reads the clock once per call and does nothing
    else until [price_update_interval] has elapsed since the last price
    update. When it fires, it draws one random number per resource of the
    price table and records the time it read as the last price update. *)
Theorem price_update_waits_for_its_interval (w : World)
  (self : MiningGame.t) :
  (clock w (clock_reads self) - last_price_update self
   < price_update_interval self ->
   update_market_prices w self
   = Ok (set_clock_reads self (S (clock_reads self))))
  /\ (price_update_interval self
      <= clock w (clock_reads self) - last_price_update self ->
      forall self',
        update_market_prices w self = Ok self' ->
        last_price_update self' = clock w (clock_reads self)
        /\ clock_reads self' = S (clock_reads self)
        /\ random_reads self'
           = (random_reads self
              + List.length (Dict.keys (market_prices self)))%nat).
Proof.
  split.
  - intro Hwait. apply geb_lt in Hwait.
    unfold update_market_prices, time_time. project. now rewrite Hwait.
  - intros Hdue self' H. apply geb_ge in Hdue.
    unfold update_market_prices, time_time in H. project.
    rewrite Hdue in H.
    match type of H with
    | bind ?m _ = _ => destruct m as [s1|e] eqn:Hloop; [|discriminate]
    end.
    cbn [bind] in H. inversion H; subst self'. project.
    apply update_market_prices_loop_frame in Hloop.
    destruct Hloop as [Hframe Hreads]. project.
    split; [reflexivity|]. split; [|exact Hreads].
    unfold price_frame in Hframe. rewrite Hframe. reflexivity.
Qed.

Lemma price_update_waits_for_its_interval_witness :
  update_market_prices still_world (init still_world)
  = Ok (set_clock_reads (init still_world) 3)
  /\ exists self',
       update_market_prices ticking_world (init ticking_world) = Ok self'
       /\ last_price_update self' = 20
       /\ random_reads self' = 3%nat.
Proof.
  split.
  - apply (price_update_waits_for_its_interval still_world
             (init still_world)).
    cbn. lra.
  - destruct (update_market_prices ticking_world (init ticking_world))
      as [self'|e] eqn:Hrun.
    + exists self'. split; [reflexivity|].
      destruct (price_update_waits_for_its_interval ticking_world
                  (init ticking_world)) as [_ Hfire].
      destruct (Hfire ltac:(vm_compute; discriminate) self' Hrun)
        as [Hlast [_ Hreads]].
      split; [exact Hlast | exact Hreads].
    + vm_compute in Hrun. discriminate.
Defined.

(** ** The size of a price move *)

Lemma Forall_snd_set {V : Type} (P : V -> Prop) (d : Dict.t V) (k : string)
  (v : V) :
  Forall (fun kv => P (snd kv)) d -> P v ->
  Forall (fun kv => P (snd kv)) (Dict.set d k v).
Proof.
  intros Hd Hv. induction d as [|[k' v'] d IH]; simpl.
  - constructor; [exact Hv | constructor].
  - inversion Hd; subst. destruct (String.eqb k' k); constructor; auto.
Qed.

Lemma Forall_snd_get {V : Type} (P : V -> Prop) (d : Dict.t V) (k : string)
  (v : V) :
  Forall (fun kv => P (snd kv)) d -> Dict.get d k = Some v -> P v.
Proof.
  intros Hd. induction Hd as [|[k' v'] d Hv Hd IH]; simpl; intro H.
  - discriminate.
  - destruct (String.eqb k' k).
    + now inversion H; subst.
    + auto.
Qed.

Lemma clamped_swing (lo hi price momentum : Q) :
  lo <= price -> price <= hi -> 0 <= price ->
  - PRICE_VOLATILITY <= momentum -> momentum <= PRICE_VOLATILITY ->
  swing price (Num.max lo (Num.min hi (price * (1 + momentum)))).
Proof.
  unfold swing, PRICE_VOLATILITY. intros Hlo Hhi Hpos Hm1 Hm2.
  assert (H1 : price * (1 - 0.03) <= price * (1 + momentum)) by nra.
  assert (H2 : price * (1 + momentum) <= price * (1 + 0.03)) by nra.
  assert (H3 : price * (1 - 0.03) <= price) by nra.
  assert (H4 : price <= price * (1 + 0.03)) by nra.
  unfold Num.max, Num.min.
  destruct (Num.ltb (price * (1 + momentum)) hi) eqn:E1;
    [apply ltb_lt in E1 | apply ltb_ge in E1];
    match goal with
    | |- context [Num.gtb ?a ?b] =>
        destruct (Num.gtb a b) eqn:E2;
        [apply gtb_gt in E2 | apply gtb_le in E2]
    end; split; lra.
Qed.

Section PriceMoves.

Variable w : World.
Hypothesis Hdraws : unit_draws w.

Lemma update_price_swing (r : string) (self self' : MiningGame.t)
  (res : Resource.t) (price : Q) :
  calm self ->
  Dict.get (resources self) r = Some res ->
  Dict.get (market_prices self) r = Some price ->
  price_within_bounds res price ->
  update_price w r self = Ok self' ->
  calm self'
  /\ (exists price',
         Dict.get (market_prices self') r = Some price'
         /\ swing price price')
  /\ (forall r', r <> r' ->
        Dict.get (market_prices self') r' = Dict.get (market_prices self) r').
Proof.
  intros Hcalm Hres Hprice [Hlo Hhi].
  unfold update_price, random_uniform, random_random, Dict.lookup.
  project. intro H.
  destruct (Dict.get (price_momentum self) r) as [m|] eqn:Hm;
    [|discriminate].
  cbn [bind] in H. rewrite Hres in H. cbn [bind] in H.
  rewrite Hprice in H. cbn [bind] in H.
  rewrite get_set_same in H. cbn [bind] in H.
  destruct (Dict.get (price_history self) r) as [h|]; [|discriminate].
  cbn [bind] in H.
  destruct (pop0 h); [|discriminate]. cbn [bind] in H.
  rewrite !get_set_same in H. cbn [bind] in H.
  inversion H; subst self'. clear H. project.
  pose proof (Forall_snd_get _ _ _ _ Hcalm Hm) as Hbound.
  unfold within_volatility in Hbound.
  destruct (Hdraws (random_reads self)) as [Hu0 Hu1].
  assert (Hnew :
    - PRICE_VOLATILITY
    <= m * PRICE_MOMENTUM_FACTOR
       + (- PRICE_VOLATILITY
          + (PRICE_VOLATILITY - - PRICE_VOLATILITY)
            * random w (random_reads self))
         * (1 - PRICE_MOMENTUM_FACTOR)
    /\ m * PRICE_MOMENTUM_FACTOR
       + (- PRICE_VOLATILITY
          + (PRICE_VOLATILITY - - PRICE_VOLATILITY)
            * random w (random_reads self))
         * (1 - PRICE_MOMENTUM_FACTOR)
       <= PRICE_VOLATILITY).
  { unfold PRICE_VOLATILITY, PRICE_MOMENTUM_FACTOR in *. split; lra. }
  split; [|split].
  - unfold calm. project.
    apply Forall_snd_set; [exact Hcalm | exact Hnew].
  - eexists. split; [apply get_set_same|].
    assert (0 <= price).
    { assert (Resource.base_value res * 0.5 <= Resource.base_value res * 2)
        by lra.
      lra. }
    apply clamped_swing; try tauto; lra.
  - intros r' Hne. now apply get_set_other.
Qed.

Lemma update_market_prices_loop_swing (ks : list string) :
  forall self self',
  incl ks resource_names ->
  NoDup ks ->
  fleet_ok self ->
  market_ok self ->
  calm self ->
  update_market_prices_loop w ks self = Ok self' ->
  calm self'
  /\ forall r price,
       Dict.get (market_prices self) r = Some price ->
       exists price',
         Dict.get (market_prices self') r = Some price'
         /\ swing price price'
         /\ (~ In r ks -> price' = price).
Proof.
  assert (Still : forall price, 0 <= price -> swing price price).
  { intros price Hpos. unfold swing, PRICE_VOLATILITY. split; nra. }
  induction ks as [|k ks IH];
    intros self self' Hks Hnd Hfleet Hmarket Hcalm H; simpl in H.
  - inversion H; subst self'. split; [exact Hcalm|].
    intros r price Hprice. exists price. split; [exact Hprice|].
    split; [|reflexivity].
    apply Still. now apply (prices_nonneg self Hfleet Hmarket r).
  - destruct (update_price w k self) as [s1|e] eqn:Hstep; [|discriminate].
    cbn [bind] in H.
    assert (Hk : In k resource_names) by (apply Hks; now left).
    destruct (update_price_ok w k self Hk Hfleet Hmarket)
      as [s1' [p1 [h [_ [Hrun [Hf1 [Hm1 _]]]]]]].
    rewrite Hstep in Hrun. inversion Hrun; subst s1'. clear Hrun.
    destruct (in_keys_get (resources self) k) as [res Hres].
    { now rewrite (ok_resources _ Hfleet). }
    destruct (in_keys_get (market_prices self) k) as [pk Hpk].
    { now rewrite (ok_prices_keys _ Hfleet). }
    destruct (update_price_swing k self s1 res pk Hcalm Hres Hpk
                (ok_price_bounds _ Hmarket k res pk Hres Hpk) Hstep)
      as [Hcalm1 [[pk' [Hpk' Hswing]] Hother]].
    inversion Hnd as [|k0 ks0 Hnotin Hnd']; subst.
    destruct (IH s1 self' (fun a Ha => Hks a (or_intror Ha)) Hnd' Hf1 Hm1
                Hcalm1 H) as [Hcalm' Hrest].
    split; [exact Hcalm'|].
    intros r price Hprice.
    destruct (String.eqb k r) eqn:E.
    + apply String.eqb_eq in E. subst r.
      rewrite Hpk in Hprice. inversion Hprice; subst price.
      destruct (Hrest k pk' Hpk') as [p' [Hp' [_ Hsame]]].
      exists p'. split; [exact Hp'|].
      rewrite (Hsame Hnotin). split; [exact Hswing|].
      intro Hn. exfalso. apply Hn. now left.
    + apply String.eqb_neq in E.
      rewrite <- (Hother r E) in Hprice.
      destruct (Hrest r price Hprice) as [p' [Hp' [Hsw Hsame]]].
      exists p'. split; [exact Hp'|]. split; [exact Hsw|].
      intro Hn. apply Hsame. intro Hin. apply Hn. now right.
Qed.

Lemma update_market_prices_swing (self self' : MiningGame.t) :
  fleet_ok self -> market_ok self -> calm self ->
  update_market_prices w self = Ok self' ->
  calm self'
  /\ forall r price,
       Dict.get (market_prices self) r = Some price ->
       exists price',
         Dict.get (market_prices self') r = Some price'
         /\ swing price price'.
Proof.
  intros Hfleet Hmarket Hcalm.
  unfold update_market_prices, time_time. project. intro H.
  destruct (Num.geb _ _).
  - match type of H with
    | bind ?m _ = _ => destruct m as [s1|e] eqn:Hloop; [|discriminate]
    end.
    cbn [bind] in H. inversion H; subst self'. clear H.
    apply update_market_prices_loop_swing in Hloop.
    + destruct Hloop as [Hcalm1 Hall]. split; [exact Hcalm1|].
      intros r price Hprice.
      destruct (Hall r price Hprice) as [p' [Hp' [Hsw _]]].
      exists p'. now split.
    + project. rewrite (ok_prices_keys _ Hfleet). apply incl_refl.
    + project. rewrite (ok_prices_keys _ Hfleet).
      apply resource_names_nodup.
    + now apply fleet_ok_clock_reads.
    + now apply market_ok_clock_reads.
    + exact Hcalm.
  - inversion H; subst self'. split; [exact Hcalm|].
    intros r price Hprice. project. exists price. split; [exact Hprice|].
    pose proof (prices_nonneg self Hfleet Hmarket r price Hprice).
    unfold swing, PRICE_VOLATILITY. split; nra.
Qed.

Lemma update_swing (self self' : MiningGame.t) :
  game_ok self -> calm self ->
  update w self = Ok self' ->
  calm self'
  /\ forall r price,
       Dict.get (market_prices self) r = Some price ->
       exists price',
         Dict.get (market_prices self') r = Some price'
         /\ swing price price'.
Proof.
  intros [Hfleet Hmarket] Hcalm H.
  unfold update, time_time in H.
  set (self0 := set_last_update
                  (set_clock_reads self (S (clock_reads self)))
                  (clock w (clock_reads self))) in *.
  destruct (update_market_prices w self0) as [s1|e] eqn:Hp; [|discriminate].
  cbn [bind] in H.
  apply update_market_prices_swing in Hp.
  - destruct Hp as [Hcalm1 Hall].
    apply update_carts_loop_effect in H; [|reflexivity].
    destruct H as [_ [Hframe _]].
    assert (Hmom : price_momentum self' = price_momentum s1)
      by (rewrite Hframe; reflexivity).
    assert (Hprices : market_prices self' = market_prices s1)
      by (rewrite Hframe; reflexivity).
    split.
    + unfold calm. rewrite Hmom. exact Hcalm1.
    + rewrite Hprices. exact Hall.
  - now apply fleet_ok_last_update, fleet_ok_clock_reads.
  - now apply market_ok_last_update, market_ok_clock_reads.
  - exact Hcalm.
Qed.

End PriceMoves.

Ltac crack H :=
  repeat (cbn [bind] in H; project;
          match type of H with
          | context [if ?c then _ else _] => destruct c
          | context [match ?x with _ => _ end] => destruct x
          end);
  cbn [bind] in H; try discriminate.

Lemma on_click_market (self self' : MiningGame.t) (b : button) :
  on_click self b = Ok self' ->
  price_momentum self' = price_momentum self
  /\ market_prices self' = market_prices self.
Proof.
  intro H.
  destruct b; cbn [on_click] in H;
    unfold drop_flag, add_cart, upgrade, toggle_resource, convert_to_mining,
      convert_to_market, Dict.lookup in H;
    crack H; inversion H; subst self'; split; reflexivity.
Qed.

Lemma play_from_calm (w : World) (l : list action) :
  unit_draws w ->
  forall self self',
  game_ok self -> calm self ->
  play_from w self l = Ok self' -> calm self'.
Proof.
  intro Hdraws.
  induction l as [|a l IH]; intros self self' Hok Hcalm H; simpl in H.
  - now inversion H; subst.
  - destruct (act_ok w self a Hok) as [s1 [Hact Hok1]].
    rewrite Hact in H. cbn [bind] in H.
    apply (IH s1 self' Hok1); [|exact H].
    destruct a as [b|]; cbn [act] in Hact.
    + apply on_click_market in Hact. destruct Hact as [Hmom _].
      unfold calm. now rewrite Hmom.
    + now apply (update_swing w Hdraws self s1 Hok Hcalm).
Qed.

Lemma init_calm (w : World) : calm (init w).
Proof.
  unfold calm, within_volatility, PRICE_VOLATILITY. cbn.
  repeat (apply Forall_cons; [cbn; split; lra|]). apply Forall_nil.
Qed.

(** X16. With the draws of [random.random()] in the unit interval, the
    momentum of every resource stays within the volatility (3%) of zero,
    whatever the clicks and updates since the start of the game. *)
Theorem momentum_stays_within_volatility (w : World) (l : list action) :
  unit_draws w ->
  exists self,
    play w l = Ok self
    /\ forall r momentum,
         Dict.get (price_momentum self) r = Some momentum ->
         - PRICE_VOLATILITY <= momentum /\ momentum <= PRICE_VOLATILITY.
Proof.
  intro Hdraws.
  destruct (play_ok w l) as [self [Hplay Hok]].
  exists self. split; [exact Hplay|].
  intros r momentum Hget.
  pose proof (play_from_calm w l Hdraws (init w) self (init_ok w)
                (init_calm w) Hplay) as Hcalm.
  exact (Forall_snd_get _ _ _ _ Hcalm Hget).
Qed.

Lemma momentum_stays_within_volatility_witness :
  exists self,
    play swaying_world [Tick; Click upgrade_speed; Tick] = Ok self
    /\ forall r momentum,
         Dict.get (price_momentum self) r = Some momentum ->
         - PRICE_VOLATILITY <= momentum /\ momentum <= PRICE_VOLATILITY.
Proof.
  apply momentum_stays_within_volatility.
  intro n. cbn. destruct (Nat.even n); split; lra.
Defined.

(** X17. In the course of a game (draws in the unit interval), one [update]
    moves no price by more than 3% of its value: the price of every
    resource after the update lies between 97% and 103% of its price
    before. *)
Theorem update_moves_prices_by_3_percent_at_most (w : World)
  (l : list action) :
  unit_draws w ->
  exists self self',
    play w l = Ok self
    /\ update w self = Ok self'
    /\ forall r price,
         Dict.get (market_prices self) r = Some price ->
         exists price',
           Dict.get (market_prices self') r = Some price'
           /\ price * 0.97 <= price' /\ price' <= price * 1.03.
Proof.
  intro Hdraws.
  destruct (play_ok w l) as [self [Hplay Hok]].
  destruct (update_ok w self Hok) as [self' [Hup _]].
  exists self, self'. split; [exact Hplay|]. split; [exact Hup|].
  pose proof (play_from_calm w l Hdraws (init w) self (init_ok w)
                (init_calm w) Hplay) as Hcalm.
  destruct (update_swing w Hdraws self self' Hok Hcalm Hup) as [_ Hall].
  intros r price Hprice.
  destruct (Hall r price Hprice) as [p' [Hp' [Hlo Hhi]]].
  exists p'. split; [exact Hp'|].
  unfold PRICE_VOLATILITY in *. split; lra.
Qed.

Lemma update_moves_prices_by_3_percent_at_most_witness :
  exists self self',
    play swaying_world [Tick; Tick] = Ok self
    /\ update swaying_world self = Ok self'
    /\ forall r price,
         Dict.get (market_prices self) r = Some price ->
         exists price',
           Dict.get (market_prices self') r = Some price'
           /\ price * 0.97 <= price' /\ price' <= price * 1.03.
Proof.
  apply update_moves_prices_by_3_percent_at_most.
  intro n. cbn. destruct (Nat.even n); split; lra.
Defined.

(** ** The drawing pass *)

Section Gradient.






End Gradient.



Section PriceGraph.

Lemma fold_min_le (l : list Q) :
  forall a,
  fold_left Num.min l a <= a
  /\ Forall (fun p => fold_left Num.min l a <= p) l.
Proof.
  induction l as [|b l IH]; intro a; simpl.
  - split; [lra | constructor].
  - destruct (IH (Num.min a b)) as [Hle Hall].
    pose proof (min_le_l a b). pose proof (min_le_r a b).
    split; [lra|]. constructor; [lra | exact Hall].
Qed.

Lemma max_ge_l a b : a <= Num.max a b.
Proof.
  unfold Num.max. destruct (Num.gtb b a) eqn:E.
  - apply gtb_gt in E. lra.
  - lra.
Qed.

Lemma max_ge_r a b : b <= Num.max a b.
Proof.
  unfold Num.max. destruct (Num.gtb b a) eqn:E.
  - lra.
  - apply gtb_le in E. lra.
Qed.

Lemma fold_max_ge (l : list Q) :
  forall a,
  a <= fold_left Num.max l a
  /\ Forall (fun p => p <= fold_left Num.max l a) l.
Proof.
  induction l as [|b l IH]; intro a; simpl.
  - split; [lra | constructor].
  - destruct (IH (Num.max a b)) as [Hle Hall].
    pose proof (max_ge_l a b). pose proof (max_ge_r a b).
    split; [lra|]. constructor; [lra | exact Hall].
Qed.

Lemma point_x_in_graph (i : nat) :
  (i < PRICE_HISTORY_LENGTH)%nat ->
  0 <= floordiv (inject_Z (Z.of_nat i) * Draw.PRICE_GRAPH_WIDTH)
         (inject_Z (Z.of_nat PRICE_HISTORY_LENGTH))
  /\ floordiv (inject_Z (Z.of_nat i) * Draw.PRICE_GRAPH_WIDTH)
       (inject_Z (Z.of_nat PRICE_HISTORY_LENGTH))
     < Draw.PRICE_GRAPH_WIDTH.
Proof.
  unfold PRICE_HISTORY_LENGTH, Draw.PRICE_GRAPH_WIDTH, floordiv. intro Hi.
  assert (H0 : 0 <= inject_Z (Z.of_nat i)).
  { change 0 with (inject_Z 0). rewrite <- Zle_Qle. lia. }
  assert (H1 : inject_Z (Z.of_nat i) <= 49).
  { change 49 with (inject_Z 49). rewrite <- Zle_Qle. lia. }
  set (q := inject_Z (Z.of_nat i) * 180 / inject_Z (Z.of_nat 50)).
  assert (Hq : 0 <= q /\ q < 180).
  { unfold q. split.
    - apply Qle_shift_div_l; [reflexivity | lra].
    - apply Qlt_shift_div_r; [reflexivity|].
      change (inject_Z (Z.of_nat 50)) with 50. lra. }
  split.
  - change 0 with (inject_Z (Qfloor 0)). rewrite <- Zle_Qle.
    apply Qfloor_resp_le. tauto.
  - apply Qle_lt_trans with q; [apply Qfloor_le | tauto].
Qed.

Lemma graph_points_ok (x y min_price price_range : Q) (prices : list Q) :
  0 < price_range ->
  Forall (fun p => min_price <= p /\ p - min_price <= price_range) prices ->
  forall i,
  (i + List.length prices <= PRICE_HISTORY_LENGTH)%nat ->
  exists points,
    Draw.graph_points x y min_price price_range i prices = Ok points
    /\ List.length points = List.length prices
    /\ Forall (in_graph x y) points.
Proof.
  intros Hrange Hall. induction Hall as [|p prices [Hlo Hhi] Hall IH];
    intros i Hlen.
  - exists []. repeat split. constructor.
  - simpl in Hlen. destruct (IH (S i)) as [points [Hrun [Hl Hin]]];
      [lia|].
    cbn [Draw.graph_points]. unfold truediv.
    assert (E : Num.eqb price_range 0 = false) by (apply eqb_neq; lra).
    rewrite E. cbn [bind]. rewrite Hrun. cbn [bind].
    eexists. split; [reflexivity|]. split; [simpl; now rewrite Hl|].
    constructor; [|exact Hin].
    unfold in_graph. cbn [fst snd].
    assert (Hq : 0 <= (p - min_price) / price_range
                 /\ (p - min_price) / price_range <= 1).
    { split.
      - apply Qle_shift_div_l; [exact Hrange | lra].
      - apply Qle_shift_div_r; [exact Hrange | lra]. }
    set (v := (p - min_price) / price_range * Draw.PRICE_GRAPH_HEIGHT).
    assert (Hv : 0 <= v /\ v <= Draw.PRICE_GRAPH_HEIGHT).
    { unfold v, Draw.PRICE_GRAPH_HEIGHT. split; nra. }
    pose proof (int_nonneg v (proj1 Hv)).
    pose proof (int_le v (proj1 Hv)).
    destruct (point_x_in_graph i) as [Hx0 Hx1]; [lia|].
    repeat split; lra.
Qed.

Lemma draw_price_graph_ok (self : MiningGame.t) (x y : Q) (r : string) :
  game_ok self ->
  In r resource_names ->
  exists points,
    Draw.draw_price_graph self x y r = Draw.Returns points
    /\ List.length points = PRICE_HISTORY_LENGTH
    /\ Forall (in_graph x y) points.
Proof.
  intros [Hfleet Hmarket] Hr.
  destruct (in_keys_get (price_history self) r) as [h Hh].
  { now rewrite (ok_history_keys _ Hmarket). }
  destruct (in_keys_get (resources self) r) as [res Hres].
  { now rewrite (ok_resources _ Hfleet). }
  pose proof (ok_history_length _ Hmarket r h Hh) as Hlen.
  unfold Draw.draw_price_graph. rewrite Hh.
  destruct h as [|a rest]; [discriminate|].
  cbn [Draw.min_of Draw.max_of].
  destruct (fold_min_le rest a) as [Hmin Hmins].
  destruct (fold_max_ge rest a) as [Hmax Hmaxs].
  set (min_price := fold_left Num.min rest a) in *.
  set (max_price := fold_left Num.max rest a) in *.
  set (price_range := if Num.eqb (max_price - min_price) 0 then 1
                      else max_price - min_price).
  assert (Hrange : 0 < price_range
                   /\ max_price - min_price <= price_range).
  { unfold price_range.
    destruct (Num.eqb (max_price - min_price) 0) eqn:E.
    - apply eqb_eq in E. lra.
    - apply eqb_neq in E. split; [|lra].
      destruct (Qlt_le_dec 0 (max_price - min_price)) as [Hlt|Hle];
        [exact Hlt|].
      exfalso. apply E. lra. }
  destruct (graph_points_ok x y min_price price_range (a :: rest)
              (proj1 Hrange)) with (i := 0%nat)
    as [points [Hrun [Hl Hin]]].
  - constructor.
    + split; lra.
    + rewrite Forall_forall in *. intros p Hp.
      pose proof (Hmins p Hp). pose proof (Hmaxs p Hp).
      cbv beta in *. split; lra.
  - rewrite Hlen. apply Nat.le_refl.
  - rewrite Hrun. rewrite Hl, Hlen. cbn [Nat.ltb Nat.leb PRICE_HISTORY_LENGTH].
    rewrite Hres. exists points. split; [reflexivity|].
    split; [now rewrite Hl|exact Hin].
Qed.

End PriceGraph.

(** X19. In the course of a game, [draw_price_graph] never raises for a
    resource of the catalogue, wherever the graph is placed: the history is
    not empty, so [min] and [max] are defined, and a flat history is scaled
    by 1 instead of by a zero range. It plots one point per entry of the
    history (50), and every point lies in the rectangle of the graph. *)
Theorem price_graph_stays_in_its_frame (w : World) (l : list action) :
  exists self,
    play w l = Ok self
    /\ forall x y r,
         In r resource_names ->
         exists points,
           Draw.draw_price_graph self x y r = Draw.Returns points
           /\ List.length points = PRICE_HISTORY_LENGTH
           /\ Forall (in_graph x y) points.
Proof.
  destruct (play_ok w l) as [self [Hplay Hok]].
  exists self. split; [exact Hplay|].
  intros x y r Hr. now apply draw_price_graph_ok.
Qed.

Lemma price_graph_stays_in_its_frame_witness :
  exists self points,
    play ticking_world [Tick; Tick] = Ok self
    /\ Draw.draw_price_graph self 1250 100 "gold" = Draw.Returns points
    /\ List.length points = PRICE_HISTORY_LENGTH
    /\ Forall (in_graph 1250 100) points.
Proof.
  destruct (price_graph_stays_in_its_frame ticking_world [Tick; Tick])
    as [self [Hplay Hgraph]].
  destruct (Hgraph 1250 100 "gold"%string) as [points Hpoints].
  - right. right. now left.
  - exists self, points. split; [exact Hplay | exact Hpoints].
Defined.
